(** * The NonAdminBackup reconciler and its event predicate

    A shallow embedding of [internal/controller/nonadminbackup_controller.go]
    and [internal/predicate/nonadminbackup_predicate.go].

    Go values are Rocq values: strings are [string], [int64] is [Z], a
    [map[string]string] is a [gmap string string], a slice is a [list], a
    pointer that may be nil is an [option].  The cluster the client talks to
    is an explicit state (two finite maps keyed by namespace and name); every
    client call can fail, the failure being chosen by the environment of the
    call. *)

From Stdlib Require Import ZArith.
From stdpp Require Import base decidable option list strings gmap fin_maps.

Local Open Scope string_scope.
Local Open Scope Z_scope.

(** ** Kubernetes metadata *)

(** [metav1.Time]; the zero instant is [0]. *)
Definition Time := Z.

Definition Time_IsZero (t : Time) : bool := bool_decide (t = 0).

(** [types.NamespacedName] and [client.ObjectKey]: namespace, then name. *)
Abbreviation ObjectKey := (string * string)%type.

Record ObjectMeta := mkObjectMeta {
  mName : string;
  mNamespace : string;
  mGeneration : Z;
  mLabels : gmap string string;
  mAnnotations : gmap string string
}.

Inductive ConditionStatus := ConditionTrue | ConditionFalse | ConditionUnknown.

(** [metav1.Condition]. *)
Record Condition := mkCondition {
  cType : string;
  cStatus : ConditionStatus;
  cObservedGeneration : Z;
  cLastTransitionTime : Time;
  cReason : string;
  cMessage : string
}.

#[global] Instance ConditionStatus_eq_dec : EqDecision ConditionStatus.
Proof. solve_decision. Defined.

#[global] Instance Condition_eq_dec : EqDecision Condition.
Proof. solve_decision. Defined.

(** ** Velero API types (the fields of [velerov1.BackupSpec] and
    [velerov1.BackupStatus] that samples and specification mention) *)

Record BackupSpec := mkBackupSpec {
  sIncludedNamespaces : list string;
  sExcludedNamespaces : list string;
  sIncludedResources : list string;
  sExcludedResources : list string;
  sStorageLocation : string;
  sDefaultVolumesToFsBackup : option bool
}.

Record BackupStatus := mkBackupStatus {
  bsVersion : Z;
  bsPhase : string;
  bsValidationErrors : list string;
  bsStartTimestamp : option Time;
  bsCompletionTimestamp : option Time;
  bsWarnings : Z;
  bsErrors : Z
}.

#[global] Instance BackupSpec_eq_dec : EqDecision BackupSpec.
Proof. solve_decision. Defined.

#[global] Instance BackupStatus_eq_dec : EqDecision BackupStatus.
Proof. solve_decision. Defined.

(** [velerov1.Backup]. *)
Record Backup := mkBackup {
  bObjectMeta : ObjectMeta;
  bSpec : BackupSpec;
  bStatus : BackupStatus
}.

(** The zero value of [velerov1.BackupStatus]. *)
Definition BackupStatus_zero : BackupStatus :=
  mkBackupStatus 0 "" [] None None 0 0.

(** Generated deep copies: a fresh value with the same contents. *)
Definition BackupSpec_DeepCopy (s : BackupSpec) : BackupSpec :=
  mkBackupSpec (sIncludedNamespaces s) (sExcludedNamespaces s)
    (sIncludedResources s) (sExcludedResources s) (sStorageLocation s)
    (sDefaultVolumesToFsBackup s).

Definition BackupStatus_DeepCopy (s : BackupStatus) : BackupStatus :=
  mkBackupStatus (bsVersion s) (bsPhase s) (bsValidationErrors s)
    (bsStartTimestamp s) (bsCompletionTimestamp s) (bsWarnings s) (bsErrors s).

(** ** NonAdminBackup API types *)

Definition NonAdminBackupPhase := string.

(** [constant.EmptyString]. *)
Definition constant_EmptyString : string := "".

(** Modelled from the spec: the phase names of [api/v1alpha1], "one of:
    empty/New/BackingOff/Created". *)
Definition NonAdminBackupPhaseNew : NonAdminBackupPhase := "New".
Definition NonAdminBackupPhaseBackingOff : NonAdminBackupPhase := "BackingOff".
Definition NonAdminBackupPhaseCreated : NonAdminBackupPhase := "Created".

(** Modelled from the spec: the condition types of [api/v1alpha1],
    "keyed by condition type: Accepted, Queued". *)
Definition NonAdminConditionAccepted : string := "Accepted".
Definition NonAdminConditionQueued : string := "Queued".

(** [nacv1alpha1.VeleroBackup]: the reference block of the status. *)
Record VeleroBackup := mkVeleroBackup {
  vStatus : option BackupStatus;
  vName : string;
  vNamespace : string
}.

Record NonAdminBackupStatus := mkNonAdminBackupStatus {
  stVeleroBackup : option VeleroBackup;
  stPhase : NonAdminBackupPhase;
  stConditions : list Condition
}.

Record NonAdminBackupSpec := mkNonAdminBackupSpec {
  nsBackupSpec : BackupSpec
}.

Record NonAdminBackup := mkNonAdminBackup {
  nObjectMeta : ObjectMeta;
  nSpec : NonAdminBackupSpec;
  nStatus : NonAdminBackupStatus
}.

#[global] Instance VeleroBackup_eq_dec : EqDecision VeleroBackup.
Proof. solve_decision. Defined.

#[global] Instance NonAdminBackupStatus_eq_dec : EqDecision NonAdminBackupStatus.
Proof. solve_decision. Defined.

Definition nab_key (nab : NonAdminBackup) : ObjectKey :=
  (mNamespace (nObjectMeta nab), mName (nObjectMeta nab)).

Definition backup_key (b : Backup) : ObjectKey :=
  (mNamespace (bObjectMeta b), mName (bObjectMeta b)).

(** Field assignments. *)
Definition set_status (nab : NonAdminBackup) (st : NonAdminBackupStatus) : NonAdminBackup :=
  mkNonAdminBackup (nObjectMeta nab) (nSpec nab) st.

Definition set_phase (st : NonAdminBackupStatus) (p : NonAdminBackupPhase) : NonAdminBackupStatus :=
  mkNonAdminBackupStatus (stVeleroBackup st) p (stConditions st).

Definition set_conditions (st : NonAdminBackupStatus) (cs : list Condition) : NonAdminBackupStatus :=
  mkNonAdminBackupStatus (stVeleroBackup st) (stPhase st) cs.

Definition set_veleroBackup (st : NonAdminBackupStatus) (v : option VeleroBackup) : NonAdminBackupStatus :=
  mkNonAdminBackupStatus v (stPhase st) (stConditions st).

(** ** Errors *)

Inductive StatusReason :=
  ReasonNotFound | ReasonAlreadyExists | ReasonConflict | ReasonInternalError.

(** An [error] value: an API status error, a plain message ([errors.New],
    [fmt.Errorf]) or [reconcile.TerminalError] around another error. *)
Inductive error :=
| StatusError (reason : StatusReason) (message : string)
| ErrorString (message : string)
| TerminalError (wrapped : error).

Fixpoint error_Error (e : error) : string :=
  match e with
  | StatusError _ m => m
  | ErrorString m => m
  | TerminalError w => "terminal error: " ++ error_Error w
  end.

(** [apierrors.IsNotFound]. *)
Definition IsNotFound (e : error) : bool :=
  match e with
  | StatusError ReasonNotFound _ => true
  | _ => false
  end.

(** ** The cluster and the client *)

Record Cluster := mkCluster {
  nonAdminBackups : gmap ObjectKey NonAdminBackup;
  veleroBackups : gmap ObjectKey Backup
}.

(** What one reconcile meets outside the program: the clock, and for each
    client call the error the API reports, if any.  A reconcile makes each
    kind of call at most once. *)
Record Env := mkEnv {
  now : Time;
  getNonAdminBackupError : option error;
  getBackupError : option error;
  createError : option error;
  updateError : option error
}.

(** The writes a call sequence performed, oldest first. *)
Inductive Write :=
| WriteCreate (b : Backup)
| WriteStatusUpdate (nab : NonAdminBackup).

(** [r.Get] for a NonAdminBackup. *)
Definition Get_NonAdminBackup (env : Env) (cl : Cluster) (key : ObjectKey)
  : error + NonAdminBackup :=
  match getNonAdminBackupError env with
  | Some e => inl e
  | None =>
      match nonAdminBackups cl !! key with
      | Some nab => inr nab
      | None => inl (StatusError ReasonNotFound "nonadminbackup not found")
      end
  end.

(** [r.Get] for a Velero Backup. *)
Definition Get_Backup (env : Env) (cl : Cluster) (key : ObjectKey) : error + Backup :=
  match getBackupError env with
  | Some e => inl e
  | None =>
      match veleroBackups cl !! key with
      | Some b => inr b
      | None => inl (StatusError ReasonNotFound "backup not found")
      end
  end.

(** [r.Create]: refused when the key is taken. *)
Definition Create_Backup (env : Env) (cl : Cluster) (b : Backup) : Cluster * option error :=
  match createError env with
  | Some e => (cl, Some e)
  | None =>
      match veleroBackups cl !! backup_key b with
      | Some _ => (cl, Some (StatusError ReasonAlreadyExists "backup already exists"))
      | None => (mkCluster (nonAdminBackups cl) (<[backup_key b := b]> (veleroBackups cl)), None)
      end
  end.

(** [r.Status().Update]: replaces the status of the stored object, and only
    the status. *)
Definition Status_Update (env : Env) (cl : Cluster) (nab : NonAdminBackup)
  : Cluster * option error :=
  match updateError env with
  | Some e => (cl, Some e)
  | None =>
      match nonAdminBackups cl !! nab_key nab with
      | None => (cl, Some (StatusError ReasonNotFound "nonadminbackup not found"))
      | Some stored =>
          (mkCluster (<[nab_key nab := set_status stored (nStatus nab)]> (nonAdminBackups cl))
                     (veleroBackups cl), None)
      end
  end.

(** ** [meta.FindStatusCondition] and [meta.SetStatusCondition]
    (k8s.io/apimachinery/pkg/api/meta) *)

Fixpoint FindStatusCondition (conditions : list Condition) (conditionType : string)
  : option Condition :=
  match conditions with
  | [] => None
  | c :: rest =>
      if decide (cType c = conditionType) then Some c
      else FindStatusCondition rest conditionType
  end.

(** Writing through the pointer [FindStatusCondition] returned: the first
    condition of that type is replaced. *)
Fixpoint storeCondition (conditions : list Condition) (conditionType : string)
  (c' : Condition) : list Condition :=
  match conditions with
  | [] => []
  | c :: rest =>
      if decide (cType c = conditionType) then c' :: rest
      else c :: storeCondition rest conditionType c'
  end.

Definition SetStatusCondition (now : Time) (conditions : list Condition)
  (newCondition : Condition) : list Condition * bool :=
  match FindStatusCondition conditions (cType newCondition) with
  | None =>
      let newCondition :=
        if Time_IsZero (cLastTransitionTime newCondition)
        then mkCondition (cType newCondition) (cStatus newCondition)
               (cObservedGeneration newCondition) now
               (cReason newCondition) (cMessage newCondition)
        else newCondition in
      ((conditions ++ [newCondition])%list, true)
  | Some existing =>
      let '(existing, changed) :=
        if decide (cStatus existing = cStatus newCondition) then (existing, false)
        else (mkCondition (cType existing) (cStatus newCondition)
                (cObservedGeneration existing)
                (if negb (Time_IsZero (cLastTransitionTime newCondition))
                 then cLastTransitionTime newCondition else now)
                (cReason existing) (cMessage existing), true) in
      let '(existing, changed) :=
        if decide (cReason existing = cReason newCondition) then (existing, changed)
        else (mkCondition (cType existing) (cStatus existing)
                (cObservedGeneration existing) (cLastTransitionTime existing)
                (cReason newCondition) (cMessage existing), true) in
      let '(existing, changed) :=
        if decide (cMessage existing = cMessage newCondition) then (existing, changed)
        else (mkCondition (cType existing) (cStatus existing)
                (cObservedGeneration existing) (cLastTransitionTime existing)
                (cReason existing) (cMessage newCondition), true) in
      let '(existing, changed) :=
        if decide (cObservedGeneration existing = cObservedGeneration newCondition)
        then (existing, changed)
        else (mkCondition (cType existing) (cStatus existing)
                (cObservedGeneration newCondition) (cLastTransitionTime existing)
                (cReason existing) (cMessage existing), true) in
      (storeCondition conditions (cType newCondition) existing, changed)
  end.

(** ** The status helpers of the controller *)

(** [updateNonAdminPhase]: the phase after the call, and whether the call
    changed it. *)
Definition updateNonAdminPhase (phase newPhase : NonAdminBackupPhase)
  : NonAdminBackupPhase * bool :=
  if decide (newPhase = constant_EmptyString) then (phase, false)
  else if decide (phase = newPhase) then (phase, false)
  else (newPhase, true).

Definition updateNonAdminBackupVeleroBackupReference (status : NonAdminBackupStatus)
  (veleroBackup : Backup) : NonAdminBackupStatus * bool :=
  match stVeleroBackup status with
  | None =>
      (set_veleroBackup status
         (Some (mkVeleroBackup None (mName (bObjectMeta veleroBackup))
                  (mNamespace (bObjectMeta veleroBackup)))), true)
  | Some v =>
      if bool_decide (vName v ≠ mName (bObjectMeta veleroBackup))
         || bool_decide (vNamespace v ≠ mNamespace (bObjectMeta veleroBackup))
      then (set_veleroBackup status
              (Some (mkVeleroBackup (vStatus v) (mName (bObjectMeta veleroBackup))
                       (mNamespace (bObjectMeta veleroBackup)))), true)
      else (status, false)
  end.

(** [reflect.DeepEqual] of a [*BackupStatus] with the address of a status:
    a nil pointer differs from every address. *)
Definition DeepEqual_status (p : option BackupStatus) (s : BackupStatus) : bool :=
  match p with
  | None => false
  | Some s' => bool_decide (s' = s)
  end.

Definition updateNonAdminBackupVeleroBackupStatus (status : NonAdminBackupStatus)
  (veleroBackup : Backup) : NonAdminBackupStatus * bool :=
  match stVeleroBackup status with
  | None =>
      (set_veleroBackup status
         (Some (mkVeleroBackup (Some (BackupStatus_DeepCopy (bStatus veleroBackup))) "" "")),
       true)
  | Some v =>
      if negb (DeepEqual_status (vStatus v) (bStatus veleroBackup))
      then (set_veleroBackup status
              (Some (mkVeleroBackup (Some (BackupStatus_DeepCopy (bStatus veleroBackup)))
                       (vName v) (vNamespace v))), true)
      else (status, false)
  end.

(** ** The reconcile steps *)

(** [NonAdminBackupReconciler]; the embedded client acts on the [Cluster]
    that the steps thread. *)
Record NonAdminBackupReconciler := mkReconciler {
  OADPNamespace : string
}.

(** What a step leaves behind: the object behind the [nab] pointer, the
    cluster, the writes that succeeded, and the two results of
    [reconcileStepFunction]. *)
Record StepResult := mkStepResult {
  srNab : NonAdminBackup;
  srCluster : Cluster;
  srWrites : list Write;
  srRequeue : bool;
  srError : option error
}.

Definition reconcileStepFunction : Type := Env → Cluster → NonAdminBackup → StepResult.

(** [ctrl.Result]. *)
Record Result := mkResult { Requeue : bool }.

Record ReconcileResult := mkReconcileResult {
  rrCluster : Cluster;
  rrWrites : list Write;
  rrResult : Result;
  rrError : option error
}.

Section Controller.

(** The helpers of [internal/common/function], which the controller calls
    and whose code is in another package. *)
Variable GenerateVeleroBackupName : string → string → string.
Variable GetNonAdminLabels : gmap string string.
Variable GetNonAdminBackupAnnotations : ObjectMeta → gmap string string.
Variable ValidateBackupSpec : NonAdminBackup → option error.

Variable r : NonAdminBackupReconciler.

Definition init : reconcileStepFunction := fun env cl nab =>
  if decide (stPhase (nStatus nab) = constant_EmptyString) then
    let '(phase, updated) :=
      updateNonAdminPhase (stPhase (nStatus nab)) NonAdminBackupPhaseNew in
    let nab := set_status nab (set_phase (nStatus nab) phase) in
    if updated then
      match Status_Update env cl nab with
      | (cl', Some err) => mkStepResult nab cl' [] false (Some err)
      | (cl', None) => mkStepResult nab cl' [WriteStatusUpdate nab] true None
      end
    else mkStepResult nab cl [] false None
  else mkStepResult nab cl [] false None.

Definition acceptedFalse (err : error) : Condition :=
  mkCondition NonAdminConditionAccepted ConditionFalse 0 0
    "InvalidBackupSpec" (error_Error err).

Definition acceptedTrue : Condition :=
  mkCondition NonAdminConditionAccepted ConditionTrue 0 0
    "BackupAccepted" "backup accepted".

Definition queuedTrue : Condition :=
  mkCondition NonAdminConditionQueued ConditionTrue 0 0
    "BackupScheduled" "Created Velero Backup object".

Definition validateSpec : reconcileStepFunction := fun env cl nab =>
  match ValidateBackupSpec nab with
  | Some err =>
      let '(phase, updatedPhase) :=
        updateNonAdminPhase (stPhase (nStatus nab)) NonAdminBackupPhaseBackingOff in
      let status := set_phase (nStatus nab) phase in
      let '(conditions, updatedCondition) :=
        SetStatusCondition (now env) (stConditions status) (acceptedFalse err) in
      let nab := set_status nab (set_conditions status conditions) in
      if updatedPhase || updatedCondition then
        match Status_Update env cl nab with
        | (cl', Some updateErr) => mkStepResult nab cl' [] false (Some updateErr)
        | (cl', None) =>
            mkStepResult nab cl' [WriteStatusUpdate nab] false (Some (TerminalError err))
        end
      else mkStepResult nab cl [] false (Some (TerminalError err))
  | None =>
      let '(conditions, updated) :=
        SetStatusCondition (now env) (stConditions (nStatus nab)) acceptedTrue in
      let nab := set_status nab (set_conditions (nStatus nab) conditions) in
      if updated then
        match Status_Update env cl nab with
        | (cl', Some err) => mkStepResult nab cl' [] false (Some err)
        | (cl', None) => mkStepResult nab cl' [WriteStatusUpdate nab] true None
        end
      else mkStepResult nab cl [] false None
  end.

(** The Velero Backup that [syncVeleroBackupWithNonAdminBackup] builds when
    it found none. *)
Definition newVeleroBackup (veleroBackupName : string) (nab : NonAdminBackup) : Backup :=
  let backupSpec := BackupSpec_DeepCopy (nsBackupSpec (nSpec nab)) in
  let backupSpec :=
    mkBackupSpec [mNamespace (nObjectMeta nab)] (sExcludedNamespaces backupSpec)
      (sIncludedResources backupSpec) (sExcludedResources backupSpec)
      (sStorageLocation backupSpec) (sDefaultVolumesToFsBackup backupSpec) in
  mkBackup
    (mkObjectMeta veleroBackupName (OADPNamespace r) 0 GetNonAdminLabels
       (GetNonAdminBackupAnnotations (nObjectMeta nab)))
    backupSpec BackupStatus_zero.

(** The second half of [syncVeleroBackupWithNonAdminBackup], from the phase
    update on; [writes] are the writes of the first half. *)
Definition syncStatus (env : Env) (cl : Cluster) (writes : list Write)
  (nab : NonAdminBackup) (veleroBackup : Backup) : StepResult :=
  let '(phase, updatedPhase) :=
    updateNonAdminPhase (stPhase (nStatus nab)) NonAdminBackupPhaseCreated in
  let status := set_phase (nStatus nab) phase in
  let '(conditions, updatedCondition) :=
    SetStatusCondition (now env) (stConditions status) queuedTrue in
  let status := set_conditions status conditions in
  let '(status, updatedReference) :=
    updateNonAdminBackupVeleroBackupReference status veleroBackup in
  let nab := set_status nab status in
  if updatedPhase || updatedCondition || updatedReference then
    match Status_Update env cl nab with
    | (cl', Some err) => mkStepResult nab cl' writes false (Some err)
    | (cl', None) =>
        mkStepResult nab cl' (writes ++ [WriteStatusUpdate nab]) false None
    end
  else
    let '(status, updated) :=
      updateNonAdminBackupVeleroBackupStatus (nStatus nab) veleroBackup in
    let nab := set_status nab status in
    if updated then
      match Status_Update env cl nab with
      | (cl', Some err) => mkStepResult nab cl' writes false (Some err)
      | (cl', None) =>
          mkStepResult nab cl' (writes ++ [WriteStatusUpdate nab]) false None
      end
    else mkStepResult nab cl writes false None.

Definition syncVeleroBackupWithNonAdminBackup : reconcileStepFunction := fun env cl nab =>
  let veleroBackupName :=
    GenerateVeleroBackupName (mNamespace (nObjectMeta nab)) (mName (nObjectMeta nab)) in
  if decide (veleroBackupName = constant_EmptyString) then
    mkStepResult nab cl [] false
      (Some (ErrorString "unable to generate Velero Backup name"))
  else
    match Get_Backup env cl (OADPNamespace r, veleroBackupName) with
    | inl err =>
        if negb (IsNotFound err) then mkStepResult nab cl [] false (Some err)
        else
          let veleroBackup := newVeleroBackup veleroBackupName nab in
          match Create_Backup env cl veleroBackup with
          | (cl', Some err) => mkStepResult nab cl' [] false (Some err)
          | (cl', None) => syncStatus env cl' [WriteCreate veleroBackup] nab veleroBackup
          end
    | inr veleroBackup => syncStatus env cl [] nab veleroBackup
    end.

(** The loop of [Reconcile] over [reconcileSteps]. *)
Fixpoint runSteps (steps : list reconcileStepFunction) (env : Env) (cl : Cluster)
  (writes : list Write) (nab : NonAdminBackup) : ReconcileResult :=
  match steps with
  | [] => mkReconcileResult cl writes (mkResult false) None
  | step :: rest =>
      let sr := step env cl nab in
      match srError sr with
      | Some err =>
          mkReconcileResult (srCluster sr) (writes ++ srWrites sr) (mkResult false) (Some err)
      | None =>
          if srRequeue sr
          then mkReconcileResult (srCluster sr) (writes ++ srWrites sr) (mkResult true) None
          else runSteps rest env (srCluster sr) (writes ++ srWrites sr) (srNab sr)
      end
  end.

Definition reconcileSteps : list reconcileStepFunction :=
  [init; validateSpec; syncVeleroBackupWithNonAdminBackup].

Definition Reconcile (env : Env) (cl : Cluster) (req : ObjectKey) : ReconcileResult :=
  match Get_NonAdminBackup env cl req with
  | inl err =>
      if IsNotFound err then mkReconcileResult cl [] (mkResult false) None
      else mkReconcileResult cl [] (mkResult false) (Some err)
  | inr nab => runSteps reconcileSteps env cl [] nab
  end.

End Controller.

(** ** The event predicate of NonAdminBackup objects *)

Module NonAdminBackupPredicate.

(** [event.CreateEvent], [event.UpdateEvent], [event.DeleteEvent]; an
    object is read through its metadata only. *)
Record CreateEvent := mkCreateEvent { ceObject : ObjectMeta }.
Record UpdateEvent := mkUpdateEvent { ueObjectOld : ObjectMeta; ueObjectNew : ObjectMeta }.
Record DeleteEvent := mkDeleteEvent { deObject : ObjectMeta; deDeleteStateUnknown : bool }.

Definition GetGeneration (o : ObjectMeta) : Z := mGeneration o.

Definition Create (evt : CreateEvent) : bool := true.

Definition Update (evt : UpdateEvent) : bool :=
  if decide (GetGeneration (ueObjectNew evt) ≠ GetGeneration (ueObjectOld evt))
  then true
  else false.

Definition Delete (evt : DeleteEvent) : bool := true.

End NonAdminBackupPredicate.

(** ** Instances of the helpers, for the examples *)

Module Example.

Definition GenerateVeleroBackupName (namespace name : string) : string :=
  "nab-" ++ namespace ++ "-" ++ name.

Definition GetNonAdminLabels : gmap string string :=
  {[ "openshift.io/oadp" := "True" ]}.

Definition GetNonAdminBackupAnnotations (m : ObjectMeta) : gmap string string :=
  <[ "openshift.io/oadp-nab-origin-namespace" := mNamespace m ]>
    {[ "openshift.io/oadp-nab-origin-name" := mName m ]}.

(** Modelled from the spec: the validator of [internal/common/function],
    "forbidding fields that would let a tenant see other namespaces": the
    included namespaces may name the request's own namespace only. *)
Definition ValidateBackupSpec (nab : NonAdminBackup) : option error :=
  if forallb (fun ns => bool_decide (ns = mNamespace (nObjectMeta nab)))
       (sIncludedNamespaces (nsBackupSpec (nSpec nab)))
  then None
  else Some (ErrorString "spec.backupSpec.IncludedNamespaces can not contain other namespaces").

Definition r : NonAdminBackupReconciler := mkReconciler "openshift-adp".

Definition meta (namespace name : string) : ObjectMeta :=
  mkObjectMeta name namespace 1 ∅ ∅.

Definition spec (included : list string) : NonAdminBackupSpec :=
  mkNonAdminBackupSpec (mkBackupSpec included [] [] [] "default" (Some true)).

Definition emptyStatus : NonAdminBackupStatus := mkNonAdminBackupStatus None "" [].

(** A request as the tenant creates it. *)
Definition fresh (namespace name : string) (included : list string) : NonAdminBackup :=
  mkNonAdminBackup (meta namespace name) (spec included) emptyStatus.

Definition cluster (nabs : list NonAdminBackup) (backups : list Backup) : Cluster :=
  mkCluster (list_to_map (map (fun n => (nab_key n, n)) nabs))
            (list_to_map (map (fun b => (backup_key b, b)) backups)).

(** The API answers every call. *)
Definition calm (t : Time) : Env := mkEnv t None None None None.

Definition conflict : error := StatusError ReasonConflict "the object has been modified".

(** The controller with these helpers. *)
Definition validate : reconcileStepFunction := validateSpec ValidateBackupSpec.

Definition sync : reconcileStepFunction :=
  syncVeleroBackupWithNonAdminBackup GenerateVeleroBackupName GetNonAdminLabels
    GetNonAdminBackupAnnotations r.

Definition steps : list reconcileStepFunction :=
  reconcileSteps GenerateVeleroBackupName GetNonAdminLabels
    GetNonAdminBackupAnnotations ValidateBackupSpec r.

Definition reconcile : Env → Cluster → ObjectKey → ReconcileResult :=
  Reconcile GenerateVeleroBackupName GetNonAdminLabels
    GetNonAdminBackupAnnotations ValidateBackupSpec r.

(** A request of tenant-a that lists two namespaces of other tenants, and
    one that lists its own namespace only. *)
Definition greedy : NonAdminBackup :=
  fresh "tenant-a" "backup-1" ["tenant-a"; "tenant-b"; "tenant-c"].

Definition modest : NonAdminBackup := fresh "tenant-a" "backup-1" ["tenant-a"].

Definition accepted : Condition :=
  mkCondition "Accepted" ConditionTrue 0 3 "BackupAccepted" "backup accepted".

Definition queued : Condition :=
  mkCondition "Queued" ConditionTrue 0 5 "BackupScheduled" "Created Velero Backup object".

(** The modest request after initialisation and validation. *)
Definition validated : NonAdminBackup :=
  set_status modest (mkNonAdminBackupStatus None "New" [accepted]).

(** The modest request once it records its Velero Backup, with the snapshot
    of the Backup's status it holds. *)
Definition recorded (snapshot : option BackupStatus) : NonAdminBackup :=
  set_status modest
    (mkNonAdminBackupStatus
       (Some (mkVeleroBackup snapshot "nab-tenant-a-backup-1" "openshift-adp"))
       "Created" [accepted; queued]).

(** The Velero Backup of the modest request, with a status. *)
Definition backup (status : BackupStatus) : Backup :=
  mkBackup
    (mkObjectMeta "nab-tenant-a-backup-1" "openshift-adp" 1 GetNonAdminLabels
       (GetNonAdminBackupAnnotations (nObjectMeta modest)))
    (mkBackupSpec ["tenant-a"] [] [] [] "default" (Some true))
    status.

Definition inProgress : BackupStatus := mkBackupStatus 1 "InProgress" [] (Some 10) None 0 0.

Definition completed : BackupStatus :=
  mkBackupStatus 1 "Completed" [] (Some 10) (Some 20) 0 0.

End Example.

(** * Properties *)

(** ** The phase helper *)

Lemma updateNonAdminPhase_empty (phase : NonAdminBackupPhase) :
  updateNonAdminPhase phase constant_EmptyString = (phase, false).
Proof. unfold updateNonAdminPhase. by rewrite decide_True. Qed.

Lemma updateNonAdminPhase_changed (phase newPhase : NonAdminBackupPhase) :
  (updateNonAdminPhase phase newPhase).2 = true ↔
  (updateNonAdminPhase phase newPhase).1 ≠ phase.
Proof.
  unfold updateNonAdminPhase.
  destruct (decide (newPhase = constant_EmptyString)) as [He|He]; simpl.
  - split; [discriminate | congruence].
  - destruct (decide (phase = newPhase)) as [Hp|Hp]; simpl.
    + split; [discriminate | congruence].
    + split; [congruence | reflexivity].
Qed.

Lemma updateNonAdminPhase_result (phase newPhase : NonAdminBackupPhase) :
  newPhase ≠ constant_EmptyString →
  (updateNonAdminPhase phase newPhase).1 = newPhase.
Proof.
  intros He. unfold updateNonAdminPhase.
  rewrite decide_False by done.
  destruct (decide (phase = newPhase)); simpl; congruence.
Qed.

Lemma updateNonAdminPhase_nonempty (phase newPhase : NonAdminBackupPhase) :
  phase ≠ constant_EmptyString →
  (updateNonAdminPhase phase newPhase).1 ≠ constant_EmptyString.
Proof.
  intros Hp. unfold updateNonAdminPhase.
  destruct (decide (newPhase = constant_EmptyString)); simpl; [done|].
  destruct (decide (phase = newPhase)); simpl; done.
Qed.

(** ** Conditions *)

Lemma FindStatusCondition_type cs t c :
  FindStatusCondition cs t = Some c → cType c = t.
Proof.
  induction cs as [|c0 cs IH]; simpl; [discriminate|].
  case_decide; [intros [= <-]; done | exact IH].
Qed.

Lemma FindStatusCondition_store cs t c c' :
  FindStatusCondition cs t = Some c → cType c' = t →
  FindStatusCondition (storeCondition cs t c') t = Some c'.
Proof.
  intros Hf Ht. induction cs as [|c0 cs IH]; simpl in *; [discriminate|].
  case_decide; simpl.
  - by rewrite decide_True.
  - rewrite decide_False by done. by apply IH.
Qed.

Lemma FindStatusCondition_append cs t c :
  FindStatusCondition cs t = None → cType c = t →
  FindStatusCondition (cs ++ [c]) t = Some c.
Proof.
  intros Hf Ht. induction cs as [|c0 cs IH]; simpl in *.
  - by rewrite decide_True.
  - case_decide; [discriminate | by apply IH].
Qed.

Lemma storeCondition_same cs t c :
  FindStatusCondition cs t = Some c → storeCondition cs t c = cs.
Proof.
  induction cs as [|c0 cs IH]; simpl; [done|].
  case_decide; [intros [= ->]; done | intros Hf; f_equal; by apply IH].
Qed.

(** The condition of the new condition's type, after the call, carries the
    new status, reason, message and observed generation. *)
Lemma SetStatusCondition_found t cs nc :
  ∃ c, FindStatusCondition (SetStatusCondition t cs nc).1 (cType nc) = Some c ∧
       cStatus c = cStatus nc ∧ cReason c = cReason nc ∧
       cMessage c = cMessage nc ∧ cObservedGeneration c = cObservedGeneration nc.
Proof.
  unfold SetStatusCondition.
  destruct (FindStatusCondition cs (cType nc)) as [e|] eqn:Hf.
  - pose proof (FindStatusCondition_type _ _ _ Hf) as Ht.
    repeat case_decide; simpl;
      (eexists; split;
       [eapply FindStatusCondition_store; [exact Hf | simpl; exact Ht]
       | simpl in *; repeat split; congruence]).
  - simpl. eexists. split.
    + apply FindStatusCondition_append; [exact Hf|].
      destruct (Time_IsZero _); reflexivity.
    + destruct (Time_IsZero _); simpl; done.
Qed.

(** The call reports no change exactly when the list already holds a
    condition of that type with these four fields; the list is then left
    as it is. *)
Lemma SetStatusCondition_unchanged t cs nc :
  (SetStatusCondition t cs nc).2 = false ↔
  ∃ c, FindStatusCondition cs (cType nc) = Some c ∧
       cStatus c = cStatus nc ∧ cReason c = cReason nc ∧
       cMessage c = cMessage nc ∧ cObservedGeneration c = cObservedGeneration nc.
Proof.
  unfold SetStatusCondition.
  destruct (FindStatusCondition cs (cType nc)) as [e|] eqn:Hf.
  - split.
    + intros H. exists e. split; [done|].
      repeat case_decide; simpl in *; try discriminate; done.
    + intros (c & [= <-] & Hs & Hr & Hm & Ho).
      rewrite !decide_True by done. reflexivity.
  - simpl. split; [discriminate|]. intros (c & Hc & _). discriminate.
Qed.

Lemma SetStatusCondition_keeps t cs nc :
  (SetStatusCondition t cs nc).2 = false → (SetStatusCondition t cs nc).1 = cs.
Proof.
  intros H. pose proof H as H'.
  apply SetStatusCondition_unchanged in H' as (c & Hf & Hs & Hr & Hm & Ho).
  unfold SetStatusCondition. rewrite Hf.
  rewrite !decide_True by done. simpl. by apply storeCondition_same.
Qed.

Lemma set_status_eta nab : set_status nab (nStatus nab) = nab.
Proof. by destruct nab. Qed.

Lemma set_conditions_eta st : set_conditions st (stConditions st) = st.
Proof. by destruct st. Qed.

(** ** What a status update stores *)

Lemma Status_Update_ok env cl nab cl' :
  Status_Update env cl nab = (cl', None) →
  updateError env = None ∧
  ∃ stored, nonAdminBackups cl !! nab_key nab = Some stored ∧
    cl' = mkCluster (<[nab_key nab := set_status stored (nStatus nab)]> (nonAdminBackups cl))
            (veleroBackups cl).
Proof.
  unfold Status_Update. intros H.
  destruct (updateError env); [discriminate|].
  destruct (nonAdminBackups cl !! nab_key nab) as [stored|] eqn:Hs; [|discriminate].
  injection H as <-. eauto.
Qed.

Lemma Status_Update_error env cl nab cl' e :
  Status_Update env cl nab = (cl', Some e) → cl' = cl.
Proof.
  unfold Status_Update. intros H.
  repeat case_match; congruence.
Qed.

Lemma Status_Update_veleroBackups env cl nab :
  veleroBackups (Status_Update env cl nab).1 = veleroBackups cl.
Proof. unfold Status_Update. repeat case_match; done. Qed.

Lemma Status_Update_present env cl nab stored :
  updateError env = None →
  nonAdminBackups cl !! nab_key nab = Some stored →
  Status_Update env cl nab =
    (mkCluster (<[nab_key nab := set_status stored (nStatus nab)]> (nonAdminBackups cl))
       (veleroBackups cl), None).
Proof. intros He Hs. unfold Status_Update. by rewrite He, Hs. Qed.

Section Properties.

Context (GenerateVeleroBackupName : string → string → string)
        (GetNonAdminLabels : gmap string string)
        (GetNonAdminBackupAnnotations : ObjectMeta → gmap string string)
        (ValidateBackupSpec : NonAdminBackup → option error)
        (r : NonAdminBackupReconciler).

Abbreviation validate := (validateSpec ValidateBackupSpec).
Abbreviation sync :=
  (syncVeleroBackupWithNonAdminBackup GenerateVeleroBackupName GetNonAdminLabels
     GetNonAdminBackupAnnotations r).
Abbreviation build :=
  (newVeleroBackup GetNonAdminLabels GetNonAdminBackupAnnotations r).
Abbreviation steps :=
  (reconcileSteps GenerateVeleroBackupName GetNonAdminLabels
     GetNonAdminBackupAnnotations ValidateBackupSpec r).
Abbreviation reconcile :=
  (Reconcile GenerateVeleroBackupName GetNonAdminLabels
     GetNonAdminBackupAnnotations ValidateBackupSpec r).

(** *** The phase through the steps *)

Lemma init_phase env cl nab :
  stPhase (nStatus (srNab (init env cl nab))) =
  if decide (stPhase (nStatus nab) = constant_EmptyString)
  then NonAdminBackupPhaseNew else stPhase (nStatus nab).
Proof.
  unfold init. destruct (decide _) as [He|He]; [|done].
  rewrite He. simpl. by destruct (Status_Update _ _ _) as [? [?|]].
Qed.

Lemma validateSpec_phase env cl nab :
  stPhase (nStatus (srNab (validate env cl nab))) =
  match ValidateBackupSpec nab with
  | Some _ => NonAdminBackupPhaseBackingOff
  | None => stPhase (nStatus nab)
  end.
Proof.
  unfold validateSpec. destruct (ValidateBackupSpec nab) as [err|].
  - pose proof (updateNonAdminPhase_result (stPhase (nStatus nab))
                  NonAdminBackupPhaseBackingOff ltac:(done)) as Hp.
    destruct (updateNonAdminPhase _ _) as [p u]. simpl in Hp. subst p.
    repeat case_match; done.
  - repeat case_match; done.
Qed.

Lemma syncStatus_phase env cl ws nab b :
  stPhase (nStatus (srNab (syncStatus env cl ws nab b))) = NonAdminBackupPhaseCreated.
Proof.
  unfold syncStatus.
  pose proof (updateNonAdminPhase_result (stPhase (nStatus nab))
                NonAdminBackupPhaseCreated ltac:(done)) as Hp.
  destruct (updateNonAdminPhase _ _) as [p u]. simpl in Hp. subst p.
  unfold updateNonAdminBackupVeleroBackupReference, updateNonAdminBackupVeleroBackupStatus.
  repeat case_match; simplify_eq/=; done.
Qed.

Lemma sync_phase env cl nab :
  stPhase (nStatus (srNab (sync env cl nab))) = stPhase (nStatus nab) ∨
  stPhase (nStatus (srNab (sync env cl nab))) = NonAdminBackupPhaseCreated.
Proof.
  unfold syncVeleroBackupWithNonAdminBackup.
  repeat case_match; simpl; auto using syncStatus_phase.
Qed.

(** *** What the steps store *)

(** A step leaves the stored requests alone, or replaces the status of the
    stored request of its key by the status it left in memory. *)
Definition stores_status (cl : Cluster) (nab : NonAdminBackup) (sr : StepResult) : Prop :=
  nonAdminBackups (srCluster sr) = nonAdminBackups cl ∨
  ∃ stored, nonAdminBackups cl !! nab_key nab = Some stored ∧
    nonAdminBackups (srCluster sr) =
      <[nab_key nab := set_status stored (nStatus (srNab sr))]> (nonAdminBackups cl).

Lemma Create_Backup_nonAdminBackups env cl b :
  nonAdminBackups (Create_Backup env cl b).1 = nonAdminBackups cl.
Proof. unfold Create_Backup. repeat case_match; done. Qed.

Lemma Status_Update_stores env cl nab0 nab cl' o ws rq e :
  Status_Update env cl nab = (cl', o) →
  nab_key nab = nab_key nab0 →
  stores_status cl nab0 (mkStepResult nab cl' ws rq e).
Proof.
  intros HU Hk. destruct o as [err|].
  - apply Status_Update_error in HU as ->. by left.
  - apply Status_Update_ok in HU as (_ & stored & Hs & ->).
    right. exists stored. simpl. rewrite <- Hk. done.
Qed.

Ltac with_update :=
  match goal with
  | H : Status_Update _ _ _ = _ |- stores_status _ _ _ =>
      by apply (Status_Update_stores _ _ _ _ _ _ _ _ _ H)
  | |- stores_status _ _ _ => by left
  end.

Lemma init_stores env cl nab : stores_status cl nab (init env cl nab).
Proof. unfold init. repeat case_match; with_update. Qed.

Lemma validateSpec_stores env cl nab : stores_status cl nab (validate env cl nab).
Proof. unfold validateSpec. repeat case_match; with_update. Qed.

Lemma syncStatus_stores env cl ws nab b :
  stores_status cl nab (syncStatus env cl ws nab b).
Proof. unfold syncStatus. repeat case_match; with_update. Qed.

Lemma sync_stores env cl nab : stores_status cl nab (sync env cl nab).
Proof.
  unfold syncVeleroBackupWithNonAdminBackup.
  repeat case_match; try with_update; try apply syncStatus_stores.
  all: match goal with H : Create_Backup ?e ?c ?b = _ |- _ =>
    pose proof (Create_Backup_nonAdminBackups e c b) as Hc; rewrite H in Hc end.
  all: simpl in Hc.
  - by left.
  - match goal with |- stores_status _ _ (syncStatus ?e ?c ?w ?n ?b) =>
      pose proof (syncStatus_stores e c w n b) as Hs end.
    unfold stores_status in *. by rewrite <- Hc.
Qed.

(** The steps leave the Velero Backups alone, but for the one [Create]. *)
Lemma syncStatus_veleroBackups env cl ws nab b :
  veleroBackups (srCluster (syncStatus env cl ws nab b)) = veleroBackups cl.
Proof.
  unfold syncStatus.
  repeat case_match; simpl; try done;
    match goal with H : Status_Update ?e ?c ?n = _ |- _ =>
      pose proof (Status_Update_veleroBackups e c n) as Hv; by rewrite H in Hv end.
Qed.

Lemma init_veleroBackups env cl nab :
  veleroBackups (srCluster (init env cl nab)) = veleroBackups cl.
Proof.
  unfold init.
  repeat case_match; simpl; try done;
    match goal with H : Status_Update ?e ?c ?n = _ |- _ =>
      pose proof (Status_Update_veleroBackups e c n) as Hv; by rewrite H in Hv end.
Qed.

Lemma validateSpec_veleroBackups env cl nab :
  veleroBackups (srCluster (validate env cl nab)) = veleroBackups cl.
Proof.
  unfold validateSpec.
  repeat case_match; simpl; try done;
    match goal with H : Status_Update ?e ?c ?n = _ |- _ =>
      pose proof (Status_Update_veleroBackups e c n) as Hv; by rewrite H in Hv end.
Qed.

(** *** Non-empty phases stay non-empty *)

Definition phase_safe (m m' : gmap ObjectKey NonAdminBackup) : Prop :=
  ∀ k n, m !! k = Some n →
    ∃ n', m' !! k = Some n' ∧ (n' = n ∨ stPhase (nStatus n') ≠ constant_EmptyString).

Lemma phase_safe_refl m : phase_safe m m.
Proof. intros k n Hk. eauto. Qed.

Lemma phase_safe_trans m1 m2 m3 :
  phase_safe m1 m2 → phase_safe m2 m3 → phase_safe m1 m3.
Proof.
  intros H12 H23 k n Hk.
  destruct (H12 k n Hk) as (n2 & Hk2 & Hn2).
  destruct (H23 k n2 Hk2) as (n3 & Hk3 & Hn3).
  exists n3. split; [done|]. destruct Hn3 as [->|?]; auto.
Qed.

Lemma stores_status_phase_safe cl nab sr :
  stores_status cl nab sr →
  stPhase (nStatus (srNab sr)) ≠ constant_EmptyString →
  phase_safe (nonAdminBackups cl) (nonAdminBackups (srCluster sr)).
Proof.
  intros [->|(stored & Hs & ->)] Hp; [apply phase_safe_refl|].
  intros k n Hk. destruct (decide (nab_key nab = k)) as [<-|Hne].
  - rewrite lookup_insert_eq. eexists. split; [done|]. by right.
  - rewrite lookup_insert_ne by done. eauto.
Qed.

Definition keeps_phase (step : reconcileStepFunction) : Prop :=
  ∀ env cl nab, stPhase (nStatus nab) ≠ constant_EmptyString →
    stPhase (nStatus (srNab (step env cl nab))) ≠ constant_EmptyString.

Lemma init_keeps_phase : keeps_phase init.
Proof. intros env cl nab Hp. rewrite init_phase. by rewrite decide_False. Qed.

Lemma validateSpec_keeps_phase : keeps_phase validate.
Proof. intros env cl nab Hp. rewrite validateSpec_phase. by case_match. Qed.

Lemma sync_keeps_phase : keeps_phase sync.
Proof. intros env cl nab Hp. destruct (sync_phase env cl nab) as [-> | ->]; done. Qed.

Lemma steps_keep_phase step : step ∈ steps → keeps_phase step.
Proof.
  unfold reconcileSteps. rewrite !elem_of_cons, elem_of_nil.
  intros [-> | [-> | [-> | []]]];
    auto using init_keeps_phase, validateSpec_keeps_phase, sync_keeps_phase.
Qed.

Lemma steps_store step env cl nab :
  step ∈ steps → stores_status cl nab (step env cl nab).
Proof.
  unfold reconcileSteps. rewrite !elem_of_cons, elem_of_nil.
  intros [-> | [-> | [-> | []]]];
    auto using init_stores, validateSpec_stores, sync_stores.
Qed.

Lemma runSteps_phase_safe (l : list reconcileStepFunction) env cl ws nab :
  (∀ step, step ∈ l → step ∈ steps) →
  stPhase (nStatus nab) ≠ constant_EmptyString →
  phase_safe (nonAdminBackups cl) (nonAdminBackups (rrCluster (runSteps l env cl ws nab))).
Proof.
  revert cl ws nab. induction l as [|step l IH]; intros cl ws nab Hl Hp; simpl.
  - apply phase_safe_refl.
  - assert (step ∈ steps) as Hs by (apply Hl; left).
    pose proof (steps_keep_phase step Hs env cl nab Hp) as Hp'.
    pose proof (stores_status_phase_safe _ _ _ (steps_store step env cl nab Hs) Hp') as Hsafe.
    destruct (srError (step env cl nab)); [exact Hsafe|].
    destruct (srRequeue (step env cl nab)); [exact Hsafe|].
    eapply phase_safe_trans; [exact Hsafe|].
    apply IH; [|done]. intros s' Hs'. apply Hl. by right.
Qed.

Lemma Reconcile_phase_safe env cl req :
  phase_safe (nonAdminBackups cl) (nonAdminBackups (rrCluster (reconcile env cl req))).
Proof.
  unfold Reconcile. destruct (Get_NonAdminBackup env cl req) as [err|nab].
  - destruct (IsNotFound err); apply phase_safe_refl.
  - unfold reconcileSteps. cbn [runSteps].
    assert (stPhase (nStatus (srNab (init env cl nab))) ≠ constant_EmptyString) as Hp.
    { rewrite init_phase. by case_decide. }
    pose proof (stores_status_phase_safe _ _ _ (init_stores env cl nab) Hp) as Hsafe.
    destruct (srError (init env cl nab)); [exact Hsafe|].
    destruct (srRequeue (init env cl nab)); [exact Hsafe|].
    eapply phase_safe_trans; [exact Hsafe|].
    apply (runSteps_phase_safe [validate; sync]); [|done].
    intros s'. unfold reconcileSteps. rewrite !elem_of_cons. tauto.
Qed.

(** *** The phase helper never empties a phase *)

(** C10: [updateNonAdminPhase] called with the empty string as new phase
    leaves the stored phase as it is and returns false; it returns true
    exactly when it changed the stored phase; and so a non-empty phase is
    never made empty again: not by the helper, not by a reconcile step on
    the object in memory, not by [Reconcile] on a stored object. *)
Theorem updateNonAdminPhase_never_empties (phase newPhase : NonAdminBackupPhase) :
  (newPhase = constant_EmptyString →
     updateNonAdminPhase phase newPhase = (phase, false)) ∧
  ((updateNonAdminPhase phase newPhase).2 = true ↔
     (updateNonAdminPhase phase newPhase).1 ≠ phase) ∧
  (phase ≠ constant_EmptyString →
     (updateNonAdminPhase phase newPhase).1 ≠ constant_EmptyString) ∧
  (∀ step env cl nab, step ∈ steps →
     stPhase (nStatus nab) = phase → phase ≠ constant_EmptyString →
     stPhase (nStatus (srNab (step env cl nab))) ≠ constant_EmptyString) ∧
  (∀ env cl req k n,
     nonAdminBackups cl !! k = Some n →
     stPhase (nStatus n) = phase → phase ≠ constant_EmptyString →
     ∃ n', nonAdminBackups (rrCluster (reconcile env cl req)) !! k = Some n' ∧
           stPhase (nStatus n') ≠ constant_EmptyString).
Proof.
  split; [intros ->; apply updateNonAdminPhase_empty|].
  split; [apply updateNonAdminPhase_changed|].
  split; [apply updateNonAdminPhase_nonempty|].
  split.
  - intros step env cl nab Hs <- Hp. by apply steps_keep_phase.
  - intros env cl req k n Hk <- Hp.
    destruct (Reconcile_phase_safe env cl req k n Hk) as (n' & Hk' & [-> | Hn']); eauto.
Qed.

(** *** The scope of the created Velero Backup *)

Lemma syncStatus_writes env cl ws nab b :
  srWrites (syncStatus env cl ws nab b) = ws ∨
  srWrites (syncStatus env cl ws nab b) =
    (ws ++ [WriteStatusUpdate (srNab (syncStatus env cl ws nab b))])%list.
Proof. unfold syncStatus. repeat case_match; simpl; auto. Qed.

Lemma Create_Backup_ok env cl b cl' :
  Create_Backup env cl b = (cl', None) →
  createError env = None ∧ veleroBackups cl !! backup_key b = None ∧
  cl' = mkCluster (nonAdminBackups cl) (<[backup_key b := b]> (veleroBackups cl)).
Proof.
  unfold Create_Backup. intros H.
  destruct (createError env); [discriminate|].
  destruct (veleroBackups cl !! backup_key b) eqn:Hb; [discriminate|].
  by injection H as <-.
Qed.

(** What [syncVeleroBackupWithNonAdminBackup] creates, if it creates: the
    Backup it built, stored under the generated name. *)
Lemma sync_created env cl nab b :
  WriteCreate b ∈ srWrites (sync env cl nab) →
  let name := GenerateVeleroBackupName (mNamespace (nObjectMeta nab))
                (mName (nObjectMeta nab)) in
  b = build name nab ∧
  veleroBackups cl !! (OADPNamespace r, name) = None ∧
  veleroBackups (srCluster (sync env cl nab)) = <[(OADPNamespace r, name) := b]> (veleroBackups cl).
Proof.
  unfold syncVeleroBackupWithNonAdminBackup. intros H. simpl.
  destruct (decide _) as [|Hname]; [by apply elem_of_nil in H|].
  destruct (Get_Backup _ _ _) as [err|found].
  - destruct (negb (IsNotFound err)); [by apply elem_of_nil in H|].
    destruct (Create_Backup _ _ _) as [cl' [e|]] eqn:HC; [by apply elem_of_nil in H|].
    apply Create_Backup_ok in HC as (_ & Hnone & ->).
    rewrite syncStatus_veleroBackups. simpl.
    destruct (syncStatus_writes env
                {| nonAdminBackups := nonAdminBackups cl;
                   veleroBackups := <[backup_key (build (GenerateVeleroBackupName
                      (mNamespace (nObjectMeta nab)) (mName (nObjectMeta nab))) nab) :=
                      build (GenerateVeleroBackupName
                      (mNamespace (nObjectMeta nab)) (mName (nObjectMeta nab))) nab]>
                      (veleroBackups cl) |}
                [WriteCreate (build (GenerateVeleroBackupName
                      (mNamespace (nObjectMeta nab)) (mName (nObjectMeta nab))) nab)]
                nab (build (GenerateVeleroBackupName
                      (mNamespace (nObjectMeta nab)) (mName (nObjectMeta nab))) nab))
      as [Hw|Hw]; rewrite Hw in H.
    + apply list_elem_of_singleton in H as [= ->]. done.
    + rewrite elem_of_app, !list_elem_of_singleton in H.
      destruct H as [[= ->]|[=]]. done.
  - destruct (syncStatus_writes env cl [] nab found) as [Hw|Hw]; rewrite Hw in H.
    + by apply elem_of_nil in H.
    + rewrite app_nil_l in H. by apply list_elem_of_singleton in H.
Qed.

(** C1: when [syncVeleroBackupWithNonAdminBackup] creates the Velero
    Backup, the included namespaces of the created object's spec are
    exactly the request's own namespace, whatever the request's backup spec
    listed; the created object is the one stored in the cluster. *)
Theorem created_backup_scope env cl nab b :
  WriteCreate b ∈ srWrites (sync env cl nab) →
  sIncludedNamespaces (bSpec b) = [mNamespace (nObjectMeta nab)] ∧
  veleroBackups (srCluster (sync env cl nab)) !! backup_key b = Some b.
Proof.
  intros H. apply sync_created in H as (-> & _ & ->).
  split; [reflexivity|]. simpl. unfold backup_key. simpl. apply lookup_insert_eq.
Qed.

(** *** Initialisation *)

Lemma init_empty env cl nab stored :
  stPhase (nStatus nab) = constant_EmptyString →
  updateError env = None →
  nonAdminBackups cl !! nab_key nab = Some stored →
  let initialized := set_status nab (set_phase (nStatus nab) NonAdminBackupPhaseNew) in
  init env cl nab =
    mkStepResult initialized
      (mkCluster (<[nab_key nab := set_status stored (nStatus initialized)]>
                    (nonAdminBackups cl)) (veleroBackups cl))
      [WriteStatusUpdate initialized] true None.
Proof.
  intros Hp He Hs. unfold init. rewrite decide_True by done.
  rewrite Hp. simpl.
  by rewrite (Status_Update_present env cl
                (set_status nab (set_phase (nStatus nab) NonAdminBackupPhaseNew))
                stored He Hs).
Qed.

Lemma init_set env cl nab :
  stPhase (nStatus nab) ≠ constant_EmptyString →
  init env cl nab = mkStepResult nab cl [] false None.
Proof. intros Hp. unfold init. by rewrite decide_False. Qed.

(** C8: on a request whose phase is empty, [init] sets the phase to New,
    persists the status (the API accepting the write) and signals requeue;
    on a request whose phase is set it changes nothing, writes nothing and
    signals neither requeue nor error.  Hence a pass that ends without
    error leaves a non-empty phase: in memory after [init], and in the
    cluster after a [Reconcile] that found the request. *)
Theorem init_sets_phase_New env cl nab :
  (∀ stored,
     stPhase (nStatus nab) = constant_EmptyString →
     updateError env = None →
     nonAdminBackups cl !! nab_key nab = Some stored →
     let initialized := set_status nab (set_phase (nStatus nab) NonAdminBackupPhaseNew) in
     init env cl nab =
       mkStepResult initialized
         (mkCluster (<[nab_key nab := set_status stored (nStatus initialized)]>
                       (nonAdminBackups cl)) (veleroBackups cl))
         [WriteStatusUpdate initialized] true None) ∧
  (stPhase (nStatus nab) ≠ constant_EmptyString →
     init env cl nab = mkStepResult nab cl [] false None) ∧
  stPhase (nStatus (srNab (init env cl nab))) ≠ constant_EmptyString ∧
  (getNonAdminBackupError env = None →
   nonAdminBackups cl !! nab_key nab = Some nab →
   rrError (reconcile env cl (nab_key nab)) = None →
   ∃ n', nonAdminBackups (rrCluster (reconcile env cl (nab_key nab))) !! nab_key nab = Some n' ∧
         stPhase (nStatus n') ≠ constant_EmptyString).
Proof.
  split; [intros stored; apply init_empty|].
  split; [apply init_set|].
  split; [rewrite init_phase; by case_decide|].
  intros Hg Hs Herr.
  destruct (decide (stPhase (nStatus nab) = constant_EmptyString)) as [Hp|Hp].
  - revert Herr. unfold Reconcile, Get_NonAdminBackup. rewrite Hg, Hs.
    unfold reconcileSteps. cbn [runSteps].
    destruct (updateError env) as [e|] eqn:He.
    + unfold init. rewrite decide_True by done. rewrite Hp. simpl.
      unfold Status_Update. rewrite He. simpl. discriminate.
    + rewrite (init_empty env cl nab nab Hp He Hs). simpl. intros _.
      rewrite lookup_insert_eq. eexists. split; [done|]. done.
  - destruct (Reconcile_phase_safe env cl (nab_key nab) _ _ Hs) as (n' & Hk' & [-> | Hn']);
      eauto.
Qed.

(** *** Validation *)

Lemma SetStatusCondition_changes t cs nc :
  (SetStatusCondition t cs nc).2 = true → (SetStatusCondition t cs nc).1 ≠ cs.
Proof.
  intros Hc Heq.
  destruct (SetStatusCondition_found t cs nc) as (c & Hf & Hfields).
  rewrite Heq in Hf.
  assert ((SetStatusCondition t cs nc).2 = false) as Hno.
  { apply SetStatusCondition_unchanged. eauto. }
  congruence.
Qed.

(** The status [validateSpec] leaves in memory for a rejected request. *)
Definition rejectedStatus (t : Time) (nab : NonAdminBackup) (err : error)
  : NonAdminBackupStatus :=
  set_conditions (set_phase (nStatus nab) NonAdminBackupPhaseBackingOff)
    (SetStatusCondition t (stConditions (nStatus nab)) (acceptedFalse err)).1.

Lemma rejectedStatus_same t nab err :
  rejectedStatus t nab err = nStatus nab ↔
  (updateNonAdminPhase (stPhase (nStatus nab)) NonAdminBackupPhaseBackingOff).2 = false ∧
  (SetStatusCondition t (stConditions (nStatus nab)) (acceptedFalse err)).2 = false.
Proof.
  unfold rejectedStatus. split.
  - intros H.
    pose proof (f_equal stPhase H) as Hp. pose proof (f_equal stConditions H) as Hc.
    simpl in Hp, Hc. split.
    + unfold updateNonAdminPhase. rewrite decide_False by done.
      by rewrite decide_True.
    + destruct (SetStatusCondition t _ _).2 eqn:E; [|done].
      by apply SetStatusCondition_changes in E.
  - intros [Hp Hc]. apply SetStatusCondition_keeps in Hc. rewrite Hc.
    revert Hp. unfold updateNonAdminPhase. rewrite decide_False by done.
    destruct (decide _) as [Heq|]; [|discriminate]. intros _.
    rewrite <- Heq. by destruct (nStatus nab).
Qed.

Lemma validateSpec_invalid_unfold env cl nab err :
  ValidateBackupSpec nab = Some err →
  validate env cl nab =
    let nab' := set_status nab (rejectedStatus (now env) nab err) in
    if bool_decide (rejectedStatus (now env) nab err = nStatus nab)
    then mkStepResult nab' cl [] false (Some (TerminalError err))
    else match Status_Update env cl nab' with
         | (cl', Some updateErr) => mkStepResult nab' cl' [] false (Some updateErr)
         | (cl', None) =>
             mkStepResult nab' cl' [WriteStatusUpdate nab'] false (Some (TerminalError err))
         end.
Proof.
  intros Hv. unfold validateSpec. rewrite Hv.
  pose proof (rejectedStatus_same (now env) nab err) as Hsame.
  unfold rejectedStatus in *.
  pose proof (updateNonAdminPhase_result (stPhase (nStatus nab))
                NonAdminBackupPhaseBackingOff ltac:(done)) as Hp.
  destruct (updateNonAdminPhase _ _) as [p u]. simpl in Hp, Hsame. subst p.
  simpl. destruct (SetStatusCondition _ _ _) as [cs' uc]. simpl in *.
  destruct (u || uc) eqn:E.
  - rewrite bool_decide_eq_false_2; [done|].
    intros H. apply Hsame in H as [-> ->]. discriminate.
  - apply orb_false_elim in E as [-> ->].
    rewrite bool_decide_eq_true_2; [done|]. by apply Hsame.
Qed.

Lemma validateSpec_invalid_error env cl nab err :
  ValidateBackupSpec nab = Some err → is_Some (srError (validate env cl nab)).
Proof.
  intros Hv. rewrite (validateSpec_invalid_unfold env cl nab err Hv). simpl.
  repeat case_match; simpl; eauto.
Qed.

Lemma init_outcome env cl nab :
  init env cl nab = mkStepResult nab cl [] false None ∨
  veleroBackups (srCluster (init env cl nab)) = veleroBackups cl ∧
  (∀ b, WriteCreate b ∉ srWrites (init env cl nab)) ∧
  (is_Some (srError (init env cl nab)) ∨ srRequeue (init env cl nab) = true).
Proof.
  destruct (decide (stPhase (nStatus nab) = constant_EmptyString)) as [Hp|Hp].
  - right. split; [apply init_veleroBackups|].
    unfold init. rewrite decide_True by done. rewrite Hp. simpl.
    destruct (Status_Update _ _ _) as [cl' [e|]]; simpl.
    + split; [intros b Hb; by apply elem_of_nil in Hb | left; eauto].
    + split; [|by right]. intros b Hb. by apply list_elem_of_singleton in Hb.
  - left. by apply init_set.
Qed.

(** C4: for a request whose spec fails validation, [validateSpec] sets the
    phase to BackingOff and the Accepted condition to False, with reason
    [InvalidBackupSpec] and the validation error as message; it writes the
    status when, and only when, the status changed; it never signals
    requeue and always returns an error, which is the terminal error around
    the validation error once the write, if any, was accepted; and no
    Velero Backup is created: not by the step, and not by a [Reconcile]
    that loads this request. *)
Theorem validateSpec_invalid env cl nab err :
  ValidateBackupSpec nab = Some err →
  let sr := validate env cl nab in
  stPhase (nStatus (srNab sr)) = NonAdminBackupPhaseBackingOff ∧
  (∃ c, FindStatusCondition (stConditions (nStatus (srNab sr))) NonAdminConditionAccepted
          = Some c ∧
        cStatus c = ConditionFalse ∧ cReason c = "InvalidBackupSpec" ∧
        cMessage c = error_Error err) ∧
  (nStatus (srNab sr) = nStatus nab →
     srWrites sr = [] ∧ srCluster sr = cl ∧ srError sr = Some (TerminalError err)) ∧
  (nStatus (srNab sr) ≠ nStatus nab →
     ∀ stored, updateError env = None →
       nonAdminBackups cl !! nab_key nab = Some stored →
       srWrites sr = [WriteStatusUpdate (srNab sr)] ∧
       srCluster sr =
         mkCluster (<[nab_key nab := set_status stored (nStatus (srNab sr))]>
                      (nonAdminBackups cl)) (veleroBackups cl) ∧
       srError sr = Some (TerminalError err)) ∧
  srRequeue sr = false ∧
  is_Some (srError sr) ∧
  veleroBackups (srCluster sr) = veleroBackups cl ∧
  (∀ req, nonAdminBackups cl !! req = Some nab →
     getNonAdminBackupError env = None →
     let rr := reconcile env cl req in
     veleroBackups (rrCluster rr) = veleroBackups cl ∧
     (∀ b, WriteCreate b ∉ rrWrites rr) ∧
     (is_Some (rrError rr) ∨ Requeue (rrResult rr) = true)).
Proof.
  intros Hv sr.
  assert (srNab sr = set_status nab (rejectedStatus (now env) nab err)) as Hnab.
  { unfold sr. rewrite (validateSpec_invalid_unfold env cl nab err Hv). simpl.
    repeat case_match; done. }
  split; [unfold sr; by rewrite validateSpec_phase, Hv|].
  split.
  { rewrite Hnab. simpl.
    destruct (SetStatusCondition_found (now env) (stConditions (nStatus nab))
                (acceptedFalse err)) as (c & Hf & Hs & Hr & Hm & _).
    exists c. done. }
  split.
  { rewrite Hnab. simpl. intros Hsame. unfold sr.
    rewrite (validateSpec_invalid_unfold env cl nab err Hv). simpl.
    by rewrite bool_decide_eq_true_2. }
  split.
  { rewrite Hnab. simpl. intros Hdiff stored He Hs. unfold sr.
    rewrite (validateSpec_invalid_unfold env cl nab err Hv). simpl.
    rewrite bool_decide_eq_false_2 by done.
    by rewrite (Status_Update_present env cl
                  (set_status nab (rejectedStatus (now env) nab err)) stored He Hs). }
  split.
  { unfold sr. rewrite (validateSpec_invalid_unfold env cl nab err Hv). simpl.
    repeat case_match; done. }
  split; [by apply (validateSpec_invalid_error env cl nab err)|].
  split; [apply validateSpec_veleroBackups|].
  intros req Hreq Hg rr. unfold rr, Reconcile, Get_NonAdminBackup.
  rewrite Hg, Hreq. unfold reconcileSteps. cbn [runSteps].
  destruct (init_outcome env cl nab) as [-> | (Hvb & Hw & Hout)].
  - simpl. fold sr.
    assert (is_Some (srError sr)) as [e He]
      by by apply (validateSpec_invalid_error env cl nab err).
    rewrite He. simpl. split; [apply validateSpec_veleroBackups|].
    split; [|left; eauto].
    intros b Hb. unfold sr in Hb.
    rewrite (validateSpec_invalid_unfold env cl nab err Hv) in Hb. simpl in Hb.
    repeat case_match; simpl in Hb;
      (by apply elem_of_nil in Hb) || (by apply list_elem_of_singleton in Hb).
  - destruct Hout as [[e He] | Hrq].
    + rewrite He. simpl. split; [done|]. split; [done|]. left; eauto.
    + destruct (srError (init env cl nab)) as [e|]; simpl.
      * split; [done|]. split; [done|]. left; eauto.
      * rewrite Hrq. simpl. split; [done|]. split; [done|]. by right.
Qed.

(** *** Synchronisation: the two comparisons *)

Lemma BackupStatus_DeepCopy_eq s : BackupStatus_DeepCopy s = s.
Proof. by destruct s. Qed.

Lemma BackupSpec_DeepCopy_eq s : BackupSpec_DeepCopy s = s.
Proof. by destruct s. Qed.

(** The status after the phase, condition and reference updates of
    [syncVeleroBackupWithNonAdminBackup]. *)
Definition bookkeptStatus (t : Time) (nab : NonAdminBackup) (b : Backup)
  : NonAdminBackupStatus :=
  (updateNonAdminBackupVeleroBackupReference
     (set_conditions (set_phase (nStatus nab) NonAdminBackupPhaseCreated)
        (SetStatusCondition t (stConditions (nStatus nab)) queuedTrue).1) b).1.

(** The status after the snapshot update. *)
Definition snapshotStatus (nab : NonAdminBackup) (b : Backup) : NonAdminBackupStatus :=
  (updateNonAdminBackupVeleroBackupStatus (nStatus nab) b).1.

(** The request records the Backup [b]: phase Created, the Queued
    condition as the controller writes it, the reference naming [b]. *)
Definition bookkeepingComplete (st : NonAdminBackupStatus) (b : Backup) : Prop :=
  stPhase st = NonAdminBackupPhaseCreated ∧
  (∃ c, FindStatusCondition (stConditions st) NonAdminConditionQueued = Some c ∧
        cStatus c = ConditionTrue ∧ cReason c = "BackupScheduled" ∧
        cMessage c = "Created Velero Backup object" ∧ cObservedGeneration c = 0) ∧
  (∃ v, stVeleroBackup st = Some v ∧ vName v = mName (bObjectMeta b) ∧
        vNamespace v = mNamespace (bObjectMeta b)).

Lemma updateReference_changed st b :
  (updateNonAdminBackupVeleroBackupReference st b).2 = true ↔
  (updateNonAdminBackupVeleroBackupReference st b).1 ≠ st.
Proof.
  unfold updateNonAdminBackupVeleroBackupReference.
  destruct st as [[v|] p cs]; simpl; [|split; [intros _ [=] | done]].
  destruct (bool_decide (vName v ≠ _)) eqn:E1; simpl.
  - apply bool_decide_eq_true_1 in E1. split; [|done]. intros _ [= H].
    apply E1. by rewrite <- H.
  - destruct (bool_decide (vNamespace v ≠ _)) eqn:E2; simpl.
    + apply bool_decide_eq_true_1 in E2. split; [|done]. intros _ [= H].
      apply E2. by rewrite <- H.
    + split; [discriminate | congruence].
Qed.

Lemma updateReference_unchanged st b :
  (updateNonAdminBackupVeleroBackupReference st b).2 = false ↔
  ∃ v, stVeleroBackup st = Some v ∧ vName v = mName (bObjectMeta b) ∧
       vNamespace v = mNamespace (bObjectMeta b).
Proof.
  unfold updateNonAdminBackupVeleroBackupReference.
  destruct (stVeleroBackup st) as [v|]; simpl.
  - destruct (bool_decide (vName v ≠ _)) eqn:E1; simpl.
    { apply bool_decide_eq_true_1 in E1. split; [discriminate|].
      intros (v' & [= <-] & Hn & _). done. }
    destruct (bool_decide (vNamespace v ≠ _)) eqn:E2; simpl.
    { apply bool_decide_eq_true_1 in E2. split; [discriminate|].
      intros (v' & [= <-] & _ & Hn). done. }
    apply bool_decide_eq_false_1 in E1, E2.
    split; [|done]. intros _. exists v.
    split; [done|]. split.
    + by destruct (decide (vName v = mName (bObjectMeta b))).
    + by destruct (decide (vNamespace v = mNamespace (bObjectMeta b))).
  - split; [discriminate|]. intros (v & [=] & _).
Qed.

Lemma updateReference_fields st b :
  let st' := (updateNonAdminBackupVeleroBackupReference st b).1 in
  stPhase st' = stPhase st ∧ stConditions st' = stConditions st ∧
  ∃ v', stVeleroBackup st' = Some v' ∧ vName v' = mName (bObjectMeta b) ∧
        vNamespace v' = mNamespace (bObjectMeta b) ∧
        vStatus v' = stVeleroBackup st ≫= vStatus.
Proof.
  pose proof (updateReference_unchanged st b) as Hun. revert Hun.
  unfold updateNonAdminBackupVeleroBackupReference.
  destruct (stVeleroBackup st) as [v|] eqn:Hv; simpl.
  - destruct (_ || _); simpl; intros Hun.
    + repeat split. eexists. repeat split.
    + repeat split. destruct Hun as [(v' & [= <-] & Hn & Hns) _]; [done|].
      exists v. by rewrite Hv.
  - intros _. repeat split. eexists. repeat split.
Qed.

(** No bookkeeping update reported a change exactly when the request
    already records the Backup. *)
Lemma bookkeptStatus_same t nab b :
  bookkeptStatus t nab b = nStatus nab ↔ bookkeepingComplete (nStatus nab) b.
Proof.
  unfold bookkeptStatus, bookkeepingComplete.
  set (cs' := (SetStatusCondition t (stConditions (nStatus nab)) queuedTrue).1).
  set (st1 := set_conditions (set_phase (nStatus nab) NonAdminBackupPhaseCreated) cs').
  destruct (updateReference_fields st1 b) as (Hp & Hc & v' & Hv' & Hn & Hns & Hst).
  split.
  - intros Heq. rewrite Heq in Hp, Hc, Hv'. simpl in Hp, Hc.
    split; [done|]. split.
    + apply (SetStatusCondition_unchanged t (stConditions (nStatus nab)) queuedTrue).
      destruct (SetStatusCondition t _ _).2 eqn:E; [|done].
      apply SetStatusCondition_changes in E. by destruct E.
    + exists v'. done.
  - intros (Hph & Hq & Href).
    assert (cs' = stConditions (nStatus nab)) as Hcs.
    { apply SetStatusCondition_keeps, SetStatusCondition_unchanged. exact Hq. }
    assert (st1 = nStatus nab) as Hst1.
    { unfold st1. rewrite Hcs, <- Hph. by destruct (nStatus nab). }
    rewrite Hst1.
    assert ((updateNonAdminBackupVeleroBackupReference (nStatus nab) b).2 = false) as Hun
      by by apply updateReference_unchanged.
    destruct (decide ((updateNonAdminBackupVeleroBackupReference (nStatus nab) b).1
                      = nStatus nab)) as [|Hne]; [done|].
    apply updateReference_changed in Hne. congruence.
Qed.

Lemma bookkeptStatus_flags t nab b :
  let '(phase, updatedPhase) :=
    updateNonAdminPhase (stPhase (nStatus nab)) NonAdminBackupPhaseCreated in
  let status := set_phase (nStatus nab) phase in
  let '(conditions, updatedCondition) :=
    SetStatusCondition t (stConditions status) queuedTrue in
  let status := set_conditions status conditions in
  let '(status, updatedReference) :=
    updateNonAdminBackupVeleroBackupReference status b in
  status = bookkeptStatus t nab b ∧
  (updatedPhase || updatedCondition || updatedReference = false ↔
   bookkeptStatus t nab b = nStatus nab).
Proof.
  unfold bookkeptStatus.
  pose proof (updateNonAdminPhase_result (stPhase (nStatus nab))
                NonAdminBackupPhaseCreated ltac:(done)) as Hp.
  pose proof (updateNonAdminPhase_changed (stPhase (nStatus nab))
                NonAdminBackupPhaseCreated) as Hpc.
  destruct (updateNonAdminPhase _ _) as [p u]. simpl in Hp, Hpc. subst p.
  simpl.
  pose proof (SetStatusCondition_changes t (stConditions (nStatus nab)) queuedTrue) as Hcc.
  pose proof (SetStatusCondition_keeps t (stConditions (nStatus nab)) queuedTrue) as Hck.
  destruct (SetStatusCondition t _ _) as [cs' uc]. simpl in *.
  set (st1 := set_conditions (set_phase (nStatus nab) NonAdminBackupPhaseCreated) cs').
  pose proof (updateReference_changed st1 b) as Hrc.
  destruct (updateReference_fields st1 b) as (Hfp & Hfc & _).
  destruct (updateNonAdminBackupVeleroBackupReference st1 b) as [st' ur]. simpl in *.
  split; [done|].
  destruct u; simpl.
  { split; [discriminate|]. intros Heq. exfalso. apply Hpc; [done|].
    by rewrite <- Heq, Hfp. }
  destruct uc; simpl.
  { split; [discriminate|]. intros Heq. exfalso. apply Hcc; [done|].
    by rewrite <- Heq, Hfc. }
  assert (st1 = nStatus nab) as Hst1.
  { unfold st1. rewrite Hck by done.
    destruct (decide (NonAdminBackupPhaseCreated = stPhase (nStatus nab))) as [->|Hne].
    - by destruct (nStatus nab).
    - exfalso. assert (false = true); [by apply Hpc | done]. }
  destruct ur.
  - split; [discriminate|]. intros Heq. exfalso. apply Hrc; [done|]. congruence.
  - split; [|done]. intros _.
    destruct (decide (st' = st1)) as [->|Hne]; [done|].
    apply Hrc in Hne. discriminate.
Qed.

Lemma updateSnapshot_changed st b :
  (updateNonAdminBackupVeleroBackupStatus st b).2 = true ↔
  (updateNonAdminBackupVeleroBackupStatus st b).1 ≠ st.
Proof.
  unfold updateNonAdminBackupVeleroBackupStatus, DeepEqual_status.
  destruct st as [[[[s|] n ns]|] p cs]; simpl.
  - rewrite BackupStatus_DeepCopy_eq.
    destruct (bool_decide (s = bStatus b)) eqn:E; simpl.
    + split; [discriminate | congruence].
    + apply bool_decide_eq_false_1 in E. split; [|done]. intros _ [= H]. by apply E.
  - split; [intros _ [=] | done].
  - split; [intros _ [=] | done].
Qed.

Lemma updateSnapshot_unchanged st b :
  (updateNonAdminBackupVeleroBackupStatus st b).2 = false ↔
  ∃ v, stVeleroBackup st = Some v ∧ vStatus v = Some (bStatus b).
Proof.
  unfold updateNonAdminBackupVeleroBackupStatus, DeepEqual_status.
  destruct (stVeleroBackup st) as [[[s|] n ns]|]; simpl.
  - destruct (bool_decide (s = bStatus b)) eqn:E; simpl.
    + apply bool_decide_eq_true_1 in E as ->. split; [eauto | done].
    + apply bool_decide_eq_false_1 in E. split; [discriminate|].
      intros (v & [= <-] & [= Hs]). done.
  - split; [discriminate|]. intros (v & [= <-] & [=]).
  - split; [discriminate|]. intros (v & [=] & _).
Qed.

(** The snapshot update writes a copy of the live status and nothing else:
    phase and conditions stay, and so do the reference's name and
    namespace when there is a reference. *)
Lemma updateSnapshot_fields st b :
  let st' := (updateNonAdminBackupVeleroBackupStatus st b).1 in
  stPhase st' = stPhase st ∧ stConditions st' = stConditions st ∧
  stVeleroBackup st' =
    Some (mkVeleroBackup (Some (bStatus b))
            (default "" (vName <$> stVeleroBackup st))
            (default "" (vNamespace <$> stVeleroBackup st))).
Proof.
  pose proof (updateSnapshot_unchanged st b) as Hun. revert Hun.
  unfold updateNonAdminBackupVeleroBackupStatus.
  destruct (stVeleroBackup st) as [v|] eqn:Hv; simpl.
  - destruct (negb _); simpl; intros Hun.
    + rewrite BackupStatus_DeepCopy_eq. done.
    + destruct Hun as [(v' & [= <-] & Hs) _]; [done|].
      rewrite Hv. repeat split. destruct v; simpl in *. by rewrite Hs.
  - intros _. by rewrite BackupStatus_DeepCopy_eq.
Qed.

Lemma snapshotStatus_same nab b :
  snapshotStatus nab b = nStatus nab ↔
  ∃ v, stVeleroBackup (nStatus nab) = Some v ∧ vStatus v = Some (bStatus b).
Proof.
  unfold snapshotStatus. rewrite <- updateSnapshot_unchanged.
  pose proof (updateSnapshot_changed (nStatus nab) b) as Hc.
  destruct (updateNonAdminBackupVeleroBackupStatus (nStatus nab) b) as [st' u].
  simpl in *. destruct u.
  - split; [|discriminate]. intros Heq. exfalso. by apply Hc.
  - split; [done|]. intros _.
    destruct (decide (st' = nStatus nab)) as [|Hne]; [done|].
    apply Hc in Hne. discriminate.
Qed.

(** How a step ends once it decided to write [nab']. *)
Definition persist (env : Env) (cl : Cluster) (ws : list Write) (nab' : NonAdminBackup)
  : StepResult :=
  match Status_Update env cl nab' with
  | (cl', Some err) => mkStepResult nab' cl' ws false (Some err)
  | (cl', None) => mkStepResult nab' cl' (ws ++ [WriteStatusUpdate nab']) false None
  end.

(** The second half of the synchronisation, by what it compares. *)
Lemma syncStatus_unfold env cl ws nab b :
  syncStatus env cl ws nab b =
    if bool_decide (bookkeptStatus (now env) nab b = nStatus nab) then
      if bool_decide (snapshotStatus nab b = nStatus nab)
      then mkStepResult nab cl ws false None
      else persist env cl ws (set_status nab (snapshotStatus nab b))
    else persist env cl ws (set_status nab (bookkeptStatus (now env) nab b)).
Proof.
  pose proof (bookkeptStatus_flags (now env) nab b) as Hflags.
  unfold syncStatus, persist.
  destruct (updateNonAdminPhase _ _) as [p u]. cbn [stConditions set_phase] in *.
  destruct (SetStatusCondition _ _ _) as [cs' uc].
  destruct (updateNonAdminBackupVeleroBackupReference _ _) as [st' ur].
  destruct Hflags as [-> Hflags].
  destruct (u || uc || ur).
  - rewrite bool_decide_eq_false_2; [done|]. intros H. by apply Hflags in H.
  - assert (bookkeptStatus (now env) nab b = nStatus nab) as Heq by by apply Hflags.
    rewrite bool_decide_eq_true_2 by done. simpl. rewrite Heq.
    pose proof (updateSnapshot_changed (nStatus nab) b) as Hc.
    unfold snapshotStatus.
    destruct (updateNonAdminBackupVeleroBackupStatus (nStatus nab) b) as [st'' us].
    simpl in *. destruct us.
    + rewrite bool_decide_eq_false_2; [done|]. by apply Hc.
    + destruct (decide (st'' = nStatus nab)) as [->|Hne].
      * rewrite bool_decide_eq_true_2 by done. by rewrite !set_status_eta.
      * apply Hc in Hne. discriminate.
Qed.

Lemma bookkeptStatus_complete t nab b :
  bookkeepingComplete (bookkeptStatus t nab b) b.
Proof.
  unfold bookkeptStatus, bookkeepingComplete.
  set (st1 := set_conditions _ _).
  destruct (updateReference_fields st1 b) as (Hp & Hc & v' & Hv' & Hn & Hns & _).
  rewrite Hp, Hc. simpl. split; [done|]. split.
  - destruct (SetStatusCondition_found t (stConditions (nStatus nab)) queuedTrue)
      as (c & Hf & Hs & Hr & Hm & Ho).
    exists c. done.
  - exists v'. done.
Qed.

Lemma snapshotStatus_complete nab b :
  bookkeepingComplete (nStatus nab) b → bookkeepingComplete (snapshotStatus nab b) b.
Proof.
  unfold snapshotStatus, bookkeepingComplete.
  destruct (updateSnapshot_fields (nStatus nab) b) as (Hp & Hc & Hv).
  intros (Hph & Hq & v & Hv0 & Hn & Hns). rewrite Hp, Hc, Hv, Hv0. simpl.
  split; [done|]. split; [done|]. eexists. split; [done|]. done.
Qed.

Lemma persist_outcome env cl ws nab' :
  srNab (persist env cl ws nab') = nab' ∧ srRequeue (persist env cl ws nab') = false.
Proof. unfold persist. by destruct (Status_Update _ _ _) as [? [?|]]. Qed.

Lemma persist_ok env cl ws nab' stored :
  updateError env = None →
  nonAdminBackups cl !! nab_key nab' = Some stored →
  persist env cl ws nab' =
    mkStepResult nab'
      (mkCluster (<[nab_key nab' := set_status stored (nStatus nab')]> (nonAdminBackups cl))
         (veleroBackups cl))
      (ws ++ [WriteStatusUpdate nab']) false None.
Proof. intros He Hs. unfold persist. by rewrite (Status_Update_present _ _ _ _ He Hs). Qed.

(** After the second half of the synchronisation the request in memory
    records the Backup; and when the bookkeeping was complete before, its
    snapshot is the Backup's status. *)
Lemma syncStatus_post env cl ws nab b :
  let sr := syncStatus env cl ws nab b in
  bookkeepingComplete (nStatus (srNab sr)) b ∧
  srRequeue sr = false ∧
  (bookkeepingComplete (nStatus nab) b →
     nStatus (srNab sr) = snapshotStatus nab b ∧
     ∃ v, stVeleroBackup (nStatus (srNab sr)) = Some v ∧ vStatus v = Some (bStatus b)) ∧
  (¬ bookkeepingComplete (nStatus nab) b →
     nStatus (srNab sr) = bookkeptStatus (now env) nab b).
Proof.
  simpl. rewrite syncStatus_unfold.
  pose proof (bookkeptStatus_same (now env) nab b) as Hsame.
  destruct (bool_decide _) eqn:E1.
  - apply bool_decide_eq_true_1 in E1. pose proof E1 as Hcomplete.
    apply Hsame in Hcomplete.
    destruct (updateSnapshot_fields (nStatus nab) b) as (_ & _ & Hv).
    fold (snapshotStatus nab b) in Hv.
    destruct (bool_decide (snapshotStatus nab b = _)) eqn:E2.
    + apply bool_decide_eq_true_1 in E2. simpl.
      split; [done|]. split; [done|]. split; [|done]. intros _.
      split; [done|]. rewrite <- E2, Hv. eexists. split; done.
    + destruct (persist_outcome env cl ws (set_status nab (snapshotStatus nab b)))
        as [-> ->]. simpl.
      split; [by apply snapshotStatus_complete|]. split; [done|].
      split; [|done]. intros _. split; [done|]. rewrite Hv. eexists. split; done.
  - apply bool_decide_eq_false_1 in E1.
    destruct (persist_outcome env cl ws (set_status nab (bookkeptStatus (now env) nab b)))
      as [-> ->]. simpl.
    split; [apply bookkeptStatus_complete|]. split; [done|].
    split; [|done]. intros Hcomplete. exfalso. apply E1. by apply Hsame.
Qed.

(** The first half: fetching, and creating when nothing was found. *)
Lemma sync_found env cl nab b :
  let name := GenerateVeleroBackupName (mNamespace (nObjectMeta nab))
                (mName (nObjectMeta nab)) in
  name ≠ constant_EmptyString →
  getBackupError env = None →
  veleroBackups cl !! (OADPNamespace r, name) = Some b →
  sync env cl nab = syncStatus env cl [] nab b.
Proof.
  cbv zeta. intros Hn Hg Hb. unfold syncVeleroBackupWithNonAdminBackup, Get_Backup.
  rewrite decide_False by done. by rewrite Hg, Hb.
Qed.

Lemma sync_absent env cl nab :
  let name := GenerateVeleroBackupName (mNamespace (nObjectMeta nab))
                (mName (nObjectMeta nab)) in
  name ≠ constant_EmptyString →
  getBackupError env = None →
  veleroBackups cl !! (OADPNamespace r, name) = None →
  createError env = None →
  sync env cl nab =
    syncStatus env
      (mkCluster (nonAdminBackups cl)
         (<[(OADPNamespace r, name) := build name nab]> (veleroBackups cl)))
      [WriteCreate (build name nab)] nab (build name nab).
Proof.
  cbv zeta. intros Hn Hg Hb Hc.
  unfold syncVeleroBackupWithNonAdminBackup, Get_Backup, Create_Backup.
  rewrite decide_False by done. rewrite Hg, Hb.
  cbn [IsNotFound negb]. rewrite Hc.
  change (backup_key (build (GenerateVeleroBackupName (mNamespace (nObjectMeta nab))
            (mName (nObjectMeta nab))) nab))
    with (OADPNamespace r, GenerateVeleroBackupName (mNamespace (nObjectMeta nab))
            (mName (nObjectMeta nab))).
  by rewrite Hb.
Qed.

Lemma bookkeptStatus_reference t nab b :
  ∃ v', stVeleroBackup (bookkeptStatus t nab b) = Some v' ∧
        vName v' = mName (bObjectMeta b) ∧ vNamespace v' = mNamespace (bObjectMeta b) ∧
        vStatus v' = stVeleroBackup (nStatus nab) ≫= vStatus.
Proof.
  unfold bookkeptStatus. set (st1 := set_conditions _ _).
  destruct (updateReference_fields st1 b) as (_ & _ & v' & Hv' & Hn & Hns & Hst).
  exists v'. done.
Qed.

Lemma syncStatus_ok env cl ws nab b stored :
  updateError env = None →
  nonAdminBackups cl !! nab_key nab = Some stored →
  let sr := syncStatus env cl ws nab b in
  srError sr = None ∧
  (nStatus (srNab sr) = nStatus nab ∧ srWrites sr = ws ∧ srCluster sr = cl ∨
   nStatus (srNab sr) ≠ nStatus nab ∧
   srWrites sr = (ws ++ [WriteStatusUpdate (srNab sr)])%list ∧
   srCluster sr =
     mkCluster (<[nab_key nab := set_status stored (nStatus (srNab sr))]> (nonAdminBackups cl))
       (veleroBackups cl)).
Proof.
  intros He Hs. cbv zeta. rewrite syncStatus_unfold.
  destruct (bool_decide (bookkeptStatus _ _ _ = _)) eqn:E1.
  - destruct (bool_decide (snapshotStatus _ _ = _)) eqn:E2.
    + simpl. split; [done|]. by left.
    + apply bool_decide_eq_false_1 in E2.
      rewrite (persist_ok env cl ws (set_status nab (snapshotStatus nab b)) stored He Hs).
      simpl. split; [done|]. by right.
  - apply bool_decide_eq_false_1 in E1.
    rewrite (persist_ok env cl ws (set_status nab (bookkeptStatus (now env) nab b))
               stored He Hs).
    simpl. split; [done|]. by right.
Qed.

(** C5, as the code has it: when [syncVeleroBackupWithNonAdminBackup] finds
    no Velero Backup of the generated name (the API accepting its calls),
    it creates one: the request's backup spec with the included namespaces
    narrowed to the request's namespace, the managed labels and the origin
    annotations.  It then has phase Created, Queued True and the reference
    naming the new object, and returns without requeue and without error.
    When the request did not record the object yet, this bookkeeping is
    persisted and the reference status is left as it was: absent on a
    request without reference block.  When the request already recorded the
    object, nothing of the bookkeeping changes and the step goes on to the
    snapshot comparison against the object just created: the reference
    status becomes a copy of the new object's empty status. *)
Theorem sync_creates_when_absent env cl nab stored :
  let name := GenerateVeleroBackupName (mNamespace (nObjectMeta nab))
                (mName (nObjectMeta nab)) in
  name ≠ constant_EmptyString →
  getBackupError env = None →
  veleroBackups cl !! (OADPNamespace r, name) = None →
  createError env = None →
  updateError env = None →
  nonAdminBackups cl !! nab_key nab = Some stored →
  let b := build name nab in
  let sr := sync env cl nab in
  b = mkBackup
        (mkObjectMeta name (OADPNamespace r) 0 GetNonAdminLabels
           (GetNonAdminBackupAnnotations (nObjectMeta nab)))
        (mkBackupSpec [mNamespace (nObjectMeta nab)]
           (sExcludedNamespaces (nsBackupSpec (nSpec nab)))
           (sIncludedResources (nsBackupSpec (nSpec nab)))
           (sExcludedResources (nsBackupSpec (nSpec nab)))
           (sStorageLocation (nsBackupSpec (nSpec nab)))
           (sDefaultVolumesToFsBackup (nsBackupSpec (nSpec nab))))
        BackupStatus_zero ∧
  veleroBackups (srCluster sr) = <[(OADPNamespace r, name) := b]> (veleroBackups cl) ∧
  hd_error (srWrites sr) = Some (WriteCreate b) ∧
  bookkeepingComplete (nStatus (srNab sr)) b ∧
  srRequeue sr = false ∧
  srError sr = None ∧
  (¬ bookkeepingComplete (nStatus nab) b →
     nStatus (srNab sr) = bookkeptStatus (now env) nab b ∧
     stVeleroBackup (nStatus (srNab sr)) ≫= vStatus = stVeleroBackup (nStatus nab) ≫= vStatus ∧
     srWrites sr = [WriteCreate b; WriteStatusUpdate (srNab sr)] ∧
     nonAdminBackups (srCluster sr) =
       <[nab_key nab := set_status stored (nStatus (srNab sr))]> (nonAdminBackups cl)) ∧
  (stVeleroBackup (nStatus nab) = None →
     ¬ bookkeepingComplete (nStatus nab) b ∧
     stVeleroBackup (nStatus (srNab sr)) = Some (mkVeleroBackup None name (OADPNamespace r))) ∧
  (bookkeepingComplete (nStatus nab) b →
     nStatus (srNab sr) = snapshotStatus nab b ∧
     stVeleroBackup (nStatus (srNab sr)) ≫= vStatus = Some BackupStatus_zero).
Proof.
  intros name Hname Hg Hb Hc He Hs b sr.
  assert (sr = syncStatus env
                 (mkCluster (nonAdminBackups cl)
                    (<[(OADPNamespace r, name) := b]> (veleroBackups cl)))
                 [WriteCreate b] nab b) as Hsr
    by (unfold sr; by apply sync_absent).
  set (cl1 := mkCluster _ _) in Hsr.
  destruct (syncStatus_post env cl1 [WriteCreate b] nab b)
    as (Hcomplete & Hrq & Hwas & Hwasnot).
  destruct (syncStatus_ok env cl1 [WriteCreate b] nab b stored He Hs) as (Herr & Hwrites).
  rewrite <- Hsr in Hcomplete, Hrq, Hwas, Hwasnot, Herr, Hwrites.
  assert (¬ bookkeepingComplete (nStatus nab) b →
          nStatus (srNab sr) = bookkeptStatus (now env) nab b ∧
          stVeleroBackup (nStatus (srNab sr)) ≫= vStatus
            = stVeleroBackup (nStatus nab) ≫= vStatus ∧
          srWrites sr = [WriteCreate b; WriteStatusUpdate (srNab sr)] ∧
          nonAdminBackups (srCluster sr) =
            <[nab_key nab := set_status stored (nStatus (srNab sr))]> (nonAdminBackups cl))
    as Hfirst.
  { intros Hnot. pose proof (Hwasnot Hnot) as Hst. split; [done|].
    split.
    { rewrite Hst.
      destruct (bookkeptStatus_reference (now env) nab b) as (v' & -> & _ & _ & Hv).
      done. }
    destruct Hwrites as [(Hsame & _) | (_ & -> & ->)]; [|done].
    exfalso. apply Hnot. apply (bookkeptStatus_same (now env)). congruence. }
  split; [unfold b, newVeleroBackup; by rewrite BackupSpec_DeepCopy_eq|].
  split; [rewrite Hsr; apply syncStatus_veleroBackups|].
  split; [by destruct Hwrites as [(_ & -> & _) | (_ & -> & _)]|].
  split; [done|]. split; [done|]. split; [done|]. split; [exact Hfirst|].
  split.
  - intros Hnone.
    assert (¬ bookkeepingComplete (nStatus nab) b) as Hnot.
    { intros (_ & _ & v & Hv & _). congruence. }
    split; [done|]. destruct (Hfirst Hnot) as (-> & _).
    unfold bookkeptStatus, updateNonAdminBackupVeleroBackupReference. simpl.
    by rewrite Hnone.
  - intros Hyes. destruct (Hwas Hyes) as (Hst & v & Hv & Hvs).
    split; [done|]. by rewrite Hv.
Qed.

(** *** Drift of the Backup status *)

(** The request records that validation accepted it. *)
Definition acceptedRecorded (st : NonAdminBackupStatus) : Prop :=
  ∃ c, FindStatusCondition (stConditions st) NonAdminConditionAccepted = Some c ∧
       cStatus c = ConditionTrue ∧ cReason c = "BackupAccepted" ∧
       cMessage c = "backup accepted" ∧ cObservedGeneration c = 0.

Lemma validateSpec_settled env cl nab :
  ValidateBackupSpec nab = None →
  acceptedRecorded (nStatus nab) →
  validate env cl nab = mkStepResult nab cl [] false None.
Proof.
  intros Hv Hacc. unfold validateSpec. rewrite Hv.
  assert ((SetStatusCondition (now env) (stConditions (nStatus nab)) acceptedTrue).2 = false)
    as Hno by (by apply SetStatusCondition_unchanged).
  pose proof (SetStatusCondition_keeps _ _ _ Hno) as Hkeep.
  destruct (SetStatusCondition _ _ _) as [cs' u]. simpl in *. subst.
  by rewrite set_conditions_eta, set_status_eta.
Qed.

Lemma sync_never_requeues env cl nab : srRequeue (sync env cl nab) = false.
Proof.
  unfold syncVeleroBackupWithNonAdminBackup.
  repeat case_match; simpl; try done; apply syncStatus_post.
Qed.

(** C6: the request records the Backup (phase Created, Queued True, the
    reference naming it) and the Backup is found.  When the Backup's status
    differs from the snapshot in the reference, the step replaces the
    snapshot by a copy of the Backup's status, a value of its own, and
    leaves phase, conditions, reference name and namespace, metadata and
    spec as they were; it persists this status.  When they are equal the
    step writes nothing and changes nothing.  A [Reconcile] of a stored
    request that validation accepted, and that records so, is this
    step. *)
Theorem sync_propagates_drift env cl nab b v stored :
  let name := GenerateVeleroBackupName (mNamespace (nObjectMeta nab))
                (mName (nObjectMeta nab)) in
  name ≠ constant_EmptyString →
  getBackupError env = None →
  veleroBackups cl !! (OADPNamespace r, name) = Some b →
  bookkeepingComplete (nStatus nab) b →
  stVeleroBackup (nStatus nab) = Some v →
  updateError env = None →
  nonAdminBackups cl !! nab_key nab = Some stored →
  let sr := sync env cl nab in
  (vStatus v ≠ Some (bStatus b) →
     nStatus (srNab sr) =
       mkNonAdminBackupStatus
         (Some (mkVeleroBackup (Some (BackupStatus_DeepCopy (bStatus b)))
                  (vName v) (vNamespace v)))
         (stPhase (nStatus nab)) (stConditions (nStatus nab)) ∧
     BackupStatus_DeepCopy (bStatus b) = bStatus b ∧
     nObjectMeta (srNab sr) = nObjectMeta nab ∧
     nSpec (srNab sr) = nSpec nab ∧
     srWrites sr = [WriteStatusUpdate (srNab sr)] ∧
     srCluster sr =
       mkCluster (<[nab_key nab := set_status stored (nStatus (srNab sr))]>
                    (nonAdminBackups cl)) (veleroBackups cl) ∧
     srRequeue sr = false ∧ srError sr = None) ∧
  (vStatus v = Some (bStatus b) → sr = mkStepResult nab cl [] false None) ∧
  (stored = nab →
   getNonAdminBackupError env = None →
   ValidateBackupSpec nab = None →
   acceptedRecorded (nStatus nab) →
   reconcile env cl (nab_key nab) =
     mkReconcileResult (srCluster sr) (srWrites sr) (mkResult false) (srError sr)).
Proof.
  intros name Hname Hg Hb Hcomplete Hv He Hs sr.
  assert (sr = syncStatus env cl [] nab b) as Hsr by (unfold sr; by apply sync_found).
  pose proof (proj2 (bookkeptStatus_same (now env) nab b) Hcomplete) as Hkept.
  pose proof (snapshotStatus_same nab b) as Hsnap.
  rewrite syncStatus_unfold in Hsr.
  rewrite bool_decide_eq_true_2 in Hsr by done.
  split; [|split].
  - intros Hdiff.
    assert (snapshotStatus nab b ≠ nStatus nab) as Hne.
    { intros Heq. apply Hsnap in Heq as (v' & Hv' & Hvs). congruence. }
    rewrite bool_decide_eq_false_2 in Hsr by done.
    rewrite (persist_ok env cl [] (set_status nab (snapshotStatus nab b)) stored He Hs)
      in Hsr.
    rewrite Hsr. simpl.
    assert (snapshotStatus nab b =
            mkNonAdminBackupStatus
              (Some (mkVeleroBackup (Some (BackupStatus_DeepCopy (bStatus b)))
                       (vName v) (vNamespace v)))
              (stPhase (nStatus nab)) (stConditions (nStatus nab))) as ->.
    { destruct (updateSnapshot_fields (nStatus nab) b) as (Hp & Hc & Href).
      fold (snapshotStatus nab b) in Hp, Hc, Href.
      rewrite Hv in Href. simpl in Href. rewrite BackupStatus_DeepCopy_eq.
      destruct (snapshotStatus nab b). simpl in *. congruence. }
    repeat split. apply BackupStatus_DeepCopy_eq.
  - intros Hsame.
    rewrite bool_decide_eq_true_2 in Hsr; [done|]. apply Hsnap. eauto.
  - intros -> Hgn Hval Hacc.
    unfold Reconcile, Get_NonAdminBackup. rewrite Hgn, Hs.
    unfold reconcileSteps. cbn [runSteps].
    assert (stPhase (nStatus nab) ≠ constant_EmptyString) as Hp.
    { destruct Hcomplete as (-> & _). done. }
    rewrite (init_set env cl nab Hp). cbn [srError srRequeue srCluster srWrites srNab].
    rewrite (validateSpec_settled env cl nab Hval Hacc).
    cbn [srError srRequeue srCluster srWrites srNab app]. fold sr.
    pose proof (sync_never_requeues env cl nab) as Hrq. fold sr in Hrq.
    destruct (srError sr); [done|]. by rewrite Hrq.
Qed.

(** *** Requeue after a write *)

(** C7, as the code has it: [init] and [validateSpec], when they
    persisted the status and return without error, signal requeue, and the
    loop of [Reconcile] then stops with [Requeue] set, running no further
    step; [syncVeleroBackupWithNonAdminBackup] never signals requeue,
    whether it persisted or not. *)
Theorem persisted_steps_requeue env cl nab :
  (srWrites (init env cl nab) ≠ [] → srError (init env cl nab) = None →
     srRequeue (init env cl nab) = true) ∧
  (srWrites (validate env cl nab) ≠ [] → srError (validate env cl nab) = None →
     srRequeue (validate env cl nab) = true) ∧
  srRequeue (sync env cl nab) = false ∧
  (∀ (step : reconcileStepFunction) (rest : list reconcileStepFunction) ws,
     srError (step env cl nab) = None → srRequeue (step env cl nab) = true →
     runSteps (step :: rest) env cl ws nab =
       mkReconcileResult (srCluster (step env cl nab))
         (ws ++ srWrites (step env cl nab)) (mkResult true) None).
Proof.
  split; [|split; [|split]].
  - unfold init. repeat case_match; simpl; done.
  - unfold validateSpec. repeat case_match; simpl; done.
  - apply sync_never_requeues.
  - intros step rest ws Herr Hrq. simpl. by rewrite Herr, Hrq.
Qed.

(** *** Running the synchronisation again *)

(** What the first three comparisons of the synchronisation look at. *)
Definition bookkeeping (st : NonAdminBackupStatus)
  : NonAdminBackupPhase * list Condition * option (string * string) :=
  (stPhase st, stConditions st, (λ v, (vName v, vNamespace v)) <$> stVeleroBackup st).

Lemma bookkeptStatus_bookkeeping t nab b :
  bookkeeping (bookkeptStatus t nab b) = bookkeeping (nStatus nab) →
  bookkeptStatus t nab b = nStatus nab.
Proof.
  destruct (bookkeptStatus_reference t nab b) as (v' & Hv' & _ & _ & Hvs).
  unfold bookkeeping. rewrite Hv'. intros [= Hp Hc Hr].
  destruct (bookkeptStatus t nab b) as [ref' p' cs'].
  destruct (nStatus nab) as [[v|] p cs]; simpl in *; [|discriminate].
  injection Hr as Hn Hns. subst. f_equal. f_equal.
  destruct v', v. simpl in *. congruence.
Qed.

Lemma snapshotStatus_bookkeeping nab b :
  is_Some (stVeleroBackup (nStatus nab)) →
  bookkeeping (snapshotStatus nab b) = bookkeeping (nStatus nab).
Proof.
  intros [v Hv]. unfold bookkeeping, snapshotStatus.
  destruct (updateSnapshot_fields (nStatus nab) b) as (-> & -> & ->).
  by rewrite Hv.
Qed.

Lemma syncStatus_meta env cl ws nab b :
  nObjectMeta (srNab (syncStatus env cl ws nab b)) = nObjectMeta nab.
Proof.
  rewrite syncStatus_unfold. unfold persist.
  repeat case_match; done.
Qed.

(** A run without error went through the second half, on the Backup that
    the cluster then holds under the generated name. *)
Lemma sync_ok_inv env cl nab :
  srError (sync env cl nab) = None →
  let name := GenerateVeleroBackupName (mNamespace (nObjectMeta nab))
                (mName (nObjectMeta nab)) in
  name ≠ constant_EmptyString ∧
  ∃ b cl1 ws, sync env cl nab = syncStatus env cl1 ws nab b ∧
              veleroBackups cl1 !! (OADPNamespace r, name) = Some b.
Proof.
  cbv zeta. unfold syncVeleroBackupWithNonAdminBackup.
  destruct (decide _) as [|Hname]; [discriminate|].
  unfold Get_Backup.
  destruct (getBackupError env) as [e|].
  - destruct (negb (IsNotFound e)); [discriminate|].
    destruct (Create_Backup _ _ _) as [cl' [e'|]] eqn:HC; [discriminate|].
    apply Create_Backup_ok in HC as (_ & _ & ->).
    intros _. split; [done|]. eexists _, _, _. split; [done|].
    simpl. unfold backup_key. simpl. apply lookup_insert_eq.
  - destruct (veleroBackups cl !! _) as [b|] eqn:Hb.
    + intros _. split; [done|]. by eexists _, _, _.
    + cbn [IsNotFound negb].
      destruct (Create_Backup _ _ _) as [cl' [e'|]] eqn:HC; [discriminate|].
      apply Create_Backup_ok in HC as (_ & _ & ->).
      intros _. split; [done|]. eexists _, _, _. split; [done|].
      simpl. unfold backup_key. simpl. apply lookup_insert_eq.
Qed.

(** A run on a request that records the Backup the cluster holds. *)
Lemma sync_recorded env cl nab b :
  let name := GenerateVeleroBackupName (mNamespace (nObjectMeta nab))
                (mName (nObjectMeta nab)) in
  name ≠ constant_EmptyString →
  veleroBackups cl !! (OADPNamespace r, name) = Some b →
  bookkeepingComplete (nStatus nab) b →
  let run := sync env cl nab in
  (∀ b', WriteCreate b' ∉ srWrites run) ∧
  bookkeeping (nStatus (srNab run)) = bookkeeping (nStatus nab) ∧
  nObjectMeta (srNab run) = nObjectMeta nab ∧
  veleroBackups (srCluster run) = veleroBackups cl ∧
  bookkeepingComplete (nStatus (srNab run)) b ∧
  ((∃ v, stVeleroBackup (nStatus nab) = Some v ∧ vStatus v = Some (bStatus b)) →
     run = mkStepResult nab cl [] false (srError run)) ∧
  (srError run = None →
     ∃ v, stVeleroBackup (nStatus (srNab run)) = Some v ∧ vStatus v = Some (bStatus b)).
Proof.
  cbv zeta. intros Hname Hb Hcomplete.
  unfold syncVeleroBackupWithNonAdminBackup.
  rewrite decide_False by done. unfold Get_Backup.
  assert (∀ e, let res := mkStepResult nab cl [] false (Some e) in
            (∀ b', WriteCreate b' ∉ srWrites res) ∧
            bookkeeping (nStatus (srNab res)) = bookkeeping (nStatus nab) ∧
            nObjectMeta (srNab res) = nObjectMeta nab ∧
            veleroBackups (srCluster res) = veleroBackups cl ∧
            bookkeepingComplete (nStatus (srNab res)) b ∧
            ((∃ v, stVeleroBackup (nStatus nab) = Some v ∧ vStatus v = Some (bStatus b)) →
               res = mkStepResult nab cl [] false (srError res)) ∧
            (srError res = None →
               ∃ v, stVeleroBackup (nStatus (srNab res)) = Some v ∧
                    vStatus v = Some (bStatus b))) as Hfail.
  { intros e. cbv zeta. simpl.
    split; [intros b' Hb'; by apply elem_of_nil in Hb'|].
    split; [done|]. split; [done|]. split; [done|]. split; [done|].
    split; [done|]. discriminate. }
  assert (∃ e, Create_Backup env cl
                 (build (GenerateVeleroBackupName (mNamespace (nObjectMeta nab))
                           (mName (nObjectMeta nab))) nab) = (cl, Some e)) as [ec HC].
  { unfold Create_Backup. destruct (createError env); [eauto|].
    unfold backup_key. simpl. rewrite Hb. eauto. }
  destruct (getBackupError env) as [e|].
  - destruct (negb (IsNotFound e)); [apply Hfail|]. rewrite HC. apply Hfail.
  - rewrite Hb. rewrite syncStatus_unfold.
    rewrite bool_decide_eq_true_2 by (by apply bookkeptStatus_same).
    pose proof (snapshotStatus_same nab b) as Hsnap.
    destruct (bool_decide (snapshotStatus nab b = _)) eqn:E.
    + apply bool_decide_eq_true_1 in E. simpl.
      split; [intros b' Hb'; by apply elem_of_nil in Hb'|].
      split; [done|]. split; [done|]. split; [done|]. split; [done|].
      split; [done|]. intros _. by apply Hsnap.
    + apply bool_decide_eq_false_1 in E.
      assert (is_Some (stVeleroBackup (nStatus nab))) as Href.
      { destruct Hcomplete as (_ & _ & v & -> & _). eauto. }
      pose proof (Status_Update_veleroBackups env cl
                    (set_status nab (snapshotStatus nab b))) as Hvb.
      unfold persist. destruct (Status_Update _ _ _) as [cl' [e|]]; simpl in *.
      * split; [intros b' Hb'; by apply elem_of_nil in Hb'|].
        split; [by apply snapshotStatus_bookkeeping|].
        split; [done|]. split; [done|].
        split; [by apply snapshotStatus_complete|].
        split; [|done]. intros Hv. exfalso. apply E. by apply Hsnap.
      * split; [intros b' Hb'; by apply list_elem_of_singleton in Hb'|].
        split; [by apply snapshotStatus_bookkeeping|].
        split; [done|]. split; [done|].
        split; [by apply snapshotStatus_complete|].
        split; [intros Hv; exfalso; apply E; by apply Hsnap|].
        intros _. destruct (updateSnapshot_fields (nStatus nab) b) as (_ & _ & Hv).
        fold (snapshotStatus nab b) in Hv. rewrite Hv. eexists. split; done.
Qed.

(** C2, as the code has it: after a run of the synchronisation that
    returned without error, a second run on the same request, nothing else
    having touched the two objects, creates nothing, and its phase, Queued
    condition and reference comparisons report no change.  Its snapshot
    comparison reports no change either, and the run writes nothing, when
    the first run had no bookkeeping to record; after a first run that
    recorded bookkeeping, the second run may write the snapshot, and a
    third run after it writes nothing. *)
Theorem sync_again env1 env2 env3 cl nab :
  let run1 := sync env1 cl nab in
  let run2 := sync env2 (srCluster run1) (srNab run1) in
  let run3 := sync env3 (srCluster run2) (srNab run2) in
  srError run1 = None →
  (∀ b, WriteCreate b ∉ srWrites run2) ∧
  bookkeeping (nStatus (srNab run2)) = bookkeeping (nStatus (srNab run1)) ∧
  (bookkeeping (nStatus (srNab run1)) = bookkeeping (nStatus nab) →
     srWrites run2 = [] ∧ srNab run2 = srNab run1 ∧ srCluster run2 = srCluster run1) ∧
  (srError run2 = None →
     srWrites run3 = [] ∧ srNab run3 = srNab run2 ∧ srCluster run3 = srCluster run2).
Proof.
  intros run1 run2 run3 Herr1.
  destruct (sync_ok_inv env1 cl nab Herr1) as (Hname & b & cl1 & ws & Hrun1 & Hb).
  fold run1 in Hrun1.
  assert (nObjectMeta (srNab run1) = nObjectMeta nab) as Hmeta1
    by (rewrite Hrun1; apply syncStatus_meta).
  assert (veleroBackups (srCluster run1) !! (OADPNamespace r,
            GenerateVeleroBackupName (mNamespace (nObjectMeta (srNab run1)))
              (mName (nObjectMeta (srNab run1)))) = Some b) as Hb1.
  { rewrite Hmeta1, Hrun1, syncStatus_veleroBackups. exact Hb. }
  destruct (syncStatus_post env1 cl1 ws nab b) as (Hcomplete1 & _ & Hwas & Hwasnot).
  rewrite <- Hrun1 in Hcomplete1, Hwas, Hwasnot.
  assert (GenerateVeleroBackupName (mNamespace (nObjectMeta (srNab run1)))
            (mName (nObjectMeta (srNab run1))) ≠ constant_EmptyString) as Hname1
    by (by rewrite Hmeta1).
  destruct (sync_recorded env2 (srCluster run1) (srNab run1) b Hname1 Hb1 Hcomplete1)
    as (Hnocreate & Hkeep & Hmeta2 & Hvb2 & Hcomplete2 & Hnoop2 & Hsnap2).
  fold run2 in Hnocreate, Hkeep, Hmeta2, Hvb2, Hcomplete2, Hnoop2, Hsnap2.
  split; [done|]. split; [done|]. split.
  - intros Hsame.
    assert (bookkeepingComplete (nStatus nab) b) as Hcomplete.
    { destruct (decide (bookkeptStatus (now env1) nab b = nStatus nab)) as [Heq|Hne].
      - by apply (bookkeptStatus_same (now env1)).
      - assert (¬ bookkeepingComplete (nStatus nab) b) as Hnot.
        { intros Hc. apply Hne. by apply bookkeptStatus_same. }
        apply Hwasnot in Hnot. rewrite Hnot in Hsame.
        by apply bookkeptStatus_bookkeeping in Hsame. }
    destruct (Hwas Hcomplete) as (_ & Hv).
    pose proof (Hnoop2 Hv) as Hrun2.
    split; [by apply (f_equal srWrites) in Hrun2|].
    split; [by apply (f_equal srNab) in Hrun2 | by apply (f_equal srCluster) in Hrun2].
  - intros Herr2.
    assert (veleroBackups (srCluster run2) !! (OADPNamespace r,
              GenerateVeleroBackupName (mNamespace (nObjectMeta (srNab run2)))
                (mName (nObjectMeta (srNab run2)))) = Some b) as Hb2
      by (by rewrite Hmeta2, Hvb2).
    assert (GenerateVeleroBackupName (mNamespace (nObjectMeta (srNab run2)))
              (mName (nObjectMeta (srNab run2))) ≠ constant_EmptyString) as Hname2
      by (by rewrite Hmeta2).
    destruct (sync_recorded env3 (srCluster run2) (srNab run2) b Hname2 Hb2 Hcomplete2)
      as (_ & _ & _ & _ & _ & Hnoop3 & _).
    fold run3 in Hnoop3. pose proof (Hnoop3 (Hsnap2 Herr2)) as Hrun3.
    split; [by apply (f_equal srWrites) in Hrun3|].
    split; [by apply (f_equal srNab) in Hrun3 | by apply (f_equal srCluster) in Hrun3].
Qed.

(** *** The phase over time *)

(** A step changes the status of the request in memory, nothing else. *)
Definition frames (nab : NonAdminBackup) (sr : StepResult) : Prop :=
  srNab sr = set_status nab (nStatus (srNab sr)).

Lemma init_frames env cl nab : frames nab (init env cl nab).
Proof. unfold frames, init. repeat case_match; simpl; by rewrite ?set_status_eta. Qed.

Lemma validateSpec_frames env cl nab : frames nab (validate env cl nab).
Proof. unfold frames, validateSpec. repeat case_match; simpl; by rewrite ?set_status_eta. Qed.

Lemma sync_frames env cl nab : frames nab (sync env cl nab).
Proof.
  unfold frames, syncVeleroBackupWithNonAdminBackup.
  repeat case_match; simpl; rewrite ?set_status_eta; try done;
    rewrite syncStatus_unfold; unfold persist;
    repeat case_match; simpl; by rewrite ?set_status_eta.
Qed.

Lemma frames_key nab sr : frames nab sr → nab_key (srNab sr) = nab_key nab.
Proof. unfold frames. intros ->. done. Qed.

(** The stored request after a step: as before, or with the status the
    step left in memory. *)
Lemma stores_status_lookup cl nab sr stored :
  stores_status cl nab sr →
  nonAdminBackups cl !! nab_key nab = Some stored →
  nonAdminBackups (srCluster sr) !! nab_key nab = Some stored ∨
  nonAdminBackups (srCluster sr) !! nab_key nab
    = Some (set_status stored (nStatus (srNab sr))).
Proof.
  intros [-> | (stored' & Hs' & ->)] Hs; [by left|].
  right. rewrite lookup_insert_eq. congruence.
Qed.

(** One pass of [Reconcile] moves the stored phase in one of these ways;
    [verdict] is what validation says of the request. *)
Definition phase_step (verdict : option error) (p p' : NonAdminBackupPhase) : Prop :=
  p' = p ∨
  (p = constant_EmptyString ∧ p' = NonAdminBackupPhaseNew) ∨
  (p ≠ constant_EmptyString ∧ p' = NonAdminBackupPhaseBackingOff ∧ is_Some verdict) ∨
  (p ≠ constant_EmptyString ∧ p' = NonAdminBackupPhaseCreated ∧ verdict = None).

Lemma Reconcile_phase_step env cl nab :
  nonAdminBackups cl !! nab_key nab = Some nab →
  ∃ st', nonAdminBackups (rrCluster (reconcile env cl (nab_key nab))) !! nab_key nab
           = Some (set_status nab st') ∧
         phase_step (ValidateBackupSpec nab) (stPhase (nStatus nab)) (stPhase st').
Proof.
  intros Hs. unfold Reconcile, Get_NonAdminBackup.
  assert (∃ st', nonAdminBackups cl !! nab_key nab = Some (set_status nab st') ∧
                 phase_step (ValidateBackupSpec nab) (stPhase (nStatus nab)) (stPhase st'))
    as Hstay.
  { exists (nStatus nab). rewrite set_status_eta. split; [done | by left]. }
  destruct (getNonAdminBackupError env) as [e|]; [by destruct (IsNotFound e)|].
  rewrite Hs. unfold reconcileSteps. cbn [runSteps].
  destruct (decide (stPhase (nStatus nab) = constant_EmptyString)) as [Hp|Hp].
  { (* the phase is empty: [init] writes New, and the pass ends *)
    assert (∃ st', nonAdminBackups (srCluster (init env cl nab)) !! nab_key nab
                     = Some (set_status nab st') ∧
                   phase_step (ValidateBackupSpec nab) (stPhase (nStatus nab)) (stPhase st'))
      as Hinit.
    { destruct (stores_status_lookup _ _ _ _ (init_stores env cl nab) Hs) as [H|H].
      - rewrite H. exists (nStatus nab). rewrite set_status_eta. split; [done | by left].
      - rewrite H. eexists. split; [done|]. right; left. split; [done|].
        rewrite init_phase. by rewrite decide_True. }
    destruct (init_outcome env cl nab) as [Hnoop | (_ & _ & [[e He] | Hrq])].
    - exfalso. apply (f_equal (λ sr, stPhase (nStatus (srNab sr)))) in Hnoop.
      simpl in Hnoop. rewrite init_phase, decide_True in Hnoop by done.
      rewrite Hp in Hnoop. discriminate.
    - by rewrite He.
    - destruct (srError (init env cl nab)); [done|]. by rewrite Hrq. }
  rewrite (init_set env cl nab Hp). cbn [srError srRequeue srCluster srWrites srNab app].
  set (sr2 := validate env cl nab).
  pose proof (validateSpec_phase env cl nab) as Hp2. fold sr2 in Hp2.
  pose proof (validateSpec_frames env cl nab) as Hf2. fold sr2 in Hf2.
  assert (∃ st', nonAdminBackups (srCluster sr2) !! nab_key nab
                   = Some (set_status nab st') ∧
                 phase_step (ValidateBackupSpec nab) (stPhase (nStatus nab)) (stPhase st') ∧
                 (ValidateBackupSpec nab = None → stPhase st' = stPhase (nStatus nab)))
    as (st2 & Hs2 & Hstep2 & Hkeep2).
  { destruct (stores_status_lookup _ _ _ _ (validateSpec_stores env cl nab) Hs) as [H|H];
      fold sr2 in H.
    - exists (nStatus nab). rewrite set_status_eta. split; [done|]. split; [by left | done].
    - eexists. split; [exact H|]. rewrite Hp2.
      destruct (ValidateBackupSpec nab) as [err|].
      + split; [|discriminate]. right; right; left. eauto.
      + split; [by left | done]. }
  destruct (srError sr2) as [e|] eqn:He2; [eauto|].
  destruct (srRequeue sr2); [eauto|].
  assert (ValidateBackupSpec nab = None) as Hv.
  { destruct (ValidateBackupSpec nab) as [err|] eqn:Hv; [|done].
    destruct (validateSpec_invalid_error env cl nab err Hv) as [e He].
    fold sr2 in He. congruence. }
  set (sr3 := sync env (srCluster sr2) (srNab sr2)).
  assert (nab_key (srNab sr2) = nab_key nab) as Hk2 by (by apply frames_key).
  pose proof (sync_stores env (srCluster sr2) (srNab sr2)) as Hst3. fold sr3 in Hst3.
  rewrite <- Hk2 in Hs2.
  destruct (stores_status_lookup _ _ _ _ Hst3 Hs2) as [H|H]; rewrite Hk2 in H.
  - assert (rrCluster (match srError sr3 with
                       | Some err => mkReconcileResult (srCluster sr3)
                                       (srWrites sr2 ++ srWrites sr3) (mkResult false) (Some err)
                       | None => if srRequeue sr3
                                 then mkReconcileResult (srCluster sr3)
                                        (srWrites sr2 ++ srWrites sr3) (mkResult true) None
                                 else mkReconcileResult (srCluster sr3)
                                        (srWrites sr2 ++ srWrites sr3) (mkResult false) None
                       end) = srCluster sr3) as -> by (by repeat case_match).
    eauto.
  - assert (rrCluster (match srError sr3 with
                       | Some err => mkReconcileResult (srCluster sr3)
                                       (srWrites sr2 ++ srWrites sr3) (mkResult false) (Some err)
                       | None => if srRequeue sr3
                                 then mkReconcileResult (srCluster sr3)
                                        (srWrites sr2 ++ srWrites sr3) (mkResult true) None
                                 else mkReconcileResult (srCluster sr3)
                                        (srWrites sr2 ++ srWrites sr3) (mkResult false) None
                       end) = srCluster sr3) as -> by (by repeat case_match).
    rewrite H. eexists. split; [done|]. simpl.
    destruct (sync_phase env (srCluster sr2) (srNab sr2)) as [Hp3|Hp3];
      fold sr3 in Hp3; rewrite Hp3.
    + rewrite Hp2, Hv. by left.
    + right; right; right. done.
Qed.

(** Steps run one after the other on the object in memory, each in an
    environment of its own. *)
Fixpoint runAll (l : list (reconcileStepFunction * Env)) (cl : Cluster)
  (nab : NonAdminBackup) : Cluster * NonAdminBackup :=
  match l with
  | [] => (cl, nab)
  | (step, env) :: rest =>
      let sr := step env cl nab in runAll rest (srCluster sr) (srNab sr)
  end.

(** Passes of [Reconcile] for one request; before each pass the Velero side
    changes its Backups as it likes. *)
Fixpoint reconcileAll
  (world : list (Env * (gmap ObjectKey Backup → gmap ObjectKey Backup)))
  (cl : Cluster) (req : ObjectKey) : Cluster :=
  match world with
  | [] => cl
  | (env, velero) :: rest =>
      let cl := mkCluster (nonAdminBackups cl) (velero (veleroBackups cl)) in
      reconcileAll rest (rrCluster (reconcile env cl req)) req
  end.

(** Where the stored phase can be after any number of passes, the verdict
    of validation staying the same. *)
Definition phase_moves (verdict : option error) (p p' : NonAdminBackupPhase) : Prop :=
  p' = p ∨
  (p = constant_EmptyString ∧ p' = NonAdminBackupPhaseNew) ∨
  (p' = NonAdminBackupPhaseBackingOff ∧ is_Some verdict) ∨
  (p' = NonAdminBackupPhaseCreated ∧ verdict = None).

Lemma phase_step_moves verdict p p' : phase_step verdict p p' → phase_moves verdict p p'.
Proof. unfold phase_step, phase_moves. tauto. Qed.

Lemma phase_moves_trans verdict p q s :
  phase_moves verdict p q → phase_moves verdict q s → phase_moves verdict p s.
Proof.
  unfold phase_moves.
  intros [-> | [[-> ->] | [[-> Hv] | [-> Hv]]]] [-> | [[Hq ->] | [[-> Hv'] | [-> Hv']]]];
    try discriminate; tauto.
Qed.

Lemma step_phase step env cl nab :
  step ∈ steps →
  let p := stPhase (nStatus nab) in
  let p' := stPhase (nStatus (srNab (step env cl nab))) in
  p' = p ∨ (p = constant_EmptyString ∧ p' = NonAdminBackupPhaseNew) ∨
  p' = NonAdminBackupPhaseBackingOff ∨ p' = NonAdminBackupPhaseCreated.
Proof.
  unfold reconcileSteps. rewrite !elem_of_cons, elem_of_nil. cbv zeta.
  intros [-> | [-> | [-> | []]]].
  - rewrite init_phase. case_decide; auto.
  - rewrite validateSpec_phase. case_match; auto.
  - destruct (sync_phase env cl nab) as [-> | ->]; auto.
Qed.

Lemma runAll_phase (l : list (reconcileStepFunction * Env)) cl nab :
  (∀ step env, (step, env) ∈ l → step ∈ steps) →
  let p := stPhase (nStatus nab) in
  let p' := stPhase (nStatus (runAll l cl nab).2) in
  (p ≠ constant_EmptyString →
     p' = p ∨ p' = NonAdminBackupPhaseBackingOff ∨ p' = NonAdminBackupPhaseCreated) ∧
  (p = NonAdminBackupPhaseBackingOff ∨ p = NonAdminBackupPhaseCreated →
     p' = NonAdminBackupPhaseBackingOff ∨ p' = NonAdminBackupPhaseCreated).
Proof.
  revert cl nab. induction l as [|[step env] l IH]; intros cl nab Hl; cbv zeta.
  - simpl. split; [auto | tauto].
  - assert (step ∈ steps) as Hstep by (apply (Hl step env); left).
    assert (∀ step' env', (step', env') ∈ l → step' ∈ steps) as Hl'
      by (intros s' e' H'; apply (Hl s' e'); by right).
    destruct (IH (srCluster (step env cl nab)) (srNab (step env cl nab)) Hl') as [IH1 IH2].
    pose proof (step_phase step env cl nab Hstep) as Hp. cbv zeta in Hp.
    cbn [runAll]. cbv zeta in IH1, IH2. split.
    + intros Hne. destruct Hp as [Hp | [[Hp _] | [Hp | Hp]]].
      * rewrite Hp in IH1. auto.
      * done.
      * destruct IH2 as [-> | ->]; auto.
      * destruct IH2 as [-> | ->]; auto.
    + intros Hin. destruct Hp as [Hp | [[Hp _] | [Hp | Hp]]].
      * apply IH2. by rewrite Hp.
      * destruct Hin as [Hin | Hin]; rewrite Hin in Hp; discriminate.
      * auto.
      * auto.
Qed.

Lemma reconcileAll_phase world cl nab :
  (∀ st, ValidateBackupSpec (set_status nab st) = ValidateBackupSpec nab) →
  nonAdminBackups cl !! nab_key nab = Some nab →
  ∃ st', nonAdminBackups (reconcileAll world cl (nab_key nab)) !! nab_key nab
           = Some (set_status nab st') ∧
         phase_moves (ValidateBackupSpec nab) (stPhase (nStatus nab)) (stPhase st').
Proof.
  intros Hverdict.
  assert (∀ st cl, nonAdminBackups cl !! nab_key nab = Some (set_status nab st) →
            ∃ st', nonAdminBackups (reconcileAll world cl (nab_key nab)) !! nab_key nab
                     = Some (set_status nab st') ∧
                   phase_moves (ValidateBackupSpec nab) (stPhase st) (stPhase st')) as Hgen.
  { induction world as [|[env velero] world IH]; intros st cl0 Hs; simpl.
    - exists st. split; [done | by left].
    - set (cl1 := mkCluster (nonAdminBackups cl0) (velero (veleroBackups cl0))).
      destruct (Reconcile_phase_step env cl1 (set_status nab st) Hs) as (st1 & Hs1 & Hstep).
      change (nab_key (set_status nab st)) with (nab_key nab) in Hs1.
      change (set_status (set_status nab st) st1) with (set_status nab st1) in Hs1.
      rewrite Hverdict in Hstep. simpl in Hstep.
      destruct (IH st1 _ Hs1) as (st' & Hs' & Hmoves).
      exists st'. split; [done|].
      eapply phase_moves_trans; [by apply phase_step_moves | done]. }
  intros Hs. apply (Hgen (nStatus nab) cl). by rewrite set_status_eta.
Qed.

(** C3, as the code has it: [init] never rewrites a phase that is set.  Over
    any sequence of step executions a phase that is set is never emptied and
    never goes back to New: it stays, or becomes BackingOff or Created, and
    from BackingOff or Created it stays within these two.  Over any sequence
    of [Reconcile] passes on a stored request whose validation verdict stays
    the same, whatever happens to the Backups in between, the stored phase
    moves forward along New → Created (accepted) or New → BackingOff
    (rejected) and then stays. *)
Theorem phase_moves_forward :
  (∀ env cl nab, stPhase (nStatus nab) ≠ constant_EmptyString →
     init env cl nab = mkStepResult nab cl [] false None) ∧
  (∀ (l : list (reconcileStepFunction * Env)) cl nab,
     (∀ step env, (step, env) ∈ l → step ∈ steps) →
     let p := stPhase (nStatus nab) in
     let p' := stPhase (nStatus (runAll l cl nab).2) in
     (p ≠ constant_EmptyString →
        p' = p ∨ p' = NonAdminBackupPhaseBackingOff ∨ p' = NonAdminBackupPhaseCreated) ∧
     (p = NonAdminBackupPhaseBackingOff ∨ p = NonAdminBackupPhaseCreated →
        p' = NonAdminBackupPhaseBackingOff ∨ p' = NonAdminBackupPhaseCreated)) ∧
  (∀ world cl nab,
     (∀ st, ValidateBackupSpec (set_status nab st) = ValidateBackupSpec nab) →
     nonAdminBackups cl !! nab_key nab = Some nab →
     ∃ st', nonAdminBackups (reconcileAll world cl (nab_key nab)) !! nab_key nab
              = Some (set_status nab st') ∧
       let p := stPhase (nStatus nab) in
       let p' := stPhase st' in
       phase_moves (ValidateBackupSpec nab) p p' ∧
       (p = NonAdminBackupPhaseNew →
          p' = NonAdminBackupPhaseNew ∨
          (p' = NonAdminBackupPhaseBackingOff ∧ is_Some (ValidateBackupSpec nab)) ∨
          (p' = NonAdminBackupPhaseCreated ∧ ValidateBackupSpec nab = None)) ∧
       (p = NonAdminBackupPhaseBackingOff → is_Some (ValidateBackupSpec nab) →
          p' = NonAdminBackupPhaseBackingOff) ∧
       (p = NonAdminBackupPhaseCreated → ValidateBackupSpec nab = None →
          p' = NonAdminBackupPhaseCreated)).
Proof.
  split; [apply init_set|]. split; [apply runAll_phase|].
  intros world cl nab Hverdict Hs.
  destruct (reconcileAll_phase world cl nab Hverdict Hs) as (st' & Hs' & Hmoves).
  exists st'. split; [done|]. cbv zeta. split; [done|].
  unfold phase_moves in Hmoves. split; [|split].
  - intros Hp. rewrite Hp in Hmoves.
    destruct Hmoves as [-> | [[[=] _] | [? | ?]]]; auto.
  - intros Hp [e He]. rewrite Hp, He in Hmoves.
    destruct Hmoves as [-> | [[[=] _] | [[-> _] | [_ [=]]]]]; done.
  - intros Hp He. rewrite Hp, He in Hmoves.
    destruct Hmoves as [-> | [[[=] _] | [[_ [? [=]]] | [-> _]]]]; done.
Qed.

(** *** One pass of [Reconcile], step by step *)

(** What [Reconcile] returns when the loop ends at the step that gave
    [sr]. *)
Definition stopped (sr : StepResult) : ReconcileResult :=
  mkReconcileResult (srCluster sr) (srWrites sr)
    (mkResult (match srError sr with Some _ => false | None => srRequeue sr end))
    (srError sr).

Lemma init_continues env cl nab :
  srError (init env cl nab) = None → srRequeue (init env cl nab) = false →
  init env cl nab = mkStepResult nab cl [] false None ∧
  stPhase (nStatus nab) ≠ constant_EmptyString.
Proof.
  intros Herr Hrq.
  destruct (decide (stPhase (nStatus nab) = constant_EmptyString)) as [Hp|Hp].
  - exfalso. revert Herr Hrq. unfold init. rewrite decide_True by done.
    rewrite Hp. simpl. destruct (Status_Update _ _ _) as [? [?|]]; simpl; congruence.
  - split; [by apply init_set | done].
Qed.

Lemma validateSpec_continues env cl nab :
  srError (validate env cl nab) = None → srRequeue (validate env cl nab) = false →
  validate env cl nab = mkStepResult nab cl [] false None ∧
  ValidateBackupSpec nab = None ∧ acceptedRecorded (nStatus nab).
Proof.
  intros Herr Hrq.
  destruct (ValidateBackupSpec nab) as [err|] eqn:Hv.
  { destruct (validateSpec_invalid_error env cl nab err Hv) as [e He]. congruence. }
  assert (acceptedRecorded (nStatus nab)) as Hacc.
  { apply (SetStatusCondition_unchanged (now env) (stConditions (nStatus nab)) acceptedTrue).
    revert Herr Hrq. unfold validateSpec. rewrite Hv.
    destruct (SetStatusCondition _ _ _) as [cs' u]. simpl.
    destruct u; [|done].
    destruct (Status_Update _ _ _) as [? [?|]]; simpl; congruence. }
  split; [by apply validateSpec_settled | done].
Qed.

Lemma init_writes env cl nab :
  srWrites (init env cl nab) = [] ∨
  srWrites (init env cl nab) = [WriteStatusUpdate (srNab (init env cl nab))] ∧
  srError (init env cl nab) = None ∧ srRequeue (init env cl nab) = true.
Proof. unfold init. repeat case_match; simpl; auto. Qed.

Lemma validateSpec_writes env cl nab :
  srWrites (validate env cl nab) = [] ∨
  srWrites (validate env cl nab) = [WriteStatusUpdate (srNab (validate env cl nab))] ∧
  (is_Some (srError (validate env cl nab)) ∨ srRequeue (validate env cl nab) = true).
Proof. unfold validateSpec. repeat case_match; simpl; eauto. Qed.

(** The Backups after the synchronisation: as before, or with the Backup the
    step built stored under the generated name, which was free. *)
Lemma sync_backups env cl nab :
  let name := GenerateVeleroBackupName (mNamespace (nObjectMeta nab))
                (mName (nObjectMeta nab)) in
  let sr := sync env cl nab in
  (veleroBackups (srCluster sr) = veleroBackups cl ∧
   (srWrites sr = [] ∨ srWrites sr = [WriteStatusUpdate (srNab sr)])) ∨
  (veleroBackups cl !! (OADPNamespace r, name) = None ∧
   veleroBackups (srCluster sr) = <[(OADPNamespace r, name) := build name nab]> (veleroBackups cl) ∧
   (srWrites sr = [WriteCreate (build name nab)] ∨
    srWrites sr = [WriteCreate (build name nab); WriteStatusUpdate (srNab sr)])).
Proof.
  cbv zeta. unfold syncVeleroBackupWithNonAdminBackup.
  destruct (decide _) as [|Hname]; [left; simpl; auto|].
  destruct (Get_Backup _ _ _) as [err|found].
  - destruct (negb (IsNotFound err)); [left; simpl; auto|].
    destruct (Create_Backup _ _ _) as [cl' [e|]] eqn:HC.
    + left. simpl. unfold Create_Backup in HC. repeat case_match; simplify_eq; auto.
    + apply Create_Backup_ok in HC as (_ & Hnone & ->). right.
      split; [exact Hnone|]. rewrite syncStatus_veleroBackups. split; [done|].
      match goal with |- context [syncStatus ?e ?c ?w ?n ?b] =>
        destruct (syncStatus_writes e c w n b) as [-> | ->] end; auto.
  - left. rewrite syncStatus_veleroBackups. split; [done|].
    destruct (syncStatus_writes env cl [] nab found) as [-> | ->]; auto.
Qed.

(** A pass ends at the first step that returns an error or asks for a
    requeue, the earlier steps having done nothing; or it runs through to the
    synchronisation. *)
Lemma Reconcile_cases env cl req :
  (∃ o, reconcile env cl req = mkReconcileResult cl [] (mkResult false) o ∧
        (getNonAdminBackupError env = None → nonAdminBackups cl !! req = None ∧ o = None)) ∨
  ∃ nab, getNonAdminBackupError env = None ∧ nonAdminBackups cl !! req = Some nab ∧
    (reconcile env cl req = stopped (init env cl nab) ∧
     stPhase (nStatus nab) = constant_EmptyString ∨
     stPhase (nStatus nab) ≠ constant_EmptyString ∧
     reconcile env cl req = stopped (validate env cl nab) ∧
     (is_Some (srError (validate env cl nab)) ∨ srRequeue (validate env cl nab) = true) ∨
     stPhase (nStatus nab) ≠ constant_EmptyString ∧
     ValidateBackupSpec nab = None ∧ acceptedRecorded (nStatus nab) ∧
     reconcile env cl req = stopped (sync env cl nab)).
Proof.
  unfold Reconcile, Get_NonAdminBackup.
  destruct (getNonAdminBackupError env) as [e|] eqn:Hg.
  { left. destruct (IsNotFound e); eexists; (split; [done | discriminate]). }
  destruct (nonAdminBackups cl !! req) as [nab|] eqn:Hs.
  2: { left. simpl. eexists. split; [done | done]. }
  right. exists nab. split; [done|]. split; [done|].
  unfold reconcileSteps. cbn [runSteps].
  destruct (decide (stPhase (nStatus nab) = constant_EmptyString)) as [Hp|Hp].
  { left. split; [|done]. unfold stopped.
    destruct (srError (init env cl nab)) as [e|] eqn:He; [done|].
    destruct (srRequeue (init env cl nab)) eqn:Hrq; [done|].
    destruct (init_continues env cl nab He Hrq) as [_ Hne]. done. }
  right. rewrite (init_set env cl nab Hp).
  cbn [srError srRequeue srCluster srWrites srNab app].
  destruct (srError (validate env cl nab)) as [e|] eqn:He.
  { left. split; [done|]. unfold stopped. rewrite He. split; [done | left; eauto]. }
  destruct (srRequeue (validate env cl nab)) eqn:Hrq.
  { left. split; [done|]. unfold stopped. rewrite He, Hrq. split; [done | by right]. }
  right. destruct (validateSpec_continues env cl nab He Hrq) as (Hnoop & Hv & Hacc).
  split; [done|]. split; [done|]. split; [done|].
  rewrite Hnoop. cbn [srError srRequeue srCluster srWrites srNab app].
  unfold stopped. rewrite (sync_never_requeues env cl nab).
  by destruct (srError (sync env cl nab)).
Qed.

Lemma stopped_init_backups env cl nab :
  veleroBackups (rrCluster (stopped (init env cl nab))) = veleroBackups cl ∧
  ∀ b, WriteCreate b ∉ rrWrites (stopped (init env cl nab)).
Proof.
  split; [apply init_veleroBackups|]. simpl. intros b Hb.
  destruct (init_writes env cl nab) as [Hw | (Hw & _)]; rewrite Hw in Hb.
  - by apply elem_of_nil in Hb.
  - by apply list_elem_of_singleton in Hb.
Qed.

Lemma stopped_validateSpec_backups env cl nab :
  veleroBackups (rrCluster (stopped (validate env cl nab))) = veleroBackups cl ∧
  ∀ b, WriteCreate b ∉ rrWrites (stopped (validate env cl nab)).
Proof.
  split; [apply validateSpec_veleroBackups|]. simpl. intros b Hb.
  destruct (validateSpec_writes env cl nab) as [Hw | (Hw & _)]; rewrite Hw in Hb.
  - by apply elem_of_nil in Hb.
  - by apply list_elem_of_singleton in Hb.
Qed.

(** What one pass does to the Backups: those that exist stay as they are; a
    new one, if any, is the Backup built from the request, stored under the
    generated name, and logged as created. *)
Lemma Reconcile_backups env cl req :
  let rr := reconcile env cl req in
  (veleroBackups (rrCluster rr) = veleroBackups cl ∧ ∀ b, WriteCreate b ∉ rrWrites rr) ∨
  ∃ nab, nonAdminBackups cl !! req = Some nab ∧
    let name := GenerateVeleroBackupName (mNamespace (nObjectMeta nab))
                  (mName (nObjectMeta nab)) in
    veleroBackups cl !! (OADPNamespace r, name) = None ∧
    veleroBackups (rrCluster rr)
      = <[(OADPNamespace r, name) := build name nab]> (veleroBackups cl) ∧
    WriteCreate (build name nab) ∈ rrWrites rr.
Proof.
  cbv zeta.
  destruct (Reconcile_cases env cl req)
    as [(o & -> & _) | (nab & Hg & Hs & [[-> _] | [(_ & -> & _) | (_ & _ & _ & ->)]])].
  - left. simpl. split; [done|]. intros b Hb. by apply elem_of_nil in Hb.
  - left. apply stopped_init_backups.
  - left. apply stopped_validateSpec_backups.
  - destruct (sync_backups env cl nab) as [(Hvb & Hw) | (Hnone & Hvb & Hw)].
    + left. simpl. split; [done|]. intros b Hb.
      destruct Hw as [Hw | Hw]; rewrite Hw in Hb.
      * by apply elem_of_nil in Hb.
      * by apply list_elem_of_singleton in Hb.
    + right. exists nab. split; [done|]. split; [done|]. split; [done|]. simpl.
      destruct Hw as [-> | ->]; left.
Qed.

(** X2: a pass never changes or deletes a Velero Backup that exists; the
    only Backup it can add is the one built from the reconciled request,
    under the generated name in the OADP namespace. *)
Theorem Reconcile_keeps_backups env cl req :
  let rr := reconcile env cl req in
  (∀ k b, veleroBackups cl !! k = Some b → veleroBackups (rrCluster rr) !! k = Some b) ∧
  (∀ k b, veleroBackups cl !! k = None → veleroBackups (rrCluster rr) !! k = Some b →
     ∃ nab, nonAdminBackups cl !! req = Some nab ∧
       k = (OADPNamespace r,
            GenerateVeleroBackupName (mNamespace (nObjectMeta nab)) (mName (nObjectMeta nab))) ∧
       b = build (GenerateVeleroBackupName (mNamespace (nObjectMeta nab))
                    (mName (nObjectMeta nab))) nab ∧
       WriteCreate b ∈ rrWrites rr).
Proof.
  cbv zeta.
  destruct (Reconcile_backups env cl req) as [(-> & _) | (nab & Hs & Hnone & -> & Hw)].
  - split; [done|]. intros k b Hk Hk'. congruence.
  - split.
    + intros k b Hk. rewrite lookup_insert_ne; [done|]. intros <-. congruence.
    + intros k b Hk Hk'. exists nab. split; [done|].
      destruct (decide ((OADPNamespace r,
                  GenerateVeleroBackupName (mNamespace (nObjectMeta nab))
                    (mName (nObjectMeta nab))) = k)) as [<-|Hne].
      * rewrite lookup_insert_eq in Hk'. injection Hk' as <-. done.
      * rewrite lookup_insert_ne in Hk' by done. congruence.
Qed.

(** The stored requests after a step that [stores_status]. *)
Lemma stores_status_frame cl nab sr k :
  stores_status cl nab sr →
  (nonAdminBackups cl !! k = None → nonAdminBackups (srCluster sr) !! k = None) ∧
  (∀ n, nonAdminBackups cl !! k = Some n →
     ∃ st, nonAdminBackups (srCluster sr) !! k = Some (set_status n st)) ∧
  (k ≠ nab_key nab → nonAdminBackups (srCluster sr) !! k = nonAdminBackups cl !! k).
Proof.
  intros [-> | (stored & Hs & ->)].
  - split; [done|]. split; [|done]. intros n Hn. exists (nStatus n).
    by rewrite set_status_eta.
  - destruct (decide (nab_key nab = k)) as [<-|Hne].
    + rewrite lookup_insert_eq. split; [congruence|]. split; [|done].
      intros n Hn. assert (n = stored) as -> by congruence. eauto.
    + rewrite lookup_insert_ne by done. split; [done|]. split; [|done].
      intros n Hn. exists (nStatus n). by rewrite set_status_eta.
Qed.

(** X3: a pass writes statuses only.  It adds no request and removes none,
    leaves metadata and spec of every stored request as they are, and leaves
    every request but the one it loaded untouched. *)
Theorem Reconcile_writes_status_only env cl req k :
  let after := nonAdminBackups (rrCluster (reconcile env cl req)) in
  (nonAdminBackups cl !! k = None → after !! k = None) ∧
  (∀ n, nonAdminBackups cl !! k = Some n → ∃ st, after !! k = Some (set_status n st)) ∧
  (∀ nab, nonAdminBackups cl !! req = Some nab → k ≠ nab_key nab →
     after !! k = nonAdminBackups cl !! k).
Proof.
  cbv zeta.
  destruct (Reconcile_cases env cl req)
    as [(o & -> & _) | (nab & Hg & Hs & [[-> _] | [(_ & -> & _) | (_ & _ & _ & ->)]])].
  - simpl. split; [done|]. split; [|done]. intros n Hn. exists (nStatus n).
    by rewrite set_status_eta.
  - destruct (stores_status_frame cl nab _ k (init_stores env cl nab)) as (H1 & H2 & H3).
    split; [done|]. split; [done|]. intros nab' Hs' Hk.
    assert (nab' = nab) as -> by congruence. by apply H3.
  - destruct (stores_status_frame cl nab _ k (validateSpec_stores env cl nab))
      as (H1 & H2 & H3).
    split; [done|]. split; [done|]. intros nab' Hs' Hk.
    assert (nab' = nab) as -> by congruence. by apply H3.
  - destruct (stores_status_frame cl nab _ k (sync_stores env cl nab)) as (H1 & H2 & H3).
    split; [done|]. split; [done|]. intros nab' Hs' Hk.
    assert (nab' = nab) as -> by congruence. by apply H3.
Qed.

(** X4: a pass makes at most one create and at most one status update, the
    create first; it never returns an error together with a requeue, and it
    asks for a requeue only after a status update that succeeded, having
    created nothing. *)
Theorem Reconcile_writes_shape env cl req :
  let rr := reconcile env cl req in
  (rrWrites rr = [] ∨ (∃ n, rrWrites rr = [WriteStatusUpdate n]) ∨
   (∃ b, rrWrites rr = [WriteCreate b]) ∨
   (∃ b n, rrWrites rr = [WriteCreate b; WriteStatusUpdate n])) ∧
  (is_Some (rrError rr) → Requeue (rrResult rr) = false) ∧
  (Requeue (rrResult rr) = true →
     rrError rr = None ∧ ∃ n, rrWrites rr = [WriteStatusUpdate n]).
Proof.
  cbv zeta.
  destruct (Reconcile_cases env cl req)
    as [(o & -> & _) | (nab & Hg & Hs & [[-> _] | [(_ & -> & _) | (_ & _ & _ & ->)]])];
    unfold stopped; simpl.
  - split; [by left|]. split; [done | discriminate].
  - split.
    { destruct (init_writes env cl nab) as [-> | (-> & _)]; eauto. }
    split; [by intros [e ->]|].
    destruct (srError (init env cl nab)) eqn:He; [discriminate|]. intros Hrq.
    split; [done|].
    destruct (init_writes env cl nab) as [Hw | (-> & _)]; [|eauto].
    exfalso. revert Hw Hrq. unfold init. repeat case_match; simpl; congruence.
  - split.
    { destruct (validateSpec_writes env cl nab) as [-> | (-> & _)]; eauto. }
    split; [by intros [e ->]|].
    destruct (srError (validate env cl nab)) eqn:He; [discriminate|]. intros Hrq.
    split; [done|].
    destruct (validateSpec_writes env cl nab) as [Hw | (-> & _)]; [|eauto].
    exfalso. revert Hw Hrq. unfold validateSpec. repeat case_match; simpl; congruence.
  - split.
    { destruct (sync_backups env cl nab) as [(_ & [-> | ->]) | (_ & _ & [-> | ->])];
        eauto 6. }
    split; [by intros [e ->]|].
    rewrite sync_never_requeues. by destruct (srError _).
Qed.

(** *** Validation of an accepted request *)

(** X5: for a request that validation accepts, [validateSpec] leaves the
    Accepted condition True with reason [BackupAccepted], and phase and
    reference as they were.  When the request already records this, the step
    does nothing.  Otherwise it writes the status and asks for a requeue; if
    that write fails it returns the write's error, without requeue, the
    cluster unchanged. *)
Theorem validateSpec_valid env cl nab :
  ValidateBackupSpec nab = None →
  let sr := validate env cl nab in
  acceptedRecorded (nStatus (srNab sr)) ∧
  stPhase (nStatus (srNab sr)) = stPhase (nStatus nab) ∧
  stVeleroBackup (nStatus (srNab sr)) = stVeleroBackup (nStatus nab) ∧
  (acceptedRecorded (nStatus nab) → sr = mkStepResult nab cl [] false None) ∧
  (¬ acceptedRecorded (nStatus nab) →
     (∀ stored, updateError env = None →
        nonAdminBackups cl !! nab_key nab = Some stored →
        srWrites sr = [WriteStatusUpdate (srNab sr)] ∧
        srCluster sr =
          mkCluster (<[nab_key nab := set_status stored (nStatus (srNab sr))]>
                       (nonAdminBackups cl)) (veleroBackups cl) ∧
        srRequeue sr = true ∧ srError sr = None) ∧
     (∀ e, updateError env = Some e →
        srWrites sr = [] ∧ srCluster sr = cl ∧ srRequeue sr = false ∧
        srError sr = Some e)).
Proof.
  intros Hv sr.
  pose proof (SetStatusCondition_found (now env) (stConditions (nStatus nab)) acceptedTrue)
    as Hfound.
  pose proof (SetStatusCondition_unchanged (now env) (stConditions (nStatus nab)) acceptedTrue)
    as Hun.
  assert (srNab sr = set_status nab (set_conditions (nStatus nab)
            (SetStatusCondition (now env) (stConditions (nStatus nab)) acceptedTrue).1))
    as Hnab.
  { unfold sr, validateSpec. rewrite Hv.
    destruct (SetStatusCondition _ _ _) as [cs' u]. simpl.
    destruct u; [|done]. by destruct (Status_Update _ _ _) as [? [?|]]. }
  split; [by rewrite Hnab|]. split; [by rewrite Hnab|]. split; [by rewrite Hnab|].
  split; [intros Hacc; by apply validateSpec_settled|].
  intros Hnot.
  assert ((SetStatusCondition (now env) (stConditions (nStatus nab)) acceptedTrue).2 = true)
    as Hchanged.
  { destruct (SetStatusCondition _ _ _).2 eqn:E; [done|]. exfalso. by apply Hnot, Hun. }
  split.
  - intros stored He Hs. rewrite Hnab. unfold sr, validateSpec. rewrite Hv.
    destruct (SetStatusCondition _ _ _) as [cs' u]. simpl in *. subst u.
    by rewrite (Status_Update_present env cl
                  (set_status nab (set_conditions (nStatus nab) cs')) stored He Hs).
  - intros e He. unfold sr, validateSpec. rewrite Hv.
    destruct (SetStatusCondition _ _ _) as [cs' u]. simpl in *. subst u.
    unfold Status_Update. by rewrite He.
Qed.

(** *** Catching up with a Backup that exists *)

(** X6: the Backup exists but the request does not record it yet (a pass
    created it and died before the status write).  The synchronisation
    creates nothing; it records phase Created, Queued True and the
    reference, keeps the snapshot the reference had, persists, and returns
    without requeue and without error. *)
Theorem sync_catches_up env cl nab b stored :
  let name := GenerateVeleroBackupName (mNamespace (nObjectMeta nab))
                (mName (nObjectMeta nab)) in
  name ≠ constant_EmptyString →
  getBackupError env = None →
  veleroBackups cl !! (OADPNamespace r, name) = Some b →
  ¬ bookkeepingComplete (nStatus nab) b →
  updateError env = None →
  nonAdminBackups cl !! nab_key nab = Some stored →
  let sr := sync env cl nab in
  srWrites sr = [WriteStatusUpdate (srNab sr)] ∧
  veleroBackups (srCluster sr) = veleroBackups cl ∧
  nonAdminBackups (srCluster sr) =
    <[nab_key nab := set_status stored (nStatus (srNab sr))]> (nonAdminBackups cl) ∧
  bookkeepingComplete (nStatus (srNab sr)) b ∧
  stVeleroBackup (nStatus (srNab sr)) ≫= vStatus = stVeleroBackup (nStatus nab) ≫= vStatus ∧
  srRequeue sr = false ∧ srError sr = None.
Proof.
  intros name Hname Hg Hb Hnot He Hs sr.
  assert (sr = persist env cl [] (set_status nab (bookkeptStatus (now env) nab b))) as Hsr.
  { unfold sr. rewrite (sync_found env cl nab b Hname Hg Hb), syncStatus_unfold.
    rewrite bool_decide_eq_false_2; [done|].
    intros Heq. apply Hnot. by apply (bookkeptStatus_same (now env)). }
  rewrite (persist_ok env cl [] (set_status nab (bookkeptStatus (now env) nab b))
             stored He Hs) in Hsr.
  rewrite Hsr. simpl.
  split; [done|]. split; [done|]. split; [done|].
  split; [apply bookkeptStatus_complete|].
  split; [|done].
  destruct (bookkeptStatus_reference (now env) nab b) as (v' & -> & _ & _ & Hv). done.
Qed.

(** *** The conditions of the request *)

Lemma FindStatusCondition_store_other cs t c' t' :
  cType c' = t → t' ≠ t →
  FindStatusCondition (storeCondition cs t c') t' = FindStatusCondition cs t'.
Proof.
  intros Hc Hne. induction cs as [|c0 cs IH]; simpl; [done|].
  destruct (decide (cType c0 = t)) as [H0|H0]; simpl.
  - rewrite !decide_False; [done | congruence | congruence].
  - by rewrite IH.
Qed.

Lemma FindStatusCondition_append_other cs c t' :
  cType c ≠ t' →
  FindStatusCondition (cs ++ [c]) t' = FindStatusCondition cs t'.
Proof.
  intros Hne. induction cs as [|c0 cs IH]; simpl.
  - by rewrite decide_False.
  - by rewrite IH.
Qed.

Lemma storeCondition_types cs t c' :
  cType c' = t → cType <$> storeCondition cs t c' = cType <$> cs.
Proof.
  intros Hc. induction cs as [|c0 cs IH]; simpl; [done|].
  destruct (decide (cType c0 = t)) as [H0|H0].
  - rewrite !fmap_cons. by rewrite Hc, H0.
  - rewrite !fmap_cons. by rewrite IH.
Qed.

Lemma FindStatusCondition_None cs t :
  FindStatusCondition cs t = None ↔ t ∉ cType <$> cs.
Proof.
  induction cs as [|c0 cs IH]; simpl.
  - split; [intros _ H; by apply elem_of_nil in H | done].
  - rewrite not_elem_of_cons. destruct (decide (cType c0 = t)) as [H0|H0].
    + split; [discriminate | intros [Hne _]; congruence].
    + rewrite IH. split; [intros H; split; [congruence | done] | tauto].
Qed.

(** The condition that [SetStatusCondition] writes back or appends has the
    type of the new condition, and the types of the list are those it had,
    with the new type at the end when it was missing. *)
Lemma SetStatusCondition_types t cs nc :
  cType <$> (SetStatusCondition t cs nc).1 =
  match FindStatusCondition cs (cType nc) with
  | Some _ => cType <$> cs
  | None => ((cType <$> cs) ++ [cType nc])%list
  end.
Proof.
  unfold SetStatusCondition.
  destruct (FindStatusCondition cs (cType nc)) as [e|] eqn:Hf.
  - pose proof (FindStatusCondition_type _ _ _ Hf) as Ht.
    repeat case_decide; simpl; by apply storeCondition_types.
  - simpl. rewrite fmap_app. simpl. by destruct (Time_IsZero _).
Qed.

Lemma SetStatusCondition_other t cs nc t' :
  t' ≠ cType nc →
  FindStatusCondition (SetStatusCondition t cs nc).1 t' = FindStatusCondition cs t'.
Proof.
  intros Hne. unfold SetStatusCondition.
  destruct (FindStatusCondition cs (cType nc)) as [e|] eqn:Hf.
  - pose proof (FindStatusCondition_type _ _ _ Hf) as Ht.
    repeat case_decide; simpl; by apply FindStatusCondition_store_other.
  - simpl. apply FindStatusCondition_append_other.
    destruct (Time_IsZero _); simpl; congruence.
Qed.

Lemma SetStatusCondition_keyed t cs nc :
  (cType <$> cs) `prefix_of` (cType <$> (SetStatusCondition t cs nc).1) ∧
  (NoDup (cType <$> cs) → NoDup (cType <$> (SetStatusCondition t cs nc).1)).
Proof.
  rewrite SetStatusCondition_types.
  destruct (FindStatusCondition cs (cType nc)) as [e|] eqn:Hf.
  - split; [done|done].
  - split; [by apply prefix_app_r|]. intros Hnd.
    apply NoDup_app. split; [done|]. split; [|apply NoDup_singleton].
    intros x Hx Hx'. apply list_elem_of_singleton in Hx' as ->.
    by apply FindStatusCondition_None in Hf.
Qed.

(** The conditions a step leaves in memory: those it found, or those after
    setting its own condition. *)
Lemma init_conditions env cl nab :
  stConditions (nStatus (srNab (init env cl nab))) = stConditions (nStatus nab).
Proof. unfold init. repeat case_match; done. Qed.

Lemma validateSpec_conditions env cl nab :
  ∃ nc, cType nc = NonAdminConditionAccepted ∧
    stConditions (nStatus (srNab (validate env cl nab)))
      = (SetStatusCondition (now env) (stConditions (nStatus nab)) nc).1.
Proof.
  unfold validateSpec. destruct (ValidateBackupSpec nab) as [err|].
  - exists (acceptedFalse err). split; [done|].
    destruct (updateNonAdminPhase _ _) as [p u]. simpl.
    destruct (SetStatusCondition _ _ _) as [cs' uc]. simpl.
    repeat case_match; done.
  - exists acceptedTrue. split; [done|].
    destruct (SetStatusCondition _ _ _) as [cs' uc]. simpl.
    repeat case_match; done.
Qed.

Lemma sync_conditions env cl nab :
  stConditions (nStatus (srNab (sync env cl nab))) = stConditions (nStatus nab) ∨
  stConditions (nStatus (srNab (sync env cl nab)))
    = (SetStatusCondition (now env) (stConditions (nStatus nab)) queuedTrue).1.
Proof.
  assert (∀ cl' ws b,
            stConditions (nStatus (srNab (syncStatus env cl' ws nab b)))
              = stConditions (nStatus nab) ∨
            stConditions (nStatus (srNab (syncStatus env cl' ws nab b)))
              = (SetStatusCondition (now env) (stConditions (nStatus nab)) queuedTrue).1)
    as Hss.
  { intros cl' ws b. rewrite syncStatus_unfold.
    destruct (bool_decide (bookkeptStatus _ _ _ = _)).
    - left. destruct (bool_decide (snapshotStatus _ _ = _)); [done|].
      destruct (persist_outcome env cl' ws (set_status nab (snapshotStatus nab b))) as [-> _].
      simpl. unfold snapshotStatus.
      by destruct (updateSnapshot_fields (nStatus nab) b) as (_ & -> & _).
    - right.
      destruct (persist_outcome env cl' ws
                  (set_status nab (bookkeptStatus (now env) nab b))) as [-> _].
      simpl. unfold bookkeptStatus.
      match goal with |- context [updateNonAdminBackupVeleroBackupReference ?s b] =>
        by destruct (updateReference_fields s b) as (_ & -> & _) end. }
  unfold syncVeleroBackupWithNonAdminBackup.
  repeat case_match; simpl; auto.
Qed.

(** X7: the steps keep the conditions keyed by type and do not touch each
    other's: [init] leaves the conditions alone, [validateSpec] leaves every
    condition but Accepted as it was, the synchronisation every condition but
    Queued; no step removes or reorders a condition, and none introduces a
    second condition of a type. *)
Theorem steps_keep_conditions env cl nab :
  let cs := stConditions (nStatus nab) in
  stConditions (nStatus (srNab (init env cl nab))) = cs ∧
  (∀ ty, ty ≠ NonAdminConditionAccepted →
     FindStatusCondition (stConditions (nStatus (srNab (validate env cl nab)))) ty
       = FindStatusCondition cs ty) ∧
  (∀ ty, ty ≠ NonAdminConditionQueued →
     FindStatusCondition (stConditions (nStatus (srNab (sync env cl nab)))) ty
       = FindStatusCondition cs ty) ∧
  (∀ step, step ∈ steps →
     (cType <$> cs) `prefix_of` (cType <$> stConditions (nStatus (srNab (step env cl nab)))) ∧
     (NoDup (cType <$> cs) →
        NoDup (cType <$> stConditions (nStatus (srNab (step env cl nab)))))).
Proof.
  cbv zeta. split; [apply init_conditions|]. split; [|split].
  - intros ty Hty. destruct (validateSpec_conditions env cl nab) as (nc & Hnc & ->).
    apply SetStatusCondition_other. congruence.
  - intros ty Hty. destruct (sync_conditions env cl nab) as [-> | ->]; [done|].
    by apply SetStatusCondition_other.
  - intros step. unfold reconcileSteps. rewrite !elem_of_cons, elem_of_nil.
    intros [-> | [-> | [-> | []]]].
    + by rewrite init_conditions.
    + destruct (validateSpec_conditions env cl nab) as (nc & Hnc & ->).
      apply SetStatusCondition_keyed.
    + destruct (sync_conditions env cl nab) as [-> | ->]; [done|].
      apply SetStatusCondition_keyed.
Qed.

(** *** Which step a pass runs *)

Lemma Reconcile_at_init env cl req nab :
  getNonAdminBackupError env = None → nonAdminBackups cl !! req = Some nab →
  stPhase (nStatus nab) = constant_EmptyString →
  reconcile env cl req = stopped (init env cl nab).
Proof.
  intros Hg Hs Hp.
  destruct (Reconcile_cases env cl req)
    as [(o & _ & Hnone) | (nab' & _ & Hs' & Hcases)].
  { destruct (Hnone Hg) as [Hnone' _]. congruence. }
  assert (nab' = nab) as -> by congruence.
  destruct Hcases as [[-> _] | [(Hne & _) | (Hne & _)]]; done.
Qed.

Lemma Reconcile_at_validate env cl req nab :
  getNonAdminBackupError env = None → nonAdminBackups cl !! req = Some nab →
  stPhase (nStatus nab) ≠ constant_EmptyString →
  is_Some (ValidateBackupSpec nab) ∨ ¬ acceptedRecorded (nStatus nab) →
  reconcile env cl req = stopped (validate env cl nab).
Proof.
  intros Hg Hs Hp Hwhy.
  destruct (Reconcile_cases env cl req)
    as [(o & _ & Hnone) | (nab' & _ & Hs' & Hcases)].
  { destruct (Hnone Hg) as [Hnone' _]. congruence. }
  assert (nab' = nab) as -> by congruence.
  destruct Hcases as [[_ Hempty] | [(_ & -> & _) | (_ & Hv & Hacc & _)]]; [done | done |].
  destruct Hwhy as [[e He] | Hnot]; [congruence | done].
Qed.

Lemma Reconcile_at_sync env cl req nab :
  getNonAdminBackupError env = None → nonAdminBackups cl !! req = Some nab →
  stPhase (nStatus nab) ≠ constant_EmptyString →
  ValidateBackupSpec nab = None → acceptedRecorded (nStatus nab) →
  reconcile env cl req = stopped (sync env cl nab).
Proof.
  intros Hg Hs Hp Hv Hacc.
  destruct (Reconcile_cases env cl req)
    as [(o & _ & Hnone) | (nab' & _ & Hs' & Hcases)].
  { destruct (Hnone Hg) as [Hnone' _]. congruence. }
  assert (nab' = nab) as -> by congruence.
  destruct Hcases as [[_ Hempty] | [(_ & _ & Hstop) | (_ & _ & _ & ->)]]; [done | | done].
  rewrite (validateSpec_settled env cl nab Hv Hacc) in Hstop. simpl in Hstop.
  destruct Hstop as [[e [=]] | [=]].
Qed.

(** X8: a pass that found its request runs one effective step.  With an
    empty phase it ends at [init]; with a phase, and a request that is
    rejected or does not record its acceptance yet, it ends at
    [validateSpec]; and with a request that is accepted and records it, the
    first two steps do nothing and the pass is the synchronisation. *)
Theorem Reconcile_stages env cl req nab :
  getNonAdminBackupError env = None → nonAdminBackups cl !! req = Some nab →
  (stPhase (nStatus nab) = constant_EmptyString →
     reconcile env cl req = stopped (init env cl nab)) ∧
  (stPhase (nStatus nab) ≠ constant_EmptyString →
     is_Some (ValidateBackupSpec nab) ∨ ¬ acceptedRecorded (nStatus nab) →
     reconcile env cl req = stopped (validate env cl nab)) ∧
  (stPhase (nStatus nab) ≠ constant_EmptyString →
     ValidateBackupSpec nab = None → acceptedRecorded (nStatus nab) →
     reconcile env cl req = stopped (sync env cl nab)).
Proof.
  intros Hg Hs. split; [|split].
  - by apply Reconcile_at_init.
  - by apply Reconcile_at_validate.
  - by apply Reconcile_at_sync.
Qed.

(** *** Creates over many passes *)

(** The Backups a list of writes created. *)
Fixpoint creates (ws : list Write) : list Backup :=
  match ws with
  | [] => []
  | WriteCreate b :: ws => b :: creates ws
  | WriteStatusUpdate _ :: ws => creates ws
  end.

(** The writes of passes for one request, one environment per pass, nothing
    else touching the cluster in between. *)
Fixpoint reconcileLog (envs : list Env) (cl : Cluster) (req : ObjectKey) : list Write :=
  match envs with
  | [] => []
  | env :: rest =>
      let rr := reconcile env cl req in
      rrWrites rr ++ reconcileLog rest (rrCluster rr) req
  end.

Lemma creates_app ws ws' : creates (ws ++ ws') = (creates ws ++ creates ws')%list.
Proof.
  induction ws as [|[b|n] ws IH]; simpl; [done | by rewrite IH | done].
Qed.

Lemma creates_none ws : (∀ b, WriteCreate b ∉ ws) → creates ws = [].
Proof.
  induction ws as [|[b|n] ws IH]; intros H; simpl; [done | |].
  - exfalso. apply (H b). left.
  - apply IH. intros b Hb. apply (H b). by right.
Qed.

Lemma Reconcile_request_kept env cl req :
  match nonAdminBackups cl !! req with
  | Some nab => ∃ st, nonAdminBackups (rrCluster (reconcile env cl req)) !! req
                        = Some (set_status nab st)
  | None => nonAdminBackups (rrCluster (reconcile env cl req)) !! req = None
  end.
Proof.
  assert (∀ nab sr, stores_status cl nab sr →
            match nonAdminBackups cl !! req with
            | Some nab0 => ∃ st, nonAdminBackups (srCluster sr) !! req
                                   = Some (set_status nab0 st)
            | None => nonAdminBackups (srCluster sr) !! req = None
            end) as Hstep.
  { intros nab sr Hst. destruct (stores_status_frame cl nab sr req Hst) as (H1 & H2 & _).
    destruct (nonAdminBackups cl !! req); [by apply H2 | by apply H1]. }
  destruct (Reconcile_cases env cl req)
    as [(o & -> & _) | (nab & Hg & Hs & [[-> _] | [(_ & -> & _) | (_ & _ & _ & ->)]])].
  - simpl. destruct (nonAdminBackups cl !! req) as [nab|]; [|done].
    exists (nStatus nab). by rewrite set_status_eta.
  - apply (Hstep nab), init_stores.
  - apply (Hstep nab), validateSpec_stores.
  - apply (Hstep nab), sync_stores.
Qed.

(** The creates of one pass, with the Backups after it. *)
Lemma Reconcile_creates env cl req :
  let rr := reconcile env cl req in
  (creates (rrWrites rr) = [] ∧ veleroBackups (rrCluster rr) = veleroBackups cl) ∨
  ∃ nab, nonAdminBackups cl !! req = Some nab ∧
    let name := GenerateVeleroBackupName (mNamespace (nObjectMeta nab))
                  (mName (nObjectMeta nab)) in
    veleroBackups cl !! (OADPNamespace r, name) = None ∧
    veleroBackups (rrCluster rr)
      = <[(OADPNamespace r, name) := build name nab]> (veleroBackups cl) ∧
    creates (rrWrites rr) = [build name nab].
Proof.
  cbv zeta.
  destruct (Reconcile_cases env cl req)
    as [(o & -> & _) | (nab & Hg & Hs & [[-> _] | [(_ & -> & _) | (_ & _ & _ & ->)]])].
  - by left.
  - left. destruct (stopped_init_backups env cl nab) as [Hvb Hw].
    split; [by apply creates_none | done].
  - left. destruct (stopped_validateSpec_backups env cl nab) as [Hvb Hw].
    split; [by apply creates_none | done].
  - destruct (sync_backups env cl nab) as [(Hvb & Hw) | (Hnone & Hvb & Hw)].
    + left. simpl. split; [|done]. by destruct Hw as [-> | ->].
    + right. exists nab. split; [done|]. split; [done|]. split; [done|]. simpl.
      by destruct Hw as [-> | ->].
Qed.

Lemma reconcileLog_gone envs cl req :
  nonAdminBackups cl !! req = None → creates (reconcileLog envs cl req) = [].
Proof.
  revert cl. induction envs as [|env envs IH]; intros cl Hs; simpl; [done|].
  rewrite creates_app.
  pose proof (Reconcile_request_kept env cl req) as Hkept. rewrite Hs in Hkept.
  destruct (Reconcile_creates env cl req) as [(-> & _) | (nab & Hs' & _)]; [|congruence].
  simpl. by apply IH.
Qed.

Lemma reconcileLog_present envs cl req nab b0 :
  nonAdminBackups cl !! req = Some nab →
  veleroBackups cl !! (OADPNamespace r,
    GenerateVeleroBackupName (mNamespace (nObjectMeta nab)) (mName (nObjectMeta nab)))
    = Some b0 →
  creates (reconcileLog envs cl req) = [].
Proof.
  revert cl nab. induction envs as [|env envs IH]; intros cl nab Hs Hb; simpl; [done|].
  rewrite creates_app.
  pose proof (Reconcile_request_kept env cl req) as Hkept. rewrite Hs in Hkept.
  destruct Hkept as [st Hs1].
  destruct (Reconcile_creates env cl req) as [(-> & Hvb) | (nab' & Hs' & Hnone & _)].
  - simpl. apply (IH _ (set_status nab st) Hs1). simpl. by rewrite Hvb.
  - assert (nab' = nab) as -> by congruence. congruence.
Qed.

(** X9: over any number of passes for one request, whatever the API
    answers (failures, stale not-found answers), at most one Velero Backup is
    created, nothing else writing to the cluster in between; the one created
    is the Backup built from the request, and none is created when the
    Backup exists at the start or the request does not. *)
Theorem reconcileLog_creates_once envs cl req :
  creates (reconcileLog envs cl req) = [] ∨
  ∃ nab, nonAdminBackups cl !! req = Some nab ∧
    let name := GenerateVeleroBackupName (mNamespace (nObjectMeta nab))
                  (mName (nObjectMeta nab)) in
    veleroBackups cl !! (OADPNamespace r, name) = None ∧
    creates (reconcileLog envs cl req) = [build name nab].
Proof.
  revert cl. induction envs as [|env envs IH]; intros cl; simpl; [by left|].
  rewrite creates_app.
  pose proof (Reconcile_request_kept env cl req) as Hkept.
  destruct (Reconcile_creates env cl req) as [(-> & Hvb) | (nab & Hs & Hnone & Hvb & ->)].
  - simpl. destruct (IH (rrCluster (reconcile env cl req))) as [-> | (nab1 & Hs1 & Hnone1 & ->)];
      [by left|].
    right. destruct (nonAdminBackups cl !! req) as [nab|] eqn:Hs; [|congruence].
    destruct Hkept as [st Hst]. assert (nab1 = set_status nab st) as -> by congruence.
    exists nab. split; [done|]. simpl in *. split; [by rewrite <- Hvb | done].
  - right. exists nab. split; [done|]. split; [done|].
    rewrite Hs in Hkept. destruct Hkept as [st Hst].
    rewrite (reconcileLog_present envs _ req (set_status nab st)
               (build (GenerateVeleroBackupName (mNamespace (nObjectMeta nab))
                         (mName (nObjectMeta nab))) nab) Hst); [done|].
    simpl. rewrite Hvb. apply lookup_insert_eq.
Qed.

(** *** From a new request to the steady state *)

(** The API answers every call of the pass. *)
Definition answers (env : Env) : Prop :=
  getNonAdminBackupError env = None ∧ getBackupError env = None ∧
  createError env = None ∧ updateError env = None.

(** X10: a request that validation accepts, stored with an empty status and
    with no Backup of its name, reaches the steady state in four passes when
    the API answers every call: the first pass sets phase New and the second
    records the acceptance, both asking for a requeue; the third creates the
    Backup and records phase Created, Queued and the reference; the fourth
    copies the Backup's status into the reference.  One Backup is created in
    all, and a fifth pass writes nothing and changes nothing. *)
Theorem Reconcile_converges e1 e2 e3 e4 e5 cl nab :
  answers e1 → answers e2 → answers e3 → answers e4 → answers e5 →
  (∀ st, ValidateBackupSpec (set_status nab st) = None) →
  let name := GenerateVeleroBackupName (mNamespace (nObjectMeta nab))
                (mName (nObjectMeta nab)) in
  name ≠ constant_EmptyString →
  nStatus nab = mkNonAdminBackupStatus None constant_EmptyString [] →
  nonAdminBackups cl !! nab_key nab = Some nab →
  veleroBackups cl !! (OADPNamespace r, name) = None →
  let rr1 := reconcile e1 cl (nab_key nab) in
  let rr2 := reconcile e2 (rrCluster rr1) (nab_key nab) in
  let rr3 := reconcile e3 (rrCluster rr2) (nab_key nab) in
  let rr4 := reconcile e4 (rrCluster rr3) (nab_key nab) in
  let rr5 := reconcile e5 (rrCluster rr4) (nab_key nab) in
  let steady :=
    mkNonAdminBackupStatus
      (Some (mkVeleroBackup (Some BackupStatus_zero) name (OADPNamespace r)))
      NonAdminBackupPhaseCreated
      [mkCondition NonAdminConditionAccepted ConditionTrue 0 (now e2)
         "BackupAccepted" "backup accepted";
       mkCondition NonAdminConditionQueued ConditionTrue 0 (now e3)
         "BackupScheduled" "Created Velero Backup object"] in
  [rrResult rr1; rrResult rr2; rrResult rr3; rrResult rr4]
    = [mkResult true; mkResult true; mkResult false; mkResult false] ∧
  [rrError rr1; rrError rr2; rrError rr3; rrError rr4] = [None; None; None; None] ∧
  creates (rrWrites rr1 ++ rrWrites rr2 ++ rrWrites rr3 ++ rrWrites rr4)
    = [build name nab] ∧
  nonAdminBackups (rrCluster rr4) !! nab_key nab = Some (set_status nab steady) ∧
  veleroBackups (rrCluster rr4)
    = <[(OADPNamespace r, name) := build name nab]> (veleroBackups cl) ∧
  rr5 = mkReconcileResult (rrCluster rr4) [] (mkResult false) None.
Proof.
  intros (Hg1 & _ & _ & Hu1) (Hg2 & _ & _ & Hu2) (Hg3 & Hb3 & Hc3 & Hu3)
    (Hg4 & Hb4 & _ & Hu4) (Hg5 & Hb5 & _ & _) Hvalid.
  intros name Hname Hst Hs Hfree. destruct nab as [meta spec st].
  simpl in Hst. subst st. cbv zeta.
  unfold nab_key in *. cbn [nObjectMeta] in *.
  set (key := (mNamespace meta, mName meta)) in *.
  set (b := build name (mkNonAdminBackup meta spec (mkNonAdminBackupStatus None "" []))) in *.
  set (acc := mkCondition NonAdminConditionAccepted ConditionTrue 0 (now e2)
                "BackupAccepted" "backup accepted").
  set (que := mkCondition NonAdminConditionQueued ConditionTrue 0 (now e3)
                "BackupScheduled" "Created Velero Backup object").
  set (n0 := mkNonAdminBackup meta spec (mkNonAdminBackupStatus None "" [])) in *.
  set (n1 := mkNonAdminBackup meta spec (mkNonAdminBackupStatus None "New" [])).
  set (n2 := mkNonAdminBackup meta spec (mkNonAdminBackupStatus None "New" [acc])).
  set (n3 := mkNonAdminBackup meta spec
               (mkNonAdminBackupStatus (Some (mkVeleroBackup None name (OADPNamespace r)))
                  "Created" [acc; que])).
  set (n4 := mkNonAdminBackup meta spec
               (mkNonAdminBackupStatus
                  (Some (mkVeleroBackup (Some BackupStatus_zero) name (OADPNamespace r)))
                  "Created" [acc; que])).
  set (m := nonAdminBackups cl) in *.
  set (vbs := veleroBackups cl) in *.
  (* the first pass: [init] *)
  assert (reconcile e1 cl key
          = mkReconcileResult (mkCluster (<[key := n1]> m) vbs)
              [WriteStatusUpdate n1] (mkResult true) None) as H1.
  { rewrite (Reconcile_at_init e1 cl key n0 Hg1 Hs eq_refl).
    by rewrite (init_empty e1 cl n0 n0 eq_refl Hu1 Hs). }
  rewrite H1. cbn [rrCluster rrResult rrError rrWrites].
  (* the second pass: [validateSpec] *)
  assert (reconcile e2 (mkCluster (<[key := n1]> m) vbs) key
          = mkReconcileResult (mkCluster (<[key := n2]> m) vbs)
              [WriteStatusUpdate n2] (mkResult true) None) as H2.
  { rewrite (Reconcile_at_validate e2 _ key n1 Hg2 (lookup_insert_eq _ _ _));
      [|done|right; intros (c & [=] & _)].
    unfold stopped, validateSpec.
    pose proof (Hvalid (nStatus n1)) as Hv. change (ValidateBackupSpec n1 = None) in Hv. rewrite Hv.
    assert (SetStatusCondition (now e2) (stConditions (nStatus n1)) acceptedTrue
            = ([acc], true)) as -> by (vm_compute; reflexivity).
    cbn [fst snd].
    rewrite (Status_Update_present e2 _ (set_status n1 (set_conditions (nStatus n1) [acc]))
               n1 Hu2 (lookup_insert_eq _ _ _)).
    cbn [srCluster srWrites srError srRequeue nonAdminBackups veleroBackups nab_key
         nObjectMeta set_status n1].
    by rewrite insert_insert_eq. }
  rewrite H2. cbn [rrCluster rrResult rrError rrWrites].
  (* the third pass: the Backup is created *)
  assert (acceptedRecorded (mkNonAdminBackupStatus None "New" [acc])) as Hacc2.
  { exists acc. repeat split. }
  assert (reconcile e3 (mkCluster (<[key := n2]> m) vbs) key
          = mkReconcileResult (mkCluster (<[key := n3]> m) (<[(OADPNamespace r, name) := b]> vbs))
              [WriteCreate b; WriteStatusUpdate n3] (mkResult false) None) as H3.
  { pose proof (Hvalid (nStatus n2)) as Hv. change (ValidateBackupSpec n2 = None) in Hv.
    rewrite (Reconcile_at_sync e3 _ key n2 Hg3 (lookup_insert_eq _ _ _)
               ltac:(done) Hv Hacc2).
    assert (sync e3 (mkCluster (<[key := n2]> m) vbs) n2
            = syncStatus e3
                (mkCluster (<[key := n2]> m) (<[(OADPNamespace r, name) := b]> vbs))
                [WriteCreate b] n2 b) as ->
      by exact (sync_absent e3 (mkCluster (<[key := n2]> m) vbs) n2 Hname Hb3 Hfree Hc3).
    rewrite syncStatus_unfold.
    assert (bookkeptStatus (now e3) n2 b = nStatus n3) as Hkept
      by (vm_compute; reflexivity).
    rewrite Hkept.
    rewrite bool_decide_eq_false_2 by (intros [=]).
    rewrite (persist_ok e3
               (mkCluster (<[key := n2]> m) (<[(OADPNamespace r, name) := b]> vbs))
               [WriteCreate b] (set_status n2 (nStatus n3)) n2
               Hu3 (lookup_insert_eq _ _ _)).
    unfold stopped.
    cbn [srCluster srWrites srError srRequeue nonAdminBackups veleroBackups nab_key
         nObjectMeta set_status n2 n3 nStatus app].
    by rewrite insert_insert_eq. }
  rewrite H3. cbn [rrCluster rrResult rrError rrWrites].
  (* the fourth pass: the snapshot *)
  assert (acceptedRecorded (nStatus n3)) as Hacc3.
  { exists acc. repeat split. }
  assert (bookkeepingComplete (nStatus n3) b) as Hcomplete3.
  { split; [done|]. split; [exists que; repeat split | eexists; repeat split]. }
  assert (reconcile e4
            (mkCluster (<[key := n3]> m) (<[(OADPNamespace r, name) := b]> vbs)) key
          = mkReconcileResult
              (mkCluster (<[key := n4]> m) (<[(OADPNamespace r, name) := b]> vbs))
              [WriteStatusUpdate n4] (mkResult false) None) as H4.
  { pose proof (Hvalid (nStatus n3)) as Hv. change (ValidateBackupSpec n3 = None) in Hv.
    rewrite (Reconcile_at_sync e4 _ key n3 Hg4 (lookup_insert_eq _ _ _)
               ltac:(done) Hv Hacc3).
    assert (sync e4 (mkCluster (<[key := n3]> m) (<[(OADPNamespace r, name) := b]> vbs)) n3
            = syncStatus e4
                (mkCluster (<[key := n3]> m) (<[(OADPNamespace r, name) := b]> vbs))
                [] n3 b) as ->
      by exact (sync_found e4
                  (mkCluster (<[key := n3]> m) (<[(OADPNamespace r, name) := b]> vbs))
                  n3 b Hname Hb4 (lookup_insert_eq _ _ _)).
    rewrite syncStatus_unfold.
    rewrite bool_decide_eq_true_2 by (by apply bookkeptStatus_same).
    assert (snapshotStatus n3 b = nStatus n4) as Hsnap by (vm_compute; reflexivity).
    rewrite Hsnap.
    rewrite bool_decide_eq_false_2 by (intros [=]).
    rewrite (persist_ok e4
               (mkCluster (<[key := n3]> m) (<[(OADPNamespace r, name) := b]> vbs))
               [] (set_status n3 (nStatus n4)) n3 Hu4 (lookup_insert_eq _ _ _)).
    unfold stopped.
    cbn [srCluster srWrites srError srRequeue nonAdminBackups veleroBackups nab_key
         nObjectMeta set_status n3 n4 nStatus app].
    by rewrite insert_insert_eq. }
  rewrite H4. cbn [rrCluster rrResult rrError rrWrites].
  (* the fifth pass: nothing left to do *)
  assert (acceptedRecorded (nStatus n4)) as Hacc4.
  { exists acc. repeat split. }
  assert (bookkeepingComplete (nStatus n4) b) as Hcomplete4.
  { split; [done|]. split; [exists que; repeat split | eexists; repeat split]. }
  split; [done|]. split; [done|]. split; [done|].
  split; [apply lookup_insert_eq|]. split; [done|].
  pose proof (Hvalid (nStatus n4)) as Hv. change (ValidateBackupSpec n4 = None) in Hv.
  rewrite (Reconcile_at_sync e5 _ key n4 Hg5 (lookup_insert_eq _ _ _) ltac:(done) Hv Hacc4).
  assert (sync e5 (mkCluster (<[key := n4]> m) (<[(OADPNamespace r, name) := b]> vbs)) n4
          = syncStatus e5
              (mkCluster (<[key := n4]> m) (<[(OADPNamespace r, name) := b]> vbs))
              [] n4 b) as ->
    by exact (sync_found e5
                (mkCluster (<[key := n4]> m) (<[(OADPNamespace r, name) := b]> vbs))
                n4 b Hname Hb5 (lookup_insert_eq _ _ _)).
  rewrite syncStatus_unfold.
  rewrite bool_decide_eq_true_2 by (by apply bookkeptStatus_same).
  rewrite bool_decide_eq_true_2; [done|].
  apply snapshotStatus_same. eexists. split; done.
Qed.

(** *** A request that is gone *)


(** *** Errors and what was written *)

Lemma syncStatus_error env cl ws nab b e :
  srError (syncStatus env cl ws nab b) = Some e →
  nonAdminBackups (srCluster (syncStatus env cl ws nab b)) = nonAdminBackups cl ∧
  srWrites (syncStatus env cl ws nab b) = ws.
Proof.
  rewrite syncStatus_unfold. unfold persist.
  repeat case_match; simpl; try discriminate; intros _;
    match goal with H : Status_Update _ _ _ = (_, Some _) |- _ =>
      apply Status_Update_error in H as -> end; done.
Qed.

Lemma sync_error env cl nab e :
  srError (sync env cl nab) = Some e →
  nonAdminBackups (srCluster (sync env cl nab)) = nonAdminBackups cl ∧
  ∀ n, WriteStatusUpdate n ∉ srWrites (sync env cl nab).
Proof.
  unfold syncVeleroBackupWithNonAdminBackup.
  destruct (decide _) as [|Hname].
  { simpl. intros _. split; [done|]. intros n Hn. by apply elem_of_nil in Hn. }
  destruct (Get_Backup _ _ _) as [err|found].
  - destruct (negb (IsNotFound err)).
    { simpl. intros _. split; [done|]. intros n Hn. by apply elem_of_nil in Hn. }
    destruct (Create_Backup _ _ _) as [cl' [e'|]] eqn:HC.
    + simpl. intros _.
      pose proof (Create_Backup_nonAdminBackups env cl
                    (build (GenerateVeleroBackupName (mNamespace (nObjectMeta nab))
                              (mName (nObjectMeta nab))) nab)) as Hn.
      rewrite HC in Hn. split; [done|]. intros n Hn'. by apply elem_of_nil in Hn'.
    + intros He. apply Create_Backup_ok in HC as (_ & _ & ->).
      destruct (syncStatus_error _ _ _ _ _ _ He) as [-> ->].
      split; [done|]. intros n Hn. by apply list_elem_of_singleton in Hn.
  - intros He. destruct (syncStatus_error _ _ _ _ _ _ He) as [-> ->].
    split; [done|]. intros n Hn. by apply elem_of_nil in Hn.
Qed.

Lemma init_error env cl nab e :
  srError (init env cl nab) = Some e →
  srCluster (init env cl nab) = cl ∧ srWrites (init env cl nab) = [].
Proof.
  unfold init. repeat case_match; simpl; try discriminate; intros _.
  match goal with H : Status_Update _ _ _ = (_, Some _) |- _ =>
    apply Status_Update_error in H as -> end. done.
Qed.

Lemma validateSpec_error env cl nab e :
  srError (validate env cl nab) = Some e →
  srCluster (validate env cl nab) = cl ∧ srWrites (validate env cl nab) = [] ∨
  ∃ err, ValidateBackupSpec nab = Some err ∧ e = TerminalError err ∧
    srWrites (validate env cl nab) = [WriteStatusUpdate (srNab (validate env cl nab))].
Proof.
  unfold validateSpec. destruct (ValidateBackupSpec nab) as [err|].
  - repeat case_match; simpl; intros [= <-]; eauto;
      match goal with H : Status_Update _ _ _ = (_, Some _) |- _ =>
        apply Status_Update_error in H as -> end; by left.
  - repeat case_match; simpl; try discriminate; intros _.
    match goal with H : Status_Update _ _ _ = (_, Some _) |- _ =>
      apply Status_Update_error in H as -> end. by left.
Qed.

(** X11: a pass that returns an error has persisted no status: the stored
    requests are as before and no status update is among its writes.  The
    one exception is the terminal error of a rejected request, which comes
    after the status update that records the rejection. *)
Theorem Reconcile_error_keeps_status env cl req e :
  rrError (reconcile env cl req) = Some e →
  (nonAdminBackups (rrCluster (reconcile env cl req)) = nonAdminBackups cl ∧
   ∀ n, WriteStatusUpdate n ∉ rrWrites (reconcile env cl req)) ∨
  ∃ nab err n, nonAdminBackups cl !! req = Some nab ∧
    ValidateBackupSpec nab = Some err ∧ e = TerminalError err ∧
    rrWrites (reconcile env cl req) = [WriteStatusUpdate n].
Proof.
  destruct (Reconcile_cases env cl req)
    as [(o & -> & _) | (nab & Hg & Hs & [[-> _] | [(_ & -> & _) | (_ & _ & _ & ->)]])];
    unfold stopped; simpl; intros He.
  - left. split; [done|]. intros n Hn. by apply elem_of_nil in Hn.
  - left. destruct (init_error env cl nab e He) as [-> ->].
    split; [done|]. intros n Hn. by apply elem_of_nil in Hn.
  - destruct (validateSpec_error env cl nab e He) as [[-> ->] | (err & Hv & -> & ->)].
    + left. split; [done|]. intros n Hn. by apply elem_of_nil in Hn.
    + right. exists nab, err. eexists. repeat split; done.
  - left. by apply (sync_error env cl nab e).
Qed.

(** *** The two updates of the reference *)

Lemma status_fields st ref p cs :
  stVeleroBackup st = ref → stPhase st = p → stConditions st = cs →
  st = mkNonAdminBackupStatus ref p cs.
Proof. destruct st. simpl. by intros -> -> ->. Qed.

(** X12: the reference update and the snapshot update of the status do not get
    in each other's way: in either order they leave phase and conditions as
    they were and a reference that holds a copy of the Backup's status, its
    name and its namespace; and each of them, repeated, reports no change. *)
Theorem reference_updates_compose st b :
  let both :=
    mkNonAdminBackupStatus
      (Some (mkVeleroBackup (Some (bStatus b)) (mName (bObjectMeta b))
               (mNamespace (bObjectMeta b))))
      (stPhase st) (stConditions st) in
  (updateNonAdminBackupVeleroBackupStatus
     (updateNonAdminBackupVeleroBackupReference st b).1 b).1 = both ∧
  (updateNonAdminBackupVeleroBackupReference
     (updateNonAdminBackupVeleroBackupStatus st b).1 b).1 = both ∧
  updateNonAdminBackupVeleroBackupReference
    (updateNonAdminBackupVeleroBackupReference st b).1 b
    = ((updateNonAdminBackupVeleroBackupReference st b).1, false) ∧
  updateNonAdminBackupVeleroBackupStatus
    (updateNonAdminBackupVeleroBackupStatus st b).1 b
    = ((updateNonAdminBackupVeleroBackupStatus st b).1, false).
Proof.
  cbv zeta.
  destruct (updateReference_fields st b) as (Hrp & Hrc & v' & Hrv & Hrn & Hrns & Hrs).
  destruct (updateSnapshot_fields st b) as (Hsp & Hsc & Hsv).
  split; [|split; [|split]].
  - destruct (updateSnapshot_fields (updateNonAdminBackupVeleroBackupReference st b).1 b)
      as (Hp & Hc & Hv).
    rewrite Hrv in Hv. simpl in Hv. rewrite Hrn, Hrns in Hv.
    rewrite Hrp in Hp. rewrite Hrc in Hc. by apply status_fields.
  - destruct (updateReference_fields (updateNonAdminBackupVeleroBackupStatus st b).1 b)
      as (Hp & Hc & v2 & Hv & Hn & Hns & Hs).
    rewrite Hsv in Hs. simpl in Hs. rewrite Hsp in Hp. rewrite Hsc in Hc.
    apply status_fields; [|done|done]. rewrite Hv. f_equal.
    destruct v2 as [s2 n2 ns2]. simpl in Hn, Hns, Hs. by subst.
  - pose proof (updateReference_unchanged
                  (updateNonAdminBackupVeleroBackupReference st b).1 b) as Hun.
    pose proof (updateReference_changed
                  (updateNonAdminBackupVeleroBackupReference st b).1 b) as Hch.
    destruct (updateNonAdminBackupVeleroBackupReference
                (updateNonAdminBackupVeleroBackupReference st b).1 b) as [st2 u].
    simpl in *. assert (u = false) as -> by (apply Hun; eauto).
    f_equal. destruct (decide (st2 = (updateNonAdminBackupVeleroBackupReference st b).1))
      as [|Hne]; [done|]. apply Hch in Hne. discriminate.
  - pose proof (updateSnapshot_unchanged
                  (updateNonAdminBackupVeleroBackupStatus st b).1 b) as Hun.
    pose proof (updateSnapshot_changed
                  (updateNonAdminBackupVeleroBackupStatus st b).1 b) as Hch.
    destruct (updateNonAdminBackupVeleroBackupStatus
                (updateNonAdminBackupVeleroBackupStatus st b).1 b) as [st2 u].
    simpl in *. assert (u = false) as -> by (apply Hun; rewrite Hsv; eauto).
    f_equal. destruct (decide (st2 = (updateNonAdminBackupVeleroBackupStatus st b).1))
      as [|Hne]; [done|]. apply Hch in Hne. discriminate.
Qed.

End Properties.

(** ** The predicate *)

(** C9: the predicate of request objects accepts every Create event and
    every Delete event, and accepts an Update event exactly when the
    generation of the new object differs from the generation of the old one:
    an update that leaves the generation as it was is rejected. *)
Theorem NonAdminBackupPredicate_accepts :
  (∀ evt, NonAdminBackupPredicate.Create evt = true) ∧
  (∀ evt, NonAdminBackupPredicate.Delete evt = true) ∧
  (∀ evt, NonAdminBackupPredicate.Update evt = true ↔
          mGeneration (NonAdminBackupPredicate.ueObjectNew evt) ≠
          mGeneration (NonAdminBackupPredicate.ueObjectOld evt)) ∧
  (∀ evt, mGeneration (NonAdminBackupPredicate.ueObjectNew evt) =
          mGeneration (NonAdminBackupPredicate.ueObjectOld evt) →
          NonAdminBackupPredicate.Update evt = false).
Proof.
  unfold NonAdminBackupPredicate.Update, NonAdminBackupPredicate.GetGeneration.
  split; [done|]. split; [done|]. split.
  - intros evt. destruct (decide _) as [Hne|Heq]; split; done.
  - intros evt Heq. destruct (decide _) as [Hne|_]; [|done]. by destruct Hne.
Qed.

(** * Examples: the theorems at concrete requests *)

(** The scope narrowing on the request that lists tenant-b and tenant-c. *)
Lemma created_backup_scope_witness :
  WriteCreate
    (newVeleroBackup Example.GetNonAdminLabels Example.GetNonAdminBackupAnnotations
       Example.r "nab-tenant-a-backup-1" Example.greedy)
    ∈ srWrites (Example.sync (Example.calm 5) (Example.cluster [Example.greedy] [])
                  Example.greedy) ∧
  sIncludedNamespaces
    (bSpec (newVeleroBackup Example.GetNonAdminLabels Example.GetNonAdminBackupAnnotations
              Example.r "nab-tenant-a-backup-1" Example.greedy)) = ["tenant-a"].
Proof.
  assert (WriteCreate
            (newVeleroBackup Example.GetNonAdminLabels Example.GetNonAdminBackupAnnotations
               Example.r "nab-tenant-a-backup-1" Example.greedy)
            ∈ srWrites (Example.sync (Example.calm 5) (Example.cluster [Example.greedy] [])
                          Example.greedy)) as H
    by (vm_compute; constructor).
  split; [exact H|].
  exact (proj1 (created_backup_scope Example.GenerateVeleroBackupName
                  Example.GetNonAdminLabels Example.GetNonAdminBackupAnnotations Example.r
                  (Example.calm 5) (Example.cluster [Example.greedy] []) Example.greedy _ H)).
Defined.

(** Three runs of the synchronisation on the validated request: the third
    writes nothing. *)
Lemma sync_again_witness :
  let run1 := Example.sync (Example.calm 5) (Example.cluster [Example.validated] [])
                Example.validated in
  let run2 := Example.sync (Example.calm 6) (srCluster run1) (srNab run1) in
  let run3 := Example.sync (Example.calm 7) (srCluster run2) (srNab run2) in
  srError run1 = None ∧ srError run2 = None ∧
  srWrites run3 = [] ∧ srNab run3 = srNab run2 ∧ srCluster run3 = srCluster run2.
Proof.
  cbv zeta.
  assert (srError (Example.sync (Example.calm 5) (Example.cluster [Example.validated] [])
                     Example.validated) = None) as H1 by (vm_compute; reflexivity).
  split; [exact H1|].
  pose proof (sync_again Example.GenerateVeleroBackupName Example.GetNonAdminLabels
                Example.GetNonAdminBackupAnnotations Example.r
                (Example.calm 5) (Example.calm 6) (Example.calm 7)
                (Example.cluster [Example.validated] []) Example.validated H1)
    as (_ & _ & _ & H3).
  assert (srError
            (Example.sync (Example.calm 6)
               (srCluster (Example.sync (Example.calm 5)
                             (Example.cluster [Example.validated] []) Example.validated))
               (srNab (Example.sync (Example.calm 5)
                         (Example.cluster [Example.validated] []) Example.validated)))
          = None) as H2 by (vm_compute; reflexivity).
  split; [exact H2|]. exact (H3 H2).
Defined.

(** The phase of a rejected request never leaves BackingOff over three
    passes, the Backups being wiped in between. *)
Lemma phase_moves_forward_witness :
  let nab := set_status Example.greedy (mkNonAdminBackupStatus None "BackingOff" []) in
  let world := [(Example.calm 5, λ _ : gmap ObjectKey Backup, ∅);
                (Example.calm 6, λ b : gmap ObjectKey Backup, b);
                (Example.calm 7, λ _ : gmap ObjectKey Backup, ∅)] in
  ∃ st', nonAdminBackups
           (reconcileAll Example.GenerateVeleroBackupName Example.GetNonAdminLabels
              Example.GetNonAdminBackupAnnotations Example.ValidateBackupSpec Example.r
              world (Example.cluster [nab] []) (nab_key nab)) !! nab_key nab
           = Some (set_status nab st') ∧
         stPhase st' = NonAdminBackupPhaseBackingOff.
Proof.
  cbv zeta.
  destruct (proj2 (proj2 (phase_moves_forward Example.GenerateVeleroBackupName
              Example.GetNonAdminLabels Example.GetNonAdminBackupAnnotations
              Example.ValidateBackupSpec Example.r))
              [(Example.calm 5, λ _ : gmap ObjectKey Backup, ∅);
               (Example.calm 6, λ b : gmap ObjectKey Backup, b);
               (Example.calm 7, λ _ : gmap ObjectKey Backup, ∅)]
              (Example.cluster
                 [set_status Example.greedy (mkNonAdminBackupStatus None "BackingOff" [])] [])
              (set_status Example.greedy (mkNonAdminBackupStatus None "BackingOff" []))
              (λ st, eq_refl)
              ltac:(vm_compute; reflexivity))
    as (st' & Hs & _ & _ & Hstay & _).
  exists st'. split; [exact Hs|].
  apply Hstay; [reflexivity | vm_compute; eauto].
Defined.

(** A rejected request: phase BackingOff, and a terminal error once the
    status is written. *)
Lemma validateSpec_invalid_witness :
  let nab := set_status Example.greedy (mkNonAdminBackupStatus None "New" []) in
  let err := ErrorString "spec.backupSpec.IncludedNamespaces can not contain other namespaces" in
  let sr := Example.validate (Example.calm 5) (Example.cluster [nab] []) nab in
  Example.ValidateBackupSpec nab = Some err ∧
  stPhase (nStatus (srNab sr)) = NonAdminBackupPhaseBackingOff ∧
  srError sr = Some (TerminalError err) ∧
  veleroBackups (srCluster sr) = ∅.
Proof.
  cbv zeta.
  assert (Example.ValidateBackupSpec
            (set_status Example.greedy (mkNonAdminBackupStatus None "New" []))
          = Some (ErrorString
                    "spec.backupSpec.IncludedNamespaces can not contain other namespaces"))
    as Hv by (vm_compute; reflexivity).
  split; [exact Hv|].
  destruct (validateSpec_invalid Example.GenerateVeleroBackupName Example.GetNonAdminLabels
              Example.GetNonAdminBackupAnnotations Example.ValidateBackupSpec Example.r
              (Example.calm 5)
              (Example.cluster
                 [set_status Example.greedy (mkNonAdminBackupStatus None "New" [])] [])
              (set_status Example.greedy (mkNonAdminBackupStatus None "New" []))
              _ Hv)
    as (Hp & _ & _ & Hwrite & _ & _ & Hvb & _).
  split; [exact Hp|]. split.
  - refine (proj2 (proj2 (Hwrite _ _ eq_refl _))).
    + intros H. vm_compute in H. discriminate.
    + vm_compute. reflexivity.
  - etrans; [exact Hvb | vm_compute; reflexivity].
Defined.

(** The first synchronisation of the validated request: the Backup is
    created and the reference names it, without snapshot. *)
Lemma sync_creates_when_absent_witness :
  let cl := Example.cluster [Example.validated] [] in
  let sr := Example.sync (Example.calm 5) cl Example.validated in
  Example.GenerateVeleroBackupName "tenant-a" "backup-1" ≠ constant_EmptyString ∧
  veleroBackups cl !! ("openshift-adp", "nab-tenant-a-backup-1") = None ∧
  nonAdminBackups cl !! nab_key Example.validated = Some Example.validated ∧
  stVeleroBackup (nStatus (srNab sr))
    = Some (mkVeleroBackup None "nab-tenant-a-backup-1" "openshift-adp") ∧
  srRequeue sr = false ∧ srError sr = None.
Proof.
  cbv zeta.
  assert (Example.GenerateVeleroBackupName "tenant-a" "backup-1" ≠ constant_EmptyString)
    as Hname by (vm_compute; discriminate).
  assert (veleroBackups (Example.cluster [Example.validated] [])
            !! ("openshift-adp", "nab-tenant-a-backup-1") = None)
    as Hb by (vm_compute; reflexivity).
  assert (nonAdminBackups (Example.cluster [Example.validated] [])
            !! nab_key Example.validated = Some Example.validated)
    as Hs by (vm_compute; reflexivity).
  split; [exact Hname|]. split; [exact Hb|]. split; [exact Hs|].
  destruct (sync_creates_when_absent Example.GenerateVeleroBackupName
              Example.GetNonAdminLabels Example.GetNonAdminBackupAnnotations Example.r
              (Example.calm 5) (Example.cluster [Example.validated] []) Example.validated
              Example.validated Hname eq_refl Hb eq_refl eq_refl Hs)
    as (_ & _ & _ & _ & Hrq & Herr & _ & Hfresh & _).
  split; [exact (proj2 (Hfresh eq_refl))|]. split; [exact Hrq | exact Herr].
Defined.

(** The Backup went from InProgress to Completed: the snapshot follows, the
    rest of the status stays. *)
Lemma sync_propagates_drift_witness :
  let nab := Example.recorded (Some Example.inProgress) in
  let b := Example.backup Example.completed in
  let cl := Example.cluster [nab] [b] in
  let sr := Example.sync (Example.calm 9) cl nab in
  veleroBackups cl !! ("openshift-adp", "nab-tenant-a-backup-1") = Some b ∧
  nonAdminBackups cl !! nab_key nab = Some nab ∧
  nStatus (srNab sr) = nStatus (Example.recorded (Some Example.completed)) ∧
  srWrites sr = [WriteStatusUpdate (srNab sr)] ∧
  srRequeue sr = false ∧ srError sr = None.
Proof.
  cbv zeta.
  assert (veleroBackups (Example.cluster [Example.recorded (Some Example.inProgress)]
                           [Example.backup Example.completed])
            !! ("openshift-adp", "nab-tenant-a-backup-1")
          = Some (Example.backup Example.completed))
    as Hb by (vm_compute; reflexivity).
  assert (nonAdminBackups (Example.cluster [Example.recorded (Some Example.inProgress)]
                             [Example.backup Example.completed])
            !! nab_key (Example.recorded (Some Example.inProgress))
          = Some (Example.recorded (Some Example.inProgress)))
    as Hs by (vm_compute; reflexivity).
  assert (bookkeepingComplete (nStatus (Example.recorded (Some Example.inProgress)))
            (Example.backup Example.completed)) as Hcomplete.
  { split; [reflexivity|]. split.
    - exists Example.queued. repeat split.
    - eexists. repeat split. }
  split; [exact Hb|]. split; [exact Hs|].
  destruct (sync_propagates_drift Example.GenerateVeleroBackupName
              Example.GetNonAdminLabels Example.GetNonAdminBackupAnnotations
              Example.ValidateBackupSpec Example.r
              (Example.calm 9)
              (Example.cluster [Example.recorded (Some Example.inProgress)]
                 [Example.backup Example.completed])
              (Example.recorded (Some Example.inProgress))
              (Example.backup Example.completed)
              (mkVeleroBackup (Some Example.inProgress) "nab-tenant-a-backup-1" "openshift-adp")
              (Example.recorded (Some Example.inProgress))
              ltac:(vm_compute; discriminate) eq_refl Hb Hcomplete eq_refl eq_refl Hs)
    as (Hdrift & _ & _).
  destruct (Hdrift ltac:(vm_compute; discriminate))
    as (Hst & _ & _ & _ & Hw & _ & Hrq & Herr).
  split; [exact Hst|]. split; [exact Hw|]. split; [exact Hrq | exact Herr].
Defined.

(** [init] on the fresh request persists New and asks for a requeue; on the
    validated one it does nothing. *)
Lemma init_sets_phase_New_witness :
  srRequeue (init (Example.calm 1) (Example.cluster [Example.modest] []) Example.modest)
    = true ∧
  stPhase (nStatus (srNab (init (Example.calm 1) (Example.cluster [Example.modest] [])
                             Example.modest))) = NonAdminBackupPhaseNew ∧
  init (Example.calm 2) (Example.cluster [Example.validated] []) Example.validated
    = mkStepResult Example.validated (Example.cluster [Example.validated] []) [] false None.
Proof.
  destruct (init_sets_phase_New Example.GenerateVeleroBackupName Example.GetNonAdminLabels
              Example.GetNonAdminBackupAnnotations Example.ValidateBackupSpec Example.r
              (Example.calm 1) (Example.cluster [Example.modest] []) Example.modest)
    as (Hempty & _).
  pose proof (Hempty Example.modest eq_refl eq_refl ltac:(vm_compute; reflexivity)) as Hrun.
  cbv zeta in Hrun.
  destruct (init_sets_phase_New Example.GenerateVeleroBackupName Example.GetNonAdminLabels
              Example.GetNonAdminBackupAnnotations Example.ValidateBackupSpec Example.r
              (Example.calm 2) (Example.cluster [Example.validated] []) Example.validated)
    as (_ & Hset & _).
  split; [by rewrite Hrun|]. split; [by rewrite Hrun|].
  apply Hset. vm_compute. discriminate.
Defined.

(** [init] wrote and asks for a requeue: the loop stops there. *)
Lemma persisted_steps_requeue_witness :
  srWrites (init (Example.calm 1) (Example.cluster [Example.modest] []) Example.modest) ≠ [] ∧
  srError (init (Example.calm 1) (Example.cluster [Example.modest] []) Example.modest) = None ∧
  srRequeue (init (Example.calm 1) (Example.cluster [Example.modest] []) Example.modest)
    = true ∧
  srRequeue (Example.sync (Example.calm 1) (Example.cluster [Example.modest] [])
               Example.modest) = false.
Proof.
  destruct (persisted_steps_requeue Example.GenerateVeleroBackupName
              Example.GetNonAdminLabels Example.GetNonAdminBackupAnnotations
              Example.ValidateBackupSpec Example.r
              (Example.calm 1) (Example.cluster [Example.modest] []) Example.modest)
    as (Hinit & _ & Hsync & _).
  assert (srWrites (init (Example.calm 1) (Example.cluster [Example.modest] [])
                      Example.modest) ≠ []) as Hw by (vm_compute; discriminate).
  split; [exact Hw|]. split; [vm_compute; reflexivity|].
  split; [apply Hinit; [exact Hw | vm_compute; reflexivity] | exact Hsync].
Defined.

(** A stored request with phase Created keeps a non-empty phase through a
    pass in which every call to the API fails. *)
Lemma updateNonAdminPhase_never_empties_witness :
  updateNonAdminPhase "Created" "" = ("Created", false) ∧
  ∃ n', nonAdminBackups
          (rrCluster (Example.reconcile
                        (mkEnv 4 None (Some Example.conflict) (Some Example.conflict)
                           (Some Example.conflict))
                        (Example.cluster [Example.recorded None] [])
                        (nab_key (Example.recorded None))))
          !! nab_key (Example.recorded None) = Some n' ∧
        stPhase (nStatus n') ≠ constant_EmptyString.
Proof.
  destruct (updateNonAdminPhase_never_empties Example.GenerateVeleroBackupName
              Example.GetNonAdminLabels Example.GetNonAdminBackupAnnotations
              Example.ValidateBackupSpec Example.r "Created" "")
    as (Hempty & _ & _ & _ & Hstored).
  split; [exact (Hempty eq_refl)|].
  apply (Hstored _ _ _ _ (Example.recorded None));
    [vm_compute; reflexivity | reflexivity | discriminate].
Defined.

(** A status-only update is rejected, a spec update accepted. *)
Lemma NonAdminBackupPredicate_accepts_witness :
  NonAdminBackupPredicate.Update
    (NonAdminBackupPredicate.mkUpdateEvent (Example.meta "tenant-a" "backup-1")
       (Example.meta "tenant-a" "backup-1")) = false ∧
  NonAdminBackupPredicate.Update
    (NonAdminBackupPredicate.mkUpdateEvent (Example.meta "tenant-a" "backup-1")
       (mkObjectMeta "backup-1" "tenant-a" 2 ∅ ∅)) = true.
Proof.
  destruct NonAdminBackupPredicate_accepts as (_ & _ & Hiff & Hsame).
  split; [apply Hsame; reflexivity | apply Hiff; vm_compute; discriminate].
Defined.

(** * Where the specification says more than the code does *)

(** The second run of the synchronisation writes: the first run, on the
    validated request, created the Backup and recorded phase, condition and
    reference, leaving no snapshot; the second run finds the Backup and
    writes its status as snapshot. *)
Lemma sync_again_counterexample :
  ¬ (∀ t1 t2 cl nab,
       let run1 := Example.sync (Example.calm t1) cl nab in
       let run2 := Example.sync (Example.calm t2) (srCluster run1) (srNab run1) in
       srError run1 = None → srWrites run2 = []).
Proof.
  intros H.
  specialize (H 5 6 (Example.cluster [Example.validated] []) Example.validated
                ltac:(vm_compute; reflexivity)).
  vm_compute in H. discriminate.
Qed.

(** The synchronisation moves a request from BackingOff to Created. *)
Lemma phase_moves_forward_counterexample :
  ¬ (∀ step env cl nab, step ∈ Example.steps →
       let p := stPhase (nStatus nab) in
       let p' := stPhase (nStatus (srNab (step env cl nab))) in
       p ≠ constant_EmptyString → p' ≠ p →
       p = NonAdminBackupPhaseNew ∧
       (p' = NonAdminBackupPhaseCreated ∨ p' = NonAdminBackupPhaseBackingOff)).
Proof.
  intros H.
  assert (Example.sync ∈ Example.steps) as Hin by (do 2 right; left).
  destruct (H Example.sync (Example.calm 5)
              (Example.cluster
                 [set_status Example.modest (mkNonAdminBackupStatus None "BackingOff" [])] [])
              (set_status Example.modest (mkNonAdminBackupStatus None "BackingOff" []))
              Hin ltac:(vm_compute; discriminate) ltac:(vm_compute; discriminate))
    as [Hp _].
  vm_compute in Hp. discriminate.
Qed.

(** The same through [Reconcile]: the request that lists other tenants'
    namespaces is initialised, then rejected; the tenant then corrects the
    spec (a new generation), and two more passes bring it to Created. *)
Lemma rejected_then_corrected :
  let key := ("tenant-a", "backup-1") in
  let pass t cl := rrCluster (Example.reconcile (Example.calm t) cl key) in
  let correct cl :=
    mkCluster
      (alter (λ n, mkNonAdminBackup (mkObjectMeta "backup-1" "tenant-a" 2 ∅ ∅)
                     (Example.spec ["tenant-a"]) (nStatus n)) key (nonAdminBackups cl))
      (veleroBackups cl) in
  let rejected := pass 2 (pass 1 (Example.cluster [Example.greedy] [])) in
  let created := pass 4 (pass 3 (correct rejected)) in
  (stPhase ∘ nStatus <$> nonAdminBackups rejected !! key) = Some "BackingOff" ∧
  (stPhase ∘ nStatus <$> nonAdminBackups created !! key) = Some "Created".
Proof. vm_compute. split; reflexivity. Qed.

(** The Backup of a request that records it was deleted: the
    synchronisation creates it again, finds nothing to record, and goes on
    to write the status of the new object as snapshot. *)
Lemma sync_creates_when_absent_counterexample :
  ¬ (∀ t cl nab,
       Example.GenerateVeleroBackupName (mNamespace (nObjectMeta nab))
         (mName (nObjectMeta nab)) ≠ constant_EmptyString →
       veleroBackups cl !! (OADPNamespace Example.r,
         Example.GenerateVeleroBackupName (mNamespace (nObjectMeta nab))
           (mName (nObjectMeta nab))) = None →
       nonAdminBackups cl !! nab_key nab = Some nab →
       let sr := Example.sync (Example.calm t) cl nab in
       ∃ v, stVeleroBackup (nStatus (srNab sr)) = Some v ∧ vStatus v = None).
Proof.
  intros H.
  destruct (H 7 (Example.cluster [Example.recorded None] []) (Example.recorded None)
              ltac:(vm_compute; discriminate) ltac:(vm_compute; reflexivity)
              ltac:(vm_compute; reflexivity))
    as (v & Hv & Hnone).
  vm_compute in Hv. injection Hv as <-. discriminate.
Qed.

(** The synchronisation persists the bookkeeping, returns without error,
    and does not signal requeue. *)
Lemma persisted_steps_requeue_counterexample :
  ¬ (∀ step env cl nab, step ∈ Example.steps →
       (∃ n, WriteStatusUpdate n ∈ srWrites (step env cl nab)) →
       srError (step env cl nab) = None →
       srRequeue (step env cl nab) = true).
Proof.
  intros H.
  assert (Example.sync ∈ Example.steps) as Hin by (do 2 right; left).
  specialize (H Example.sync (Example.calm 5) (Example.cluster [Example.validated] [])
                Example.validated Hin).
  assert (∃ n, WriteStatusUpdate n
                 ∈ srWrites (Example.sync (Example.calm 5)
                               (Example.cluster [Example.validated] []) Example.validated))
    as Hw.
  { eexists. vm_compute. right. left. }
  specialize (H Hw ltac:(vm_compute; reflexivity)).
  vm_compute in H. discriminate.
Qed.

(** * Examples: the pipeline at concrete requests *)


(** The completed Backup is still there after a pass. *)
Lemma Reconcile_keeps_backups_witness :
  let cl := Example.cluster [Example.recorded (Some Example.inProgress)]
              [Example.backup Example.completed] in
  veleroBackups cl !! ("openshift-adp", "nab-tenant-a-backup-1")
    = Some (Example.backup Example.completed) ∧
  veleroBackups (rrCluster (Example.reconcile (Example.calm 9) cl ("tenant-a", "backup-1")))
    !! ("openshift-adp", "nab-tenant-a-backup-1") = Some (Example.backup Example.completed).
Proof.
  cbv zeta.
  assert (veleroBackups (Example.cluster [Example.recorded (Some Example.inProgress)]
                           [Example.backup Example.completed])
            !! ("openshift-adp", "nab-tenant-a-backup-1")
          = Some (Example.backup Example.completed)) as Hb by (vm_compute; reflexivity).
  split; [exact Hb|].
  exact (proj1 (Reconcile_keeps_backups Example.GenerateVeleroBackupName
                  Example.GetNonAdminLabels Example.GetNonAdminBackupAnnotations
                  Example.ValidateBackupSpec Example.r (Example.calm 9)
                  (Example.cluster [Example.recorded (Some Example.inProgress)]
                     [Example.backup Example.completed])
                  ("tenant-a", "backup-1")) _ _ Hb).
Defined.

(** The validated request keeps metadata and spec through a pass. *)
Lemma Reconcile_writes_status_only_witness :
  let cl := Example.cluster [Example.validated] [] in
  nonAdminBackups cl !! ("tenant-a", "backup-1") = Some Example.validated ∧
  ∃ st, nonAdminBackups
          (rrCluster (Example.reconcile (Example.calm 5) cl ("tenant-a", "backup-1")))
          !! ("tenant-a", "backup-1") = Some (set_status Example.validated st).
Proof.
  cbv zeta.
  assert (nonAdminBackups (Example.cluster [Example.validated] [])
            !! ("tenant-a", "backup-1") = Some Example.validated) as Hs
    by (vm_compute; reflexivity).
  split; [exact Hs|].
  exact (proj1 (proj2 (Reconcile_writes_status_only Example.GenerateVeleroBackupName
                  Example.GetNonAdminLabels Example.GetNonAdminBackupAnnotations
                  Example.ValidateBackupSpec Example.r (Example.calm 5)
                  (Example.cluster [Example.validated] [])
                  ("tenant-a", "backup-1") ("tenant-a", "backup-1"))) _ Hs).
Defined.

(** The first pass on a fresh request asks for a requeue after one status
    update. *)
Lemma Reconcile_writes_shape_witness :
  let rr := Example.reconcile (Example.calm 1) (Example.cluster [Example.modest] [])
              ("tenant-a", "backup-1") in
  Requeue (rrResult rr) = true ∧ rrError rr = None ∧
  ∃ n, rrWrites rr = [WriteStatusUpdate n].
Proof.
  cbv zeta.
  assert (Requeue (rrResult (Example.reconcile (Example.calm 1)
                               (Example.cluster [Example.modest] [])
                               ("tenant-a", "backup-1"))) = true) as Hrq
    by (vm_compute; reflexivity).
  split; [exact Hrq|].
  exact (proj2 (proj2 (Reconcile_writes_shape Example.GenerateVeleroBackupName
                  Example.GetNonAdminLabels Example.GetNonAdminBackupAnnotations
                  Example.ValidateBackupSpec Example.r (Example.calm 1)
                  (Example.cluster [Example.modest] []) ("tenant-a", "backup-1"))) Hrq).
Defined.

(** The modest request, initialised, is accepted: the acceptance is recorded
    and a requeue asked for. *)
Lemma validateSpec_valid_witness :
  let nab := set_status Example.modest (mkNonAdminBackupStatus None "New" []) in
  let sr := Example.validate (Example.calm 3) (Example.cluster [nab] []) nab in
  Example.ValidateBackupSpec nab = None ∧
  acceptedRecorded (nStatus (srNab sr)) ∧ srRequeue sr = true ∧ srError sr = None.
Proof.
  cbv zeta.
  assert (Example.ValidateBackupSpec
            (set_status Example.modest (mkNonAdminBackupStatus None "New" [])) = None)
    as Hv by (vm_compute; reflexivity).
  split; [exact Hv|].
  destruct (validateSpec_valid Example.ValidateBackupSpec (Example.calm 3)
              (Example.cluster
                 [set_status Example.modest (mkNonAdminBackupStatus None "New" [])] [])
              (set_status Example.modest (mkNonAdminBackupStatus None "New" [])) Hv)
    as (Hacc & _ & _ & _ & Hnew).
  split; [exact Hacc|].
  assert (¬ acceptedRecorded
            (nStatus (set_status Example.modest (mkNonAdminBackupStatus None "New" []))))
    as Hnot by (intros (c & Hc & _); vm_compute in Hc; discriminate).
  destruct (proj1 (Hnew Hnot)
              (set_status Example.modest (mkNonAdminBackupStatus None "New" []))
              eq_refl ltac:(vm_compute; reflexivity))
    as (_ & _ & Hrq & Herr).
  split; [exact Hrq | exact Herr].
Defined.

(** The Backup of the validated request exists already: the request catches
    up without creating. *)
Lemma sync_catches_up_witness :
  let b := Example.backup Example.inProgress in
  let cl := Example.cluster [Example.validated] [b] in
  let sr := Example.sync (Example.calm 5) cl Example.validated in
  veleroBackups cl !! ("openshift-adp", "nab-tenant-a-backup-1") = Some b ∧
  srWrites sr = [WriteStatusUpdate (srNab sr)] ∧
  bookkeepingComplete (nStatus (srNab sr)) b ∧ srError sr = None.
Proof.
  cbv zeta.
  assert (veleroBackups (Example.cluster [Example.validated]
                           [Example.backup Example.inProgress])
            !! ("openshift-adp", "nab-tenant-a-backup-1")
          = Some (Example.backup Example.inProgress)) as Hb by (vm_compute; reflexivity).
  split; [exact Hb|].
  destruct (sync_catches_up Example.GenerateVeleroBackupName Example.GetNonAdminLabels
              Example.GetNonAdminBackupAnnotations Example.r (Example.calm 5)
              (Example.cluster [Example.validated] [Example.backup Example.inProgress])
              Example.validated (Example.backup Example.inProgress) Example.validated
              ltac:(vm_compute; discriminate) eq_refl Hb
              ltac:(intros (Hp & _); vm_compute in Hp; discriminate)
              eq_refl ltac:(vm_compute; reflexivity))
    as (Hw & _ & _ & Hcomplete & _ & _ & Herr).
  split; [exact Hw|]. split; [exact Hcomplete | exact Herr].
Defined.

(** Validation of the recorded request leaves its Queued condition. *)
Lemma steps_keep_conditions_witness :
  FindStatusCondition
    (stConditions (nStatus (srNab (Example.validate (Example.calm 8)
                                     (Example.cluster [Example.recorded None] [])
                                     (Example.recorded None))))) "Queued"
  = Some Example.queued.
Proof.
  destruct (steps_keep_conditions Example.GenerateVeleroBackupName
              Example.GetNonAdminLabels Example.GetNonAdminBackupAnnotations
              Example.ValidateBackupSpec Example.r (Example.calm 8)
              (Example.cluster [Example.recorded None] []) (Example.recorded None))
    as (_ & Hvalidate & _).
  etrans; [apply Hvalidate; vm_compute; discriminate | vm_compute; reflexivity].
Defined.

(** A pass on the validated request is the synchronisation. *)
Lemma Reconcile_stages_witness :
  let cl := Example.cluster [Example.validated] [] in
  nonAdminBackups cl !! ("tenant-a", "backup-1") = Some Example.validated ∧
  Example.reconcile (Example.calm 5) cl ("tenant-a", "backup-1")
    = stopped (Example.sync (Example.calm 5) cl Example.validated).
Proof.
  cbv zeta.
  assert (nonAdminBackups (Example.cluster [Example.validated] [])
            !! ("tenant-a", "backup-1") = Some Example.validated) as Hs
    by (vm_compute; reflexivity).
  split; [exact Hs|].
  destruct (Reconcile_stages Example.GenerateVeleroBackupName Example.GetNonAdminLabels
              Example.GetNonAdminBackupAnnotations Example.ValidateBackupSpec Example.r
              (Example.calm 5) (Example.cluster [Example.validated] [])
              ("tenant-a", "backup-1") Example.validated eq_refl Hs)
    as (_ & _ & Hsync).
  apply Hsync; [vm_compute; discriminate | vm_compute; reflexivity |].
  exists Example.accepted. repeat split.
Defined.

(** The modest request from creation to the steady state. *)
Lemma Reconcile_converges_witness :
  let key := ("tenant-a", "backup-1") in
  let rr1 := Example.reconcile (Example.calm 1) (Example.cluster [Example.modest] []) key in
  let rr2 := Example.reconcile (Example.calm 2) (rrCluster rr1) key in
  let rr3 := Example.reconcile (Example.calm 3) (rrCluster rr2) key in
  let rr4 := Example.reconcile (Example.calm 4) (rrCluster rr3) key in
  let rr5 := Example.reconcile (Example.calm 5) (rrCluster rr4) key in
  veleroBackups (Example.cluster [Example.modest] [])
    !! ("openshift-adp", "nab-tenant-a-backup-1") = None ∧
  [rrResult rr1; rrResult rr2; rrResult rr3; rrResult rr4]
    = [mkResult true; mkResult true; mkResult false; mkResult false] ∧
  rr5 = mkReconcileResult (rrCluster rr4) [] (mkResult false) None.
Proof.
  cbv zeta.
  assert (veleroBackups (Example.cluster [Example.modest] [])
            !! ("openshift-adp", "nab-tenant-a-backup-1") = None) as Hfree
    by (vm_compute; reflexivity).
  split; [exact Hfree|].
  destruct (Reconcile_converges Example.GenerateVeleroBackupName
              Example.GetNonAdminLabels Example.GetNonAdminBackupAnnotations
              Example.ValidateBackupSpec Example.r
              (Example.calm 1) (Example.calm 2) (Example.calm 3) (Example.calm 4)
              (Example.calm 5) (Example.cluster [Example.modest] []) Example.modest
              ltac:(repeat split) ltac:(repeat split) ltac:(repeat split)
              ltac:(repeat split) ltac:(repeat split)
              (λ st, eq_refl) ltac:(vm_compute; discriminate) eq_refl
              ltac:(vm_compute; reflexivity) Hfree)
    as (Hresults & _ & _ & _ & _ & Hsteady).
  split; [exact Hresults | exact Hsteady].
Defined.

(** The fetch of the Backup fails: the pass returns the error and the
    stored request is as before. *)
Lemma Reconcile_error_keeps_status_witness :
  let env := mkEnv 5 None (Some Example.conflict) None None in
  let cl := Example.cluster [Example.validated] [] in
  let rr := Example.reconcile env cl ("tenant-a", "backup-1") in
  rrError rr = Some Example.conflict ∧
  (nonAdminBackups (rrCluster rr) = nonAdminBackups cl ∧
   (∀ n, WriteStatusUpdate n ∉ rrWrites rr) ∨
   ∃ nab err n, nonAdminBackups cl !! ("tenant-a", "backup-1") = Some nab ∧
     Example.ValidateBackupSpec nab = Some err ∧ Example.conflict = TerminalError err ∧
     rrWrites rr = [WriteStatusUpdate n]).
Proof.
  cbv zeta.
  assert (rrError (Example.reconcile (mkEnv 5 None (Some Example.conflict) None None)
                     (Example.cluster [Example.validated] []) ("tenant-a", "backup-1"))
          = Some Example.conflict) as He by (vm_compute; reflexivity).
  split; [exact He|].
  exact (Reconcile_error_keeps_status Example.GenerateVeleroBackupName
           Example.GetNonAdminLabels Example.GetNonAdminBackupAnnotations
           Example.ValidateBackupSpec Example.r
           (mkEnv 5 None (Some Example.conflict) None None)
           (Example.cluster [Example.validated] []) ("tenant-a", "backup-1")
           Example.conflict He).
Defined.

(** Five passes on the fresh modest request, the fourth with a stale
    not-found answer for the Backup: one Backup is created. *)
Lemma reconcileLog_creates_once_witness :
  let envs := [Example.calm 1; Example.calm 2; Example.calm 3;
               mkEnv 4 None (Some (StatusError ReasonNotFound "stale")) None None;
               Example.calm 5] in
  let log := reconcileLog Example.GenerateVeleroBackupName Example.GetNonAdminLabels
               Example.GetNonAdminBackupAnnotations Example.ValidateBackupSpec Example.r
               envs (Example.cluster [Example.modest] []) ("tenant-a", "backup-1") in
  length (creates log) = 1%nat ∧
  (creates log = [] ∨
   ∃ nab, nonAdminBackups (Example.cluster [Example.modest] []) !! ("tenant-a", "backup-1")
            = Some nab ∧
     veleroBackups (Example.cluster [Example.modest] [])
       !! (OADPNamespace Example.r,
           Example.GenerateVeleroBackupName (mNamespace (nObjectMeta nab))
             (mName (nObjectMeta nab))) = None ∧
     creates log
       = [newVeleroBackup Example.GetNonAdminLabels Example.GetNonAdminBackupAnnotations
            Example.r
            (Example.GenerateVeleroBackupName (mNamespace (nObjectMeta nab))
               (mName (nObjectMeta nab))) nab]).
Proof.
  cbv zeta. split; [vm_compute; reflexivity|].
  exact (reconcileLog_creates_once Example.GenerateVeleroBackupName
           Example.GetNonAdminLabels Example.GetNonAdminBackupAnnotations
           Example.ValidateBackupSpec Example.r
           [Example.calm 1; Example.calm 2; Example.calm 3;
            mkEnv 4 None (Some (StatusError ReasonNotFound "stale")) None None;
            Example.calm 5]
           (Example.cluster [Example.modest] []) ("tenant-a", "backup-1")).
Defined.
